(** * validate_grafico: a shallow embedding of the Grafico repository validator

    The development follows [scripts/validate_grafico.py]: the string
    helpers and the three regular expressions first, then the parsed XML
    documents, the repository as the validator reads it, the [Validator]
    state with its phases, and finally the properties of the phases. *)

From Stdlib Require Import String Ascii List Bool Arith Lia ZArith.
From stdpp Require Import base option list gmap strings.

Local Open Scope string_scope.
Local Open Scope list_scope.
Set Warnings "-register-all".

(** ** Characters and strings

    Python strings are modelled as [string]; the functions that look inside
    a string work on its list of characters. *)

Module Str.

Definition chars (s : string) : list ascii := list_ascii_of_string s.
Definition of_chars (l : list ascii) : string := string_of_list_ascii l.

Definition newline : ascii := "010"%char.
Definition underscore : ascii := "_"%char.
Definition slash : ascii := "/"%char.
Definition colon : ascii := ":"%char.

Definition ascii_eqb (a b : ascii) : bool := Ascii.eqb a b.

Definition in_range (lo hi c : ascii) : bool :=
  (nat_of_ascii lo <=? nat_of_ascii c)%nat && (nat_of_ascii c <=? nat_of_ascii hi)%nat.

Definition is_digit (c : ascii) : bool := in_range "0" "9" c.
Definition is_upper (c : ascii) : bool := in_range "A" "Z" c.
Definition is_lower (c : ascii) : bool := in_range "a" "z" c.

(** The character class [[A-Za-z0-9_]]. *)
Definition is_word (c : ascii) : bool :=
  is_upper c || is_lower c || is_digit c || ascii_eqb c underscore.

(** The character class [[0-9A-Fa-f]]. *)
Definition is_hex (c : ascii) : bool :=
  is_digit c || in_range "A" "F" c || in_range "a" "f" c.

Fixpoint eqb_chars (a b : list ascii) : bool :=
  match a, b with
  | [], [] => true
  | x :: a', y :: b' => ascii_eqb x y && eqb_chars a' b'
  | _, _ => false
  end.

(** [starts_with p l]: [l] begins with [p] (Python's [str.startswith]). *)
Fixpoint starts_with (p l : list ascii) : bool :=
  match p, l with
  | [], _ => true
  | x :: p', y :: l' => ascii_eqb x y && starts_with p' l'
  | _ :: _, [] => false
  end.

(** [ends_with suf l]: Python's [str.endswith]. *)
Definition ends_with (suf l : list ascii) : bool :=
  (length suf <=? length l)%nat && eqb_chars (drop (length l - length suf) l) suf.

Definition endswith (s suf : string) : bool := ends_with (chars suf) (chars s).

Definition mem (c : ascii) (l : list ascii) : bool := existsb (ascii_eqb c) l.

(** [after_first c l]: what follows the first [c] in [l], if [c] occurs:
    [l.split(c, 1)[1]] under the test [c in l]. *)
Fixpoint after_first (c : ascii) (l : list ascii) : option (list ascii) :=
  match l with
  | [] => None
  | x :: l' => if ascii_eqb x c then Some l' else after_first c l'
  end.

(** The prefix-stripping idiom of the source:
    [if ":" in t: t = t.split(":", 1)[1]]. *)
Definition strip_prefix_colon (t : string) : string :=
  match after_first colon (chars t) with
  | Some r => of_chars r
  | None => t
  end.

(** Python's truth value of a string: non-empty. *)
Definition truthy (s : string) : bool :=
  match s with EmptyString => false | _ => true end.

(** [o or ""] for an optional string. *)
Definition or_empty (o : option string) : string := default "" o.

(** [not o] for an optional string ([None] and [""] are both false). *)
Definition falsy_opt (o : option string) : bool :=
  match o with Some s => negb (truthy s) | None => true end.

End Str.

(** ** The regular expressions of the source

    Each pattern is matched the way Python's backtracking matcher does it:
    a greedy repetition first takes all it can and then gives characters
    back one at a time; [.] does not match a newline; [$] matches at the
    end of the string and also just before a final newline. *)

Module Re.
Import Str.

(** What [$] leaves to match: the subject without one final newline. *)
Definition strip_final_newline (l : list ascii) : list ascii :=
  match reverse l with
  | c :: r => if ascii_eqb c newline then reverse r else l
  | [] => l
  end.

(** [(.+)$]: the captured group, one or more characters, none a newline. *)
Definition dot_plus_end (l : list ascii) : option (list ascii) :=
  let g := strip_final_newline l in
  match g with
  | [] => None
  | _ :: _ => if mem newline g then None else Some g
  end.

Definition dot_xml : list ascii := chars ".xml".

(** [(.+)\.xml$]: the captured group. *)
Definition dot_plus_xml_end (l : list ascii) : option (list ascii) :=
  let t := strip_final_newline l in
  if ends_with dot_xml t then
    let g := take (length t - 4) t in
    match g with
    | [] => None
    | _ :: _ => if mem newline g then None else Some g
    end
  else None.

(** The length of the longest prefix whose characters satisfy [p]: what a
    greedy [[...]+] takes first. *)
Fixpoint span_length (p : ascii -> bool) (l : list ascii) : nat :=
  match l with
  | c :: l' => if p c then S (span_length p l') else 0
  | [] => 0
  end.

(** [FILENAME_RE = ^([A-Za-z0-9_]+)_(.+)\.xml$], group 1 of length [n]
    tried from the longest candidate downwards. *)
Fixpoint filename_backtrack (l : list ascii) (n : nat)
  : option (list ascii * list ascii) :=
  match n with
  | 0 => None
  | S m =>
      match drop (S m) l with
      | c :: rest =>
          if ascii_eqb c underscore then
            match dot_plus_xml_end rest with
            | Some fid => Some (take (S m) l, fid)
            | None => filename_backtrack l m
            end
          else filename_backtrack l m
      | [] => filename_backtrack l m
      end
  end.

(** [FILENAME_RE.match(base)]: [Some (m.group(1), m.group(2))]. *)
Definition FILENAME_RE (base : string) : option (string * string) :=
  let l := chars base in
  match filename_backtrack l (span_length is_word l) with
  | Some (cls, fid) => Some (of_chars cls, of_chars fid)
  | None => None
  end.

Definition dot_xml_hash : list ascii := chars ".xml#".

(** [^([^/]+\.xml)#(.+)$], the [[^/]+] of length [n] tried from the
    longest candidate downwards. *)
Fixpoint href_backtrack (l : list ascii) (n : nat)
  : option (list ascii * list ascii) :=
  match n with
  | 0 => None
  | S m =>
      let rest := drop (S m) l in
      if starts_with dot_xml_hash rest then
        match dot_plus_end (drop 5 rest) with
        | Some frag => Some (take (S m + 4) l, frag)
        | None => href_backtrack l m
        end
      else href_backtrack l m
  end.

(** [re.match(r"^([^/]+\.xml)#(.+)$", href)]. *)
Definition HREF_RE (href : string) : option (string * string) :=
  let l := chars href in
  match href_backtrack l (span_length (fun c => negb (ascii_eqb c slash)) l) with
  | Some (fname, frag) => Some (of_chars fname, of_chars frag)
  | None => None
  end.

(** [ID_RECOMMENDED = ^id-[0-9A-Fa-f]{32}$]. *)
Definition ID_RECOMMENDED (s : string) : bool :=
  let t := strip_final_newline (chars s) in
  starts_with (chars "id-") t
  && (length (drop 3 t) =? 32)%nat
  && forallb is_hex (drop 3 t).

End Re.

(** ** Parsed XML documents

    An [xml.etree.ElementTree] element: its tag, its attribute dictionary
    and its children in document order.  ElementTree writes a qualified tag
    as [{uri}local]; the two parts are kept apart, so [localname] is total.
    Attribute keys stay in that notation, as the source looks them up. *)

Record Tag := mkTag { tag_ns : option string; tag_local : string }.

Inductive Element :=
  Elem (tag : Tag) (attrib : list (string * string)) (children : list Element).

Definition ARCHIMATE_NS : string := "http://www.archimatetool.com/archimate".
Definition XSI_NS : string := "http://www.w3.org/2001/XMLSchema-instance".
Definition XSI_TYPE : string := "{" ++ XSI_NS ++ "}type".

Definition TOP_FOLDERS : list string :=
  [ "Strategy"; "Business"; "Application"; "Technology"; "Motivation";
    "Implementation_Migration"; "Other"; "Relations"; "Diagrams" ].

Module Xml.

Definition tag (e : Element) : Tag := let 'Elem t _ _ := e in t.
Definition attrib (e : Element) : list (string * string) := let 'Elem _ a _ := e in a.
Definition children (e : Element) : list Element := let 'Elem _ _ c := e in c.

(** [localname(tag)]. *)
Definition localname (t : Tag) : string := tag_local t.

(** The tag as ElementTree spells it. *)
Definition clark (t : Tag) : string :=
  match tag_ns t with
  | Some u => "{" ++ u ++ "}" ++ tag_local t
  | None => tag_local t
  end.

(** [elem.get(key)]. *)
Fixpoint assoc (key : string) (a : list (string * string)) : option string :=
  match a with
  | [] => None
  | (k, v) :: a' => if String.eqb k key then Some v else assoc key a'
  end.

Definition get (e : Element) (key : string) : option string := assoc key (attrib e).

(** [elem.iter()]: the element and all its descendants, in document order. *)
Fixpoint iter (e : Element) : list Element :=
  match e with
  | Elem _ _ cs => e :: concat (map iter cs)
  end.

(** [elem.findall(".//*")] and [elem.findall(".//")] (ElementPath reads a
    path that ends in [/] as if [*] followed): all proper descendants. *)
Definition descendants (e : Element) : list Element := concat (map iter (children e)).

(** [elem.find(name)] for a plain name: the first child with that tag. *)
Definition find (e : Element) (name : string) : option Element :=
  List.find (fun c => String.eqb (clark (tag c)) name) (children e).

(** [tag.split("}")[0]]: the tag up to its first closing brace. *)
Fixpoint before_first (c : ascii) (l : list ascii) : list ascii :=
  match l with
  | [] => []
  | x :: l' => if Str.ascii_eqb x c then [] else x :: before_first c l'
  end.

Fixpoint lstrip (c : ascii) (l : list ascii) : list ascii :=
  match l with
  | x :: l' => if Str.ascii_eqb x c then lstrip c l' else l
  | [] => []
  end.

(** [s.strip("{")]. *)
Definition strip_brace (l : list ascii) : list ascii :=
  reverse (lstrip "{"%char (reverse (lstrip "{"%char l))).

(** [root.tag.split("}")[0].strip("{")]. *)
Definition tag_head (t : Tag) : string :=
  Str.of_chars (strip_brace (before_first "}"%char (Str.chars (clark t)))).

End Xml.

(** ** The repository, as the validator reads it *)

(** A path below the model directory, by components. *)
Definition Path := list string.

(** [p.name]. *)
Definition name (p : Path) : string := List.last p "".

(** The result of [parse_xml(path)] under [try ... except Exception as e]:
    the root, or [str(e)]. *)
Inductive ParseResult :=
  | ParseFail (msg : string)
  | ParseOk (root : Element).

(** One entry below the model directory: its path, what parsing it gives,
    and whether its bytes contain a carriage return ([None]: reading the
    bytes raises). *)
Record FsEntry := mkEntry {
  fe_path : Path;
  fe_parse : ParseResult;
  fe_cr : option bool
}.

(** An optional JSON document: missing, unreadable ([str(e)]), or loaded. *)
Inductive Doc (A : Type) :=
  | DocAbsent
  | DocMalformed (msg : string)
  | DocLoaded (data : A).
Arguments DocAbsent {A}.
Arguments DocMalformed {A} msg.
Arguments DocLoaded {A} data.

(** An entry of [catalog.json]: [e.get("class")], [e.get("defaultFolder")]. *)
Record CatalogEntry := mkCatalogEntry {
  ce_class : option string;
  ce_defaultFolder : option string
}.

(** [catalog.json]: the three lists, each possibly missing. *)
Record CatalogDoc := mkCatalogDoc {
  cat_elements : option (list CatalogEntry);
  cat_relationships : option (list CatalogEntry);
  cat_diagrams : option (list CatalogEntry)
}.

(** A rule of [relationships.json]; a missing key is [None], and
    [sameClass] holds [bool(rule.get("sameClass"))]. *)
Record Rule := mkRule {
  relationship : option string;
  sameClass : bool;
  sourceClass : option string;
  sourceGroup : option string;
  targetClass : option string;
  targetGroup : option string
}.

(** [relationships.json]: the [rules] and [groups] keys, each possibly
    missing, and whether the object has any other key (an object with no
    key at all is false in Python). *)
Record RuleDoc := mkRuleDoc {
  doc_rules : option (list Rule);
  doc_groups : option (gmap string (list string));
  doc_other_keys : bool
}.

Definition empty_rules : RuleDoc := mkRuleDoc None None false.

(** The truth value of the dictionary [self.relation_rules]. *)
Definition rules_loaded (d : RuleDoc) : bool :=
  match doc_rules d, doc_groups d with
  | None, None => doc_other_keys d
  | _, _ => true
  end.

(** What running the external tool gives. *)
Inductive ArchiRun :=
  | NotExecutable
  | RunRaised (msg : string)
  | Ran (returncode : Z) (reports_errors : bool).

Record Repo := mkRepo {
  model_is_dir : bool;
  (** [model/folder.xml]: [None] when it is not a file. *)
  model_folder_xml : option ParseResult;
  (** The directories directly below [model], each with its [folder.xml]. *)
  top_dirs : gmap string (option ParseResult);
  (** Everything below [model], in the order [rglob] visits it. *)
  entries : list FsEntry;
  catalog_json : Doc CatalogDoc;
  relationships_json : Doc RuleDoc
}.

(** [self.model_dir.rglob("*.xml")]. *)
Definition rglob (r : Repo) : list Path :=
  map fe_path (filter (fun e => Str.endswith (name (fe_path e)) ".xml" = true) (entries r)).

Definition lookup_entry (r : Repo) (p : Path) : option FsEntry :=
  List.find (fun e => bool_decide (fe_path e = p)) (entries r).

(** [parse_xml(p)] on a path below the model directory. *)
Definition parse_xml (r : Repo) (p : Path) : ParseResult :=
  match lookup_entry r p with
  | Some e => fe_parse e
  | None => ParseFail "No such file or directory"
  end.

(** ** Diagnostics

    One constructor per message of the source, its arguments the values
    the message interpolates. *)

Inductive Side := Source | Target.

Inductive Msg :=
  | MissingRequiredFolder
  | MissingRequiredFile
  | MissingTopLevelFolder (f : string)
  | MissingFolderXmlIn (f : string)
  | ModelRootMustBeModel (got : Tag)
  | FolderRootMustBeFolder (f : string) (got : Tag)
  | ParseFailure (msg : string)
  | MissingIdOnRoot (p : Path)
  | InvalidFilenamePattern (p : Path)
  | RootDoesNotMatchClass (root_local cls : string) (p : Path)
  | RootIdDoesNotMatch (rid fid : string) (p : Path)
  | IdNotRecommended (fid : string) (p : Path)
  | ClassExpectedInFolder (cls expected top : string) (p : Path)
  | InvalidHref (href : string) (p : Path)
  | FailedToParseTarget (href msg : string)
  | HrefIdDoesNotMatch (frag trid href : string) (p : Path)
  | RelationshipMissingSingle (side : Side) (p : Path)
  | RelationshipMissingHref (side : Side) (p : Path)
  | RelationshipMissingType (side : Side) (p : Path)
  | RelationshipNotAllowed (root_local src_type tgt_type : string) (p : Path)
  | ConnectionEndNotFound (side : Side) (id : option string) (p : Path)
  | ConnectionMissingRelHref (p : Path)
  | ConnectionNotAllowed (rtype src_type tgt_type : string) (p : Path)
  | ConnectionMissingRel (p : Path)
  | ObjectMissingBounds (p : Path)
  | ObjectMissingElementHref (p : Path)
  | ArchiNotExecutable
  | ArchiReturnedCode (code : Z)
  | ArchiReportedErrors
  | ArchiFailedToRun (msg : string)
  | CrCharactersFound (p : Path)
  | FailedToReadRules (msg : string).

(** ** The validator's state *)

Record Validator := mkValidator {
  repo : Repo;
  archi_bin : option ArchiRun;
  strict_ids : bool;
  errors : list Msg;
  warnings : list Msg;
  class_to_folder : gmap string string;
  element_classes : gset string;
  relationship_classes : gset string;
  diagram_classes : gset string;
  relation_rules : RuleDoc;
  groups : gmap string (list string);
  basename_to_path : gmap string Path;
  (** A Python dictionary keeps its keys in insertion order. *)
  file_meta : list (Path * (string * string))
}.

Definition set_errors (v : Validator) (es : list Msg) : Validator :=
  mkValidator (repo v) (archi_bin v) (strict_ids v) es (warnings v)
    (class_to_folder v) (element_classes v) (relationship_classes v)
    (diagram_classes v) (relation_rules v) (groups v) (basename_to_path v)
    (file_meta v).

Definition set_warnings (v : Validator) (ws : list Msg) : Validator :=
  mkValidator (repo v) (archi_bin v) (strict_ids v) (errors v) ws
    (class_to_folder v) (element_classes v) (relationship_classes v)
    (diagram_classes v) (relation_rules v) (groups v) (basename_to_path v)
    (file_meta v).

Definition set_basename_to_path (v : Validator) (m : gmap string Path) : Validator :=
  mkValidator (repo v) (archi_bin v) (strict_ids v) (errors v) (warnings v)
    (class_to_folder v) (element_classes v) (relationship_classes v)
    (diagram_classes v) (relation_rules v) (groups v) m (file_meta v).

Definition set_file_meta (v : Validator) (fm : list (Path * (string * string))) : Validator :=
  mkValidator (repo v) (archi_bin v) (strict_ids v) (errors v) (warnings v)
    (class_to_folder v) (element_classes v) (relationship_classes v)
    (diagram_classes v) (relation_rules v) (groups v) (basename_to_path v) fm.

(** [self.fail(msg)] and [self.warn(msg)]. *)
Definition fail (msg : Msg) (v : Validator) : Validator := set_errors v (errors v ++ [msg]).
Definition warn (msg : Msg) (v : Validator) : Validator := set_warnings v (warnings v ++ [msg]).

(** Several [fail]s in a row. *)
Definition fail_all (msgs : list Msg) (v : Validator) : Validator :=
  set_errors v (errors v ++ msgs).

(** Python dictionaries keyed by path. *)
Module Dict.
Section Dict.
Context {V : Type}.

Fixpoint get (k : Path) (d : list (Path * V)) : option V :=
  match d with
  | [] => None
  | (k', x) :: d' => if bool_decide (k' = k) then Some x else get k d'
  end.

(** [d[k] = x]: an existing key keeps its place, a new one goes last. *)
Fixpoint set (k : Path) (x : V) (d : list (Path * V)) : list (Path * V) :=
  match d with
  | [] => [(k, x)]
  | (k', y) :: d' => if bool_decide (k' = k) then (k', x) :: d' else (k', y) :: set k x d'
  end.

Definition keys (d : list (Path * V)) : list Path := map fst d.

End Dict.
End Dict.

(** ** Exceptions and the state monad of the phases *)

Inductive Exn :=
  | IndexError
  | RuntimeError
  | ValueError (msg : string).

Inductive Outcome (A : Type) :=
  | Returns (a : A)
  | Raises (e : Exn).
Arguments Returns {A} a.
Arguments Raises {A} e.

(** A method of [Validator]: from the state to what it returns or raises,
    with the state it leaves. *)
Definition M (A : Type) : Type := Validator -> Outcome A * Validator.

Definition ret {A} (a : A) : M A := fun v => (Returns a, v).
Definition raise {A} (e : Exn) : M A := fun v => (Raises e, v).
Definition bind {A B} (m : M A) (k : A -> M B) : M B :=
  fun v => match m v with
           | (Returns a, v') => k a v'
           | (Raises e, v') => (Raises e, v')
           end.
Definition modify (f : Validator -> Validator) : M unit := fun v => (Returns tt, f v).
Definition gets {A} (f : Validator -> A) : M A := fun v => (Returns (f v), v).

Declare Scope val_scope.
Delimit Scope val_scope with val.
Notation "x <- m ;; k" := (bind m (fun x => k))
  (at level 100, m at next level, right associativity) : val_scope.
Notation "m ;; k" := (bind m (fun _ => k))
  (at level 100, right associativity) : val_scope.
Local Open Scope val_scope.

(** A [for] loop whose body runs for its effects. *)
Fixpoint for_each {A} (body : A -> M unit) (l : list A) : M unit :=
  match l with
  | [] => ret tt
  | x :: l' => body x ;; for_each body l'
  end.

(** ** Loading the optional documents *)

Definition Catalog : Type :=
  gmap string string * gset string * gset string * gset string.

(** One of the three loops of [read_catalog]: entries with a class and a
    default folder (both non-empty) are recorded. *)
Fixpoint catalog_loop (es : list CatalogEntry)
    (acc : gmap string string * gset string) : gmap string string * gset string :=
  match es with
  | [] => acc
  | e :: es' =>
      let '(c2f, classes) := acc in
      match ce_class e, ce_defaultFolder e with
      | Some cls, Some folder =>
          if Str.truthy cls && Str.truthy folder
          then catalog_loop es' (<[cls := folder]> c2f, {[cls]} ∪ classes)
          else catalog_loop es' acc
      | _, _ => catalog_loop es' acc
      end
  end.

(** [read_catalog(repo)]: the four results, or the [ValueError] it raises. *)
Definition read_catalog (r : Repo) : Exn + Catalog :=
  match catalog_json r with
  | DocAbsent => inr (∅, ∅, ∅, ∅)
  | DocMalformed msg => inl (ValueError ("Failed to read types/catalog.json: " ++ msg))
  | DocLoaded data =>
      let '(c1, elements) := catalog_loop (default [] (cat_elements data)) (∅, ∅) in
      let '(c2, relationships) := catalog_loop (default [] (cat_relationships data)) (c1, ∅) in
      let '(c3, diagrams) := catalog_loop (default [] (cat_diagrams data)) (c2, ∅) in
      inr (c3, elements, relationships, diagrams)
  end.

(** [Validator._read_relationship_rules]: the rules, and the warning it
    records when the document cannot be read. *)
Definition _read_relationship_rules (r : Repo) : RuleDoc * list Msg :=
  match relationships_json r with
  | DocAbsent => (empty_rules, [])
  | DocMalformed msg => (empty_rules, [FailedToReadRules msg])
  | DocLoaded d => (d, [])
  end.

(** [Validator.__init__]: the new validator, or the exception that
    escapes the constructor. *)
Definition init (r : Repo) (archi : option ArchiRun) (strict : bool) : Exn + Validator :=
  match read_catalog r with
  | inl e => inl e
  | inr (c2f, elements, relationships, diagrams) =>
      let '(rules, ws) := _read_relationship_rules r in
      inr (mkValidator r archi strict [] ws c2f elements relationships diagrams
             rules (if rules_loaded rules then default ∅ (doc_groups rules) else ∅)
             ∅ [])
  end.

(** ** Phase 1: the folder skeleton *)

Definition check_top_folder_exists (r : Repo) (f : string) : list Msg :=
  match top_dirs r !! f with
  | None => [MissingTopLevelFolder f]
  | Some None => [MissingFolderXmlIn f]
  | Some (Some _) => []
  end.

Definition check_model_root (r : Repo) : list Msg :=
  match model_folder_xml r with
  | None => []
  | Some (ParseFail msg) => [ParseFailure msg]
  | Some (ParseOk root) =>
      if negb (String.eqb (Xml.localname (Xml.tag root)) "model")
         || negb (String.eqb (Xml.tag_head (Xml.tag root)) ARCHIMATE_NS)
      then [ModelRootMustBeModel (Xml.tag root)] else []
  end.

Definition check_top_folder_root (r : Repo) (f : string) : list Msg :=
  match top_dirs r !! f with
  | Some (Some (ParseFail msg)) => [ParseFailure msg]
  | Some (Some (ParseOk root)) =>
      if negb (String.eqb (Xml.localname (Xml.tag root)) "Folder")
      then [FolderRootMustBeFolder f (Xml.tag root)] else []
  | _ => []
  end.

(** The errors [check_structure] records, in order. *)
Definition structure_errors (r : Repo) : list Msg :=
  if negb (model_is_dir r) then [MissingRequiredFolder]
  else
    (match model_folder_xml r with None => [MissingRequiredFile] | Some _ => [] end)
    ++ concat (map (check_top_folder_exists r) TOP_FOLDERS)
    ++ check_model_root r
    ++ concat (map (check_top_folder_root r) TOP_FOLDERS).

Definition check_structure : M unit :=
  modify (fun v => fail_all (structure_errors (repo v)) v).

(** ** Phase 2: the index *)

Definition index_file (p : Path) (v : Validator) : Validator :=
  if String.eqb (name p) "folder.xml" then v
  else
    let v1 := set_basename_to_path v (<[name p := p]> (basename_to_path v)) in
    match parse_xml (repo v) p with
    | ParseFail msg => fail (ParseFailure msg) v1
    | ParseOk root =>
        let rid := Str.or_empty (Xml.get root "id") in
        let v2 := if Str.truthy rid then v1 else fail (MissingIdOnRoot p) v1 in
        set_file_meta v2 (Dict.set p (Xml.localname (Xml.tag root), rid) (file_meta v2))
    end.

Definition index_files : M unit :=
  paths <- gets (fun v => rglob (repo v)) ;;
  for_each (fun p => modify (index_file p)) paths.

(** ** Phase 3: file names and identifiers *)

Definition DIAGRAM_KINDS : list string := ["ArchimateDiagramModel"; "SketchModel"].

Definition is_diagram_kind (s : string) : bool :=
  existsb (String.eqb s) DIAGRAM_KINDS.

(** The default-folder check, run when a catalog is loaded. *)
Definition folder_errors (v : Validator) (p : Path) (cls : string) : list Msg :=
  if bool_decide (class_to_folder v = ∅) then []
  else
    match class_to_folder v !! cls, head p with
    | Some expected, Some top =>
        if Str.truthy expected && Str.truthy top && negb (String.eqb expected top)
        then [ClassExpectedInFolder cls expected top p] else []
    | _, _ => []
    end.

(** The errors one file adds in [check_files_and_ids]. *)
Definition file_id_errors (v : Validator) (p : Path) (root_local rid : string) : list Msg :=
  match Re.FILENAME_RE (name p) with
  | None => [InvalidFilenamePattern p]
  | Some (cls, fid) =>
      (if negb (is_diagram_kind cls) && negb (String.eqb root_local cls)
       then [RootDoesNotMatchClass root_local cls p] else [])
      ++ (if negb (String.eqb rid fid) then [RootIdDoesNotMatch rid fid p] else [])
      ++ (if strict_ids v && negb (Re.ID_RECOMMENDED fid)
          then [IdNotRecommended fid p] else [])
      ++ folder_errors v p cls
  end.

(** The warning one file adds: carriage returns in its bytes. *)
Definition file_cr_warnings (v : Validator) (p : Path) : list Msg :=
  match Re.FILENAME_RE (name p) with
  | None => []
  | Some _ =>
      match lookup_entry (repo v) p with
      | Some e => if default false (fe_cr e) then [CrCharactersFound p] else []
      | None => []
      end
  end.

Definition check_file_and_id (item : Path * (string * string)) : M unit :=
  let '(p, (root_local, rid)) := item in
  modify (fun v =>
    set_warnings (fail_all (file_id_errors v p root_local rid) v)
                 (warnings v ++ file_cr_warnings v p)).

Definition check_files_and_ids : M unit :=
  items <- gets file_meta ;;
  for_each check_file_and_id items.

(** ** Phase 4: references *)

(** [Validator._resolve_href]. *)
Definition _resolve_href (v : Validator) (href : string) : option Path * option string :=
  match Re.HREF_RE href with
  | None => (None, None)
  | Some (fname, frag) => (basename_to_path v !! fname, Some frag)
  end.

(** The body of the inner loop of [check_hrefs], for one [href] value
    found in file [p]. *)
Definition check_href (p : Path) (href : string) (v : Validator) : Validator :=
  match _resolve_href v href with
  | (Some tgt, Some frag) =>
      match Dict.get tgt (file_meta v) with
      | Some (_, trid) =>
          if negb (String.eqb frag trid)
          then fail (HrefIdDoesNotMatch frag trid href p) v else v
      | None =>
          (* parse on demand if not indexed *)
          match parse_xml (repo v) tgt with
          | ParseOk troot =>
              let trid := Str.or_empty (Xml.get troot "id") in
              let v1 := set_file_meta v
                          (Dict.set tgt (Xml.localname (Xml.tag troot), trid) (file_meta v)) in
              if negb (String.eqb frag trid)
              then fail (HrefIdDoesNotMatch frag trid href p) v1 else v1
          | ParseFail msg => fail (FailedToParseTarget href msg) v
          end
      end
  | _ => fail (InvalidHref href p) v
  end.

(** The [href] attributes of a document, in the order [root.iter()] meets
    them. *)
Definition hrefs (root : Element) : list string :=
  omap (fun elem => Xml.get elem "href") (Xml.iter root).

Definition check_hrefs_file (p : Path) : M unit :=
  modify (fun v =>
    match parse_xml (repo v) p with
    | ParseFail _ => v
    | ParseOk root => foldl (fun v' href => check_href p href v') v (hrefs root)
    end).

(** Iterating over the keys of [self.file_meta] while the body may add to
    it: every step of the iterator, the last one included, raises
    [RuntimeError] when the dictionary has changed size. *)
Fixpoint for_file_meta_keys (size : nat) (body : Path -> M unit) (ks : list Path) : M unit :=
  fun v =>
    if negb (length (file_meta v) =? size)%nat then (Raises RuntimeError, v)
    else match ks with
         | [] => (Returns tt, v)
         | k :: ks' => bind (body k) (fun _ => for_file_meta_keys size body ks') v
         end.

Definition check_hrefs : M unit :=
  fm <- gets file_meta ;;
  for_file_meta_keys (length fm) check_hrefs_file (Dict.keys fm).

(** ** The rule engine *)

Definition in_group (gs : gmap string (list string)) (name cls : string) : bool :=
  bool_decide (cls ∈ default [] (gs !! name)).

Definition match_side (gs : gmap string (list string))
    (rule_key_class rule_key_group : option string) (actual : string) : bool :=
  match rule_key_class with
  | Some c => Str.truthy c && String.eqb c actual
  | None => false
  end
  || match rule_key_group with
     | Some g => Str.truthy g && (String.eqb g "*" || in_group gs g actual)
     | None => false
     end.

(** [rule.get("relationship") not in (rtype, "*")], negated. *)
Definition relationship_covers (rule : Rule) (rtype : string) : bool :=
  match relationship rule with
  | Some r => String.eqb r rtype || String.eqb r "*"
  | None => false
  end.

(** One turn of the loop over the rules: [true] when it reaches
    [return True]. *)
Definition rule_allows (gs : gmap string (list string))
    (rtype src tgt : string) (rule : Rule) : bool :=
  if negb (relationship_covers rule rtype) then false
  else if sameClass rule && negb (String.eqb src tgt) then false
  else match_side gs (sourceClass rule) (sourceGroup rule) src
       && match_side gs (targetClass rule) (targetGroup rule) tgt.

Fixpoint rules_loop (gs : gmap string (list string))
    (rtype src tgt : string) (rules : list Rule) : bool :=
  match rules with
  | [] => false
  | rule :: rest =>
      if rule_allows gs rtype src tgt rule then true
      else rules_loop gs rtype src tgt rest
  end.

(** [r.get("relationship") == rtype]. *)
Definition rule_for_type (rtype : string) (r : Rule) : bool :=
  match relationship r with
  | Some x => String.eqb x rtype
  | None => false
  end.

(** [Validator._is_relationship_allowed]. *)
Definition _is_relationship_allowed (d : RuleDoc) (rtype src tgt : string) : bool :=
  if negb (rules_loaded d) then true
  else
    let rules := default [] (doc_rules d) in
    let gs := default ∅ (doc_groups d) in
    if rules_loop gs rtype src tgt rules then true
    else negb (existsb (rule_for_type rtype) rules).

(** ** Phase 5: relationships *)

Definition side_label (s : Side) : string :=
  match s with Source => "source" | Target => "target" end.

(** [[e for e in list(root) if localname(e.tag) == lab]]. *)
Definition side_elems (s : Side) (root : Element) : list Element :=
  List.filter (fun e => String.eqb (Xml.localname (Xml.tag e)) (side_label s))
    (Xml.children root).

Definition side_count_errors (s : Side) (root : Element) (p : Path) : list Msg :=
  if negb (length (side_elems s root) =? 1)%nat
  then [RelationshipMissingSingle s p] else [].

Definition side_attr_errors (s : Side) (root : Element) (p : Path) : list Msg :=
  match side_elems s root with
  | [] => []
  | e :: _ =>
      (if Str.falsy_opt (Xml.get e "href") then [RelationshipMissingHref s p] else [])
      ++ (if Str.falsy_opt (Xml.get e XSI_TYPE) then [RelationshipMissingType s p] else [])
  end.

(** The errors of a relationship file before the rules are consulted. *)
Definition relationship_shape_errors (root : Element) (p : Path) : list Msg :=
  side_count_errors Source root p ++ side_count_errors Target root p
  ++ side_attr_errors Source root p ++ side_attr_errors Target root p.

Definition declared_type (e : Element) : string :=
  Str.strip_prefix_colon (Str.or_empty (Xml.get e XSI_TYPE)).

(** The rule-based part; [src_elems[0]] and [tgt_elems[0]] raise
    [IndexError] on an empty list. *)
Definition relationship_rule_check (root : Element) (p : Path) (root_local : string) : M unit :=
  rules <- gets relation_rules ;;
  if rules_loaded rules then
    match side_elems Source root, side_elems Target root with
    | s :: _, t :: _ =>
        if negb (_is_relationship_allowed rules root_local (declared_type s) (declared_type t))
        then modify (fail (RelationshipNotAllowed root_local (declared_type s) (declared_type t) p))
        else ret tt
    | _, _ => raise IndexError
    end
  else ret tt.

Definition check_relationship (item : Path * (string * string)) : M unit :=
  let '(p, (root_local, _)) := item in
  if negb (Str.endswith root_local "Relationship") then ret tt
  else
    r <- gets repo ;;
    match parse_xml r p with
    | ParseFail msg => raise (ValueError msg)
    | ParseOk root =>
        modify (fail_all (relationship_shape_errors root p)) ;;
        relationship_rule_check root p root_local
    end.

Definition check_relationships : M unit :=
  items <- gets file_meta ;;
  for_each check_relationship items.

(** ** Phase 6: diagrams *)

Definition DIAGRAM_OBJECT_KINDS : list string :=
  [ "DiagramModelArchimateObject"; "DiagramModelNote"; "DiagramModelImage";
    "DiagramModelGroup"; "DiagramModelReference" ].

Definition CONNECTION_TYPE : string := "archimate:DiagramModelArchimateConnection".
Definition OBJECT_TYPE : string := "archimate:DiagramModelArchimateObject".

(** The id a descendant contributes to the set [ids], if any. *)
Definition diagram_object_id (child : Element) : option string :=
  match Xml.get child "id" with
  | Some i =>
      if Str.truthy i
         && existsb (String.eqb (Xml.localname (Xml.tag child))) DIAGRAM_OBJECT_KINDS
      then Some i else None
  | None => None
  end.

(** The set [ids] collected from the descendants of a diagram's root. *)
Definition diagram_ids (root : Element) : gset string :=
  list_to_set (omap diagram_object_id (Xml.descendants root)).

Definition has_xsi_type (ty : string) (e : Element) : bool :=
  bool_decide (Xml.get e XSI_TYPE = Some ty).

(** [not sid or sid not in ids]. *)
Definition end_missing (ids : gset string) (id : option string) : bool :=
  match id with
  | Some s => negb (Str.truthy s) || negb (bool_decide (s ∈ ids))
  | None => true
  end.

Definition endpoint_errors (ids : gset string) (conn : Element) (p : Path) : list Msg :=
  (if end_missing ids (Xml.get conn "source")
   then [ConnectionEndNotFound Source (Xml.get conn "source") p] else [])
  ++ (if end_missing ids (Xml.get conn "target")
      then [ConnectionEndNotFound Target (Xml.get conn "target") p] else []).

(** [Validator._diagram_object_element_type]. *)
Definition _diagram_object_element_type (root : Element) (dmo_id : option string)
  : option string :=
  match dmo_id with
  | None => None
  | Some i =>
      if negb (Str.truthy i) then None
      else
        match List.find (fun dmo => bool_decide (Xml.get dmo "id" = Some i)
                                    && has_xsi_type OBJECT_TYPE dmo)
                        (Xml.descendants root) with
        | Some dmo =>
            match Xml.find dmo "archimateElement" with
            | None => None
            | Some el => Some (declared_type el)
            end
        | None => None
        end
  end.

Definition is_rel_child (ch : Element) : bool :=
  String.eqb (Xml.localname (Xml.tag ch)) "archimateRelationship".

(** The errors one [archimateRelationship] child of a connection adds. *)
Definition rel_child_errors (rules : RuleDoc) (root conn : Element) (p : Path)
    (ch : Element) : list Msg :=
  (if Str.falsy_opt (Xml.get ch "href") then [ConnectionMissingRelHref p] else [])
  ++ (if rules_loaded rules then
        let rtype := declared_type ch in
        match _diagram_object_element_type root (Xml.get conn "source"),
              _diagram_object_element_type root (Xml.get conn "target") with
        | Some src_elem_type, Some tgt_elem_type =>
            if Str.truthy rtype && Str.truthy src_elem_type && Str.truthy tgt_elem_type
               && negb (_is_relationship_allowed rules rtype src_elem_type tgt_elem_type)
            then [ConnectionNotAllowed rtype src_elem_type tgt_elem_type p] else []
        | _, _ => []
        end
      else []).

(** The errors of the children loop of a connection: those of each
    [archimateRelationship] child, then the one for [found_rel] left
    false. *)
Definition backing_errors (rules : RuleDoc) (root conn : Element) (p : Path) : list Msg :=
  let rels := List.filter is_rel_child (Xml.children conn) in
  concat (map (rel_child_errors rules root conn p) rels)
  ++ (match rels with [] => [ConnectionMissingRel p] | _ :: _ => [] end).

Definition connection_errors (rules : RuleDoc) (root : Element) (p : Path)
    (conn : Element) : list Msg :=
  endpoint_errors (diagram_ids root) conn p ++ backing_errors rules root conn p.

Definition object_errors (p : Path) (dmo : Element) : list Msg :=
  (match Xml.find dmo "bounds" with None => [ObjectMissingBounds p] | Some _ => [] end)
  ++ (match Xml.find dmo "archimateElement" with
      | None => [ObjectMissingElementHref p]
      | Some ael =>
          if Str.falsy_opt (Xml.get ael "href") then [ObjectMissingElementHref p] else []
      end).

(** All errors of one diagram file, in the order the loops record them. *)
Definition diagram_errors (rules : RuleDoc) (root : Element) (p : Path) : list Msg :=
  concat (map (connection_errors rules root p)
            (List.filter (has_xsi_type CONNECTION_TYPE) (Xml.descendants root)))
  ++ concat (map (object_errors p)
               (List.filter (has_xsi_type OBJECT_TYPE) (Xml.descendants root))).

Definition check_diagram (item : Path * (string * string)) : M unit :=
  let '(p, (root_local, _)) := item in
  if negb (is_diagram_kind root_local) then ret tt
  else
    r <- gets repo ;;
    match parse_xml r p with
    | ParseFail msg => raise (ValueError msg)
    | ParseOk root =>
        modify (fun v => fail_all (diagram_errors (relation_rules v) root p) v)
    end.

Definition check_diagrams : M unit :=
  items <- gets file_meta ;;
  for_each check_diagram items.

(** ** The optional load by the external tool, the report and the run *)

Definition archi_errors (a : option ArchiRun) : list Msg :=
  match a with
  | None => []
  | Some NotExecutable => [ArchiNotExecutable]
  | Some (RunRaised msg) => [ArchiFailedToRun msg]
  | Some (Ran code reports) =>
      (if negb (code =? 0)%Z then [ArchiReturnedCode code] else [])
      ++ (if reports then [ArchiReportedErrors] else [])
  end.

Definition optional_archi_load : M unit :=
  modify (fun v => fail_all (archi_errors (archi_bin v)) v).

(** [Validator._report]: the status it returns. *)
Definition _report : M Z :=
  gets (fun v => match errors v with [] => 0%Z | _ :: _ => 1%Z end).

(** [Validator.run]. *)
Definition run : M Z :=
  check_structure ;;
  es <- gets errors ;;
  match es with
  | _ :: _ => _report ;; ret 1%Z
  | [] =>
      index_files ;;
      check_files_and_ids ;;
      check_hrefs ;;
      check_relationships ;;
      check_diagrams ;;
      optional_archi_load ;;
      _report
  end.

(** What the process ends with: the status [main] returns, or an
    exception nobody caught. *)
Inductive Process :=
  | Exit (code : Z) (v : Validator)
  | Traceback (e : Exn).

(** [main], after the arguments are parsed. *)
Definition main (r : Repo) (archi : option ArchiRun) (strict : bool) : Process :=
  match init r archi strict with
  | inl e => Traceback e
  | inr v =>
      match run v with
      | (Returns code, v') => Exit code v'
      | (Raises e, _) => Traceback e
      end
  end.

(** ** The notions the properties are stated with *)

(** The shape of a reference in words: one path segment without a
    directory separator, then [.xml#], then a fragment that is not empty. *)
Definition HrefShape (href : string) : Prop :=
  exists seg frag : list ascii,
    Str.chars href = seg ++ Str.chars ".xml#" ++ frag
    /\ seg <> [] /\ ~ In Str.slash seg /\ frag <> [].

(** When a rule matches a triple, in the words of the specification.  A
    matcher is a string that is not empty: Python takes the empty string
    for false, as it does a missing key. *)
Section RuleSpec.
Variable gs : gmap string (list string).
Variables rtype src tgt : string.

(** One side matches: exact class, membership in the named group, or the
    group wildcard. *)
Definition SideMatches (cls grp : option string) (actual : string) : Prop :=
  (cls = Some actual /\ actual <> "")
  \/ grp = Some "*"
  \/ (exists g members,
        grp = Some g /\ g <> "" /\ gs !! g = Some members /\ In actual members).

Definition RuleMatches (rule : Rule) : Prop :=
  (relationship rule = Some rtype \/ relationship rule = Some "*")
  /\ (sameClass rule = true -> src = tgt)
  /\ SideMatches (sourceClass rule) (sourceGroup rule) src
  /\ SideMatches (targetClass rule) (targetGroup rule) tgt.

(** A rule exists for this relationship type. *)
Definition RuleForType (rule : Rule) : Prop := relationship rule = Some rtype.

End RuleSpec.

(** What a phase may change: it only adds diagnostics. *)
Record Extends (v v' : Validator) : Prop := mkExtends {
  ext_repo : repo v' = repo v;
  ext_archi : archi_bin v' = archi_bin v;
  ext_strict : strict_ids v' = strict_ids v;
  ext_rules : relation_rules v' = relation_rules v;
  ext_catalog : class_to_folder v' = class_to_folder v;
  ext_errors : exists es, errors v' = errors v ++ es;
  ext_warnings : exists ws, warnings v' = warnings v ++ ws
}.

(** What a phase after indexing may change: diagnostics, not the index. *)
Record SameIndex (v v' : Validator) : Prop := mkSameIndex {
  same_extends : Extends v v';
  same_basenames : basename_to_path v' = basename_to_path v;
  same_file_meta : file_meta v' = file_meta v
}.

(** The index as [index_files] leaves it: every file with metadata
    parses, and every file that a base name leads to and that parses has
    metadata. *)
Record Indexed (v : Validator) : Prop := mkIndexed {
  indexed_parses : forall p meta,
    Dict.get p (file_meta v) = Some meta ->
    exists root, parse_xml (repo v) p = ParseOk root;
  indexed_total : forall nm p root,
    basename_to_path v !! nm = Some p ->
    parse_xml (repo v) p = ParseOk root ->
    is_Some (Dict.get p (file_meta v))
}.

(** A method started in [v] ends as [Q] says when it returns and as [E]
    says when it raises. *)
Definition Ends {A} (m : M A) (v : Validator)
    (Q : A -> Validator -> Prop) (E : Exn -> Validator -> Prop) : Prop :=
  match m v with
  | (Returns a, v') => Q a v'
  | (Raises e, v') => E e v'
  end.

(** A method that never raises. *)
Definition never : Exn -> Validator -> Prop := fun _ _ => False.

(** The one way the relationship phase raises: a rule set is loaded and a
    side is absent, after the error for that side is recorded. *)
Definition index_error (v : Validator) : Exn -> Validator -> Prop :=
  fun e v' =>
    e = IndexError /\ SameIndex v v' /\ errors v' <> []
    /\ rules_loaded (relation_rules v) = true.

(** The structural faults the specification lists: the model directory,
    a folder descriptor or a top-level folder is missing, or a descriptor
    has the wrong root tag. *)
Inductive StructuralFault (r : Repo) : Prop :=
  | NoModelDirectory :
      model_is_dir r = false -> StructuralFault r
  | NoModelDescriptor :
      model_folder_xml r = None -> StructuralFault r
  | NoTopFolder (f : string) :
      In f TOP_FOLDERS -> top_dirs r !! f = None -> StructuralFault r
  | NoFolderDescriptor (f : string) :
      In f TOP_FOLDERS -> top_dirs r !! f = Some None -> StructuralFault r
  | WrongModelRoot (root : Element) :
      model_folder_xml r = Some (ParseOk root) ->
      Xml.localname (Xml.tag root) <> "model" -> StructuralFault r
  | WrongFolderRoot (f : string) (root : Element) :
      In f TOP_FOLDERS -> top_dirs r !! f = Some (Some (ParseOk root)) ->
      Xml.localname (Xml.tag root) <> "Folder" -> StructuralFault r.

(** The phases that follow a sound skeleton. *)
Definition later_phases : M Z :=
  index_files ;;
  check_files_and_ids ;;
  check_hrefs ;;
  check_relationships ;;
  check_diagrams ;;
  optional_archi_load ;;
  _report.

(** ** Sample repositories *)

Module Fixture.

Definition el (t : string) (a : list (string * string)) (c : list Element) : Element :=
  Elem (mkTag None t) a c.
Definition ael (t : string) (a : list (string * string)) (c : list Element) : Element :=
  Elem (mkTag (Some ARCHIMATE_NS) t) a c.

Definition folder_ok : option ParseResult := Some (ParseOk (ael "Folder" [] [])).
Definition tops : gmap string (option ParseResult) :=
  list_to_map (map (fun f => (f, folder_ok)) TOP_FOLDERS).
Definition model_ok : option ParseResult := Some (ParseOk (ael "model" [] [])).

Definition skeleton (es : list FsEntry) (cat : Doc CatalogDoc) (rules : Doc RuleDoc) : Repo :=
  mkRepo true model_ok tops es cat rules.

Definition actor_path : Path := ["Business"; "BusinessActor_id-1.xml"].
Definition actor : Element := ael "BusinessActor" [("id", "id-1")] [].
Definition actor_entry : FsEntry := mkEntry actor_path (ParseOk actor) (Some false).

Definition side (lab ty href : string) : Element :=
  el lab [(XSI_TYPE, ty); ("href", href)] [].

Definition rel_path : Path := ["Relations"; "AssociationRelationship_id-2.xml"].
Definition rel : Element :=
  ael "AssociationRelationship" [("id", "id-2")]
    [ side "source" "archimate:BusinessActor" "BusinessActor_id-1.xml#id-1";
      side "target" "archimate:BusinessActor" "BusinessActor_id-1.xml#id-1" ].
Definition rel_entry : FsEntry := mkEntry rel_path (ParseOk rel) (Some true).

Definition decode_error : string := "Expecting value: line 1 column 1 (char 0)".

Definition repo_ok : Repo := skeleton [actor_entry; rel_entry] DocAbsent DocAbsent.
Definition repo_bad_catalog : Repo :=
  skeleton [actor_entry; rel_entry] (DocMalformed decode_error) DocAbsent.
Definition repo_bad_rules : Repo :=
  skeleton [actor_entry; rel_entry] DocAbsent (DocMalformed decode_error).

(** A relationship file without its source, alone and with a rule set. *)
Definition rel_no_source : Element :=
  ael "AssociationRelationship" [("id", "id-2")]
    [ side "target" "archimate:BusinessActor" "BusinessActor_id-1.xml#id-1" ].
Definition rel_no_source_entry : FsEntry := mkEntry rel_path (ParseOk rel_no_source) (Some false).
Definition rules_empty_list : RuleDoc := mkRuleDoc (Some []) None false.
Definition repo_no_source : Repo :=
  skeleton [actor_entry; rel_no_source_entry] DocAbsent DocAbsent.
Definition repo_no_source_rules : Repo :=
  skeleton [actor_entry; rel_no_source_entry] DocAbsent (DocLoaded rules_empty_list).

(** An element stored under a diagram file name. *)
Definition sketch_path : Path := ["Diagrams"; "SketchModel_id-1.xml"].
Definition sketch_entry : FsEntry := mkEntry sketch_path (ParseOk actor) (Some false).
Definition repo_actor_as_sketch : Repo := skeleton [sketch_entry] DocAbsent DocAbsent.

(** Two diagrams: a connection of the first ends at an object of the second. *)
Definition dobj (id : string) : Element :=
  ael "DiagramModelArchimateObject" [("id", id)] [].
Definition backing (href : string) : Element :=
  el "archimateRelationship" [(XSI_TYPE, "archimate:AssociationRelationship"); ("href", href)] [].
Definition conn (s t : string) (cs : list Element) : Element :=
  el "sourceConnections" [(XSI_TYPE, CONNECTION_TYPE); ("id", "c-1"); ("source", s); ("target", t)] cs.

Definition diagram_a_path : Path := ["Diagrams"; "ArchimateDiagramModel_id-a.xml"].
Definition diagram_b_path : Path := ["Diagrams"; "ArchimateDiagramModel_id-b.xml"].
Definition diagram_a : Element :=
  ael "ArchimateDiagramModel" [("id", "id-a")]
    [ dobj "o-1"; conn "o-1" "o-2" [backing "AssociationRelationship_id-2.xml#id-2"] ].
Definition diagram_b : Element :=
  ael "ArchimateDiagramModel" [("id", "id-b")] [ dobj "o-2" ].
Definition repo_two_diagrams : Repo :=
  skeleton [actor_entry; rel_entry;
            mkEntry diagram_a_path (ParseOk diagram_a) (Some false);
            mkEntry diagram_b_path (ParseOk diagram_b) (Some false)] DocAbsent DocAbsent.

(** A connection with two backing-relationship children. *)
Definition conn_two_backing : Element :=
  conn "o-1" "o-2" [ backing "AssociationRelationship_id-2.xml#id-2";
                     backing "AssociationRelationship_id-2.xml#id-2" ].
Definition diagram_c : Element :=
  ael "ArchimateDiagramModel" [("id", "id-a")] [ dobj "o-1"; dobj "o-2"; conn_two_backing ].
Definition repo_two_backing : Repo :=
  skeleton [actor_entry; rel_entry;
            mkEntry diagram_a_path (ParseOk diagram_c) (Some false)] DocAbsent DocAbsent.

(** A file that does not parse, and a relationship that refers to it. *)
Definition broken_path : Path := ["Business"; "BusinessRole_id-9.xml"].
Definition broken_msg : string := "XML parse error in model/Business/BusinessRole_id-9.xml: syntax error: line 1, column 0".
Definition broken_entry : FsEntry := mkEntry broken_path (ParseFail broken_msg) (Some false).
Definition rel_to_broken : Element :=
  ael "AssociationRelationship" [("id", "id-2")]
    [ side "source" "archimate:BusinessActor" "BusinessActor_id-1.xml#id-1";
      side "target" "archimate:BusinessRole" "BusinessRole_id-9.xml#id-9" ].
Definition repo_broken_target : Repo :=
  skeleton [actor_entry; broken_entry; mkEntry rel_path (ParseOk rel_to_broken) (Some false)]
    DocAbsent DocAbsent.
(** A skeleton without its [Relations] folder. *)
Definition repo_no_relations : Repo :=
  mkRepo true model_ok (delete "Relations" tops) [] DocAbsent DocAbsent.

(** A rule document: associations only between business elements. *)
Definition rules_business : RuleDoc :=
  mkRuleDoc
    (Some [mkRule (Some "AssociationRelationship") false
             None (Some "BusinessElements") None (Some "BusinessElements")])
    (Some {["BusinessElements" := ["BusinessActor"; "BusinessRole"]]})
    false.

(** An association whose source is not a business element, under that
    rule document. *)
Definition rel_from_application : Element :=
  ael "AssociationRelationship" [("id", "id-2")]
    [ side "source" "archimate:ApplicationComponent" "BusinessActor_id-1.xml#id-1";
      side "target" "archimate:BusinessActor" "BusinessActor_id-1.xml#id-1" ].
Definition repo_illegal_association : Repo :=
  skeleton [actor_entry; mkEntry rel_path (ParseOk rel_from_application) (Some false)]
    DocAbsent (DocLoaded rules_business).

(** A relationship whose reference carries the wrong fragment. *)
Definition rel_wrong_fragment : Element :=
  ael "AssociationRelationship" [("id", "id-2")]
    [ side "source" "archimate:BusinessActor" "BusinessActor_id-1.xml#id-1";
      side "target" "archimate:BusinessActor" "BusinessActor_id-1.xml#id-7" ].
Definition repo_wrong_fragment : Repo :=
  skeleton [actor_entry; mkEntry rel_path (ParseOk rel_wrong_fragment) (Some false)]
    DocAbsent DocAbsent.

(** The validator [Validator(repo, None, False)] builds when neither
    optional document is present. *)
Definition fresh (r : Repo) : Validator :=
  mkValidator r None false [] [] ∅ ∅ ∅ ∅ empty_rules ∅ ∅ [].

End Fixture.

(** ** Notions for the further properties *)

(** A file name read as [<token>_<rest>.xml]: a token of letters, digits
    and underscores, and a rest without a newline, neither empty. *)
Definition FilenameSplit (base : string) (cls fid : list ascii) : Prop :=
  Str.chars base = cls ++ Str.underscore :: fid ++ Str.chars ".xml"
  /\ cls <> [] /\ Forall (fun c => Str.is_word c = true) cls
  /\ fid <> [] /\ ~ In Str.newline fid.

(** A reference read as [<segment>.xml#<fragment>]: a segment without a
    directory separator, a fragment without a newline, neither empty. *)
Definition HrefSplit (href : string) (seg frag : list ascii) : Prop :=
  Str.chars href = seg ++ Str.chars ".xml#" ++ frag
  /\ seg <> [] /\ ~ In Str.slash seg
  /\ frag <> [] /\ ~ In Str.newline frag.

(** What indexing one listed file can report: the file does not parse, or
    its root has no identifier or an empty one. *)
Definition IndexingFault (r : Repo) (p : Path) (m : Msg) : Prop :=
  name p <> "folder.xml"
  /\ ((exists msg, parse_xml r p = ParseFail msg /\ m = ParseFailure msg)
      \/ (exists root, parse_xml r p = ParseOk root
                       /\ Str.falsy_opt (Xml.get root "id") = true
                       /\ m = MissingIdOnRoot p)).

(** The metadata [index_files] stores for a parsed root. *)
Definition meta_of (root : Element) : string * string :=
  (Xml.localname (Xml.tag root), Str.or_empty (Xml.get root "id")).

(** Every entry of the table stands for a listed file that parses, with
    the metadata of its root. *)
Definition Listed (v : Validator) : Prop :=
  forall p meta,
    In (p, meta) (file_meta v) ->
    In p (rglob (repo v)) /\ name p <> "folder.xml"
    /\ exists root, parse_xml (repo v) p = ParseOk root /\ meta = meta_of root.

(** Induction on an element with its children taken care of. *)
Fixpoint Element_ind' (P : Element -> Prop)
    (H : forall t a cs, Forall P cs -> P (Elem t a cs)) (e : Element) : P e :=
  match e with
  | Elem t a cs =>
      H t a cs
        ((fix go (l : list Element) : Forall P l :=
            match l with
            | [] => @List.Forall_nil Element P
            | x :: l' => @List.Forall_cons Element P x l' (Element_ind' P H x) (go l')
            end) cs)
  end.

(** A skeleton whose folder descriptors are all in place and pass the
    tests of [check_structure]; for the model descriptor the test on the
    namespace is the one of the code, [tag_head]. *)
Definition SoundSkeleton (r : Repo) : Prop :=
  model_is_dir r = true
  /\ (exists root,
        model_folder_xml r = Some (ParseOk root)
        /\ Xml.localname (Xml.tag root) = "model"
        /\ Xml.tag_head (Xml.tag root) = ARCHIMATE_NS)
  /\ forall f, In f TOP_FOLDERS ->
       exists root,
         top_dirs r !! f = Some (Some (ParseOk root))
         /\ Xml.localname (Xml.tag root) = "Folder".

(** Further sample data. *)
Module Sample.

(** A diagram as the modelling tool writes it: the objects are [children]
    elements told apart by their [xsi:type]. *)
Definition child_object (id : string) (cs : list Element) : Element :=
  Fixture.el "children" [(XSI_TYPE, OBJECT_TYPE); ("id", id)]
    (Fixture.el "bounds" [("x", "0")] []
     :: Fixture.el "archimateElement"
          [(XSI_TYPE, "archimate:BusinessActor"); ("href", "BusinessActor_id-1.xml#id-1")] []
     :: cs).
Definition tool_diagram : Element :=
  Fixture.ael "ArchimateDiagramModel" [("id", "id-a")]
    [ child_object "o-1"
        [Fixture.conn "o-1" "o-2" [Fixture.backing "AssociationRelationship_id-2.xml#id-2"]];
      child_object "o-2" [] ].

(** The validator of the sample with a rule set and a relationship that
    lacks its source. *)
Definition fresh_no_source_rules : Validator :=
  mkValidator Fixture.repo_no_source_rules None false [] [] ∅ ∅ ∅ ∅
    Fixture.rules_empty_list ∅ ∅ [].

(** A catalog with one class of each kind and an entry without a folder. *)
Definition catalog_small : CatalogDoc :=
  mkCatalogDoc
    (Some [mkCatalogEntry (Some "BusinessActor") (Some "Business");
           mkCatalogEntry (Some "Orphan") None])
    (Some [mkCatalogEntry (Some "AssociationRelationship") (Some "Relations")])
    (Some [mkCatalogEntry (Some "ArchimateDiagramModel") (Some "Diagrams")]).
Definition repo_with_catalog : Repo :=
  Fixture.skeleton [Fixture.actor_entry; Fixture.rel_entry]
    (DocLoaded catalog_small) DocAbsent.

(** Two rules on associations, and a rule set whose only rule asks for
    the same type at both ends. *)
Definition rule_actor_to_role : Rule :=
  mkRule (Some "AssociationRelationship") false
    (Some "BusinessActor") None (Some "BusinessRole") None.
Definition rule_any_business : Rule :=
  mkRule (Some "*") false None (Some "BusinessElements") None (Some "*").
Definition rules_same_class : RuleDoc :=
  mkRuleDoc
    (Some [mkRule (Some "SpecializationRelationship") true None (Some "*") None (Some "*")])
    None false.

End Sample.

(** ** Notions for the phases over the whole index *)

(** What one reference found in file [p] adds to the errors: the errors
    [check_href] records when it starts from none. *)
Definition href_errors (v : Validator) (p : Path) (href : string) : list Msg :=
  errors (check_href p href (set_errors v [])).

(** What the references of one file add: a file that does not parse is
    skipped ([continue]). *)
Definition file_href_errors (v : Validator) (p : Path) : list Msg :=
  match parse_xml (repo v) p with
  | ParseFail _ => []
  | ParseOk root => concat (map (href_errors v p) (hrefs root))
  end.

(** A diagram file of the index, with the root it parses to. *)
Definition DiagramFile (v : Validator) (p : Path) (root : Element) : Prop :=
  exists kind rid,
    In (p, (kind, rid)) (file_meta v)
    /\ is_diagram_kind kind = true
    /\ parse_xml (repo v) p = ParseOk root.

(** A connection of a diagram: a descendant of the root with the
    connection type. *)
Definition Connection (root conn : Element) : Prop :=
  In conn (Xml.descendants root) /\ has_xsi_type CONNECTION_TYPE conn = true.

(** The messages the diagram phase has for file [p]; none of them is
    about the number of backing relationships of a connection. *)
Definition DiagramMessage (rules : RuleDoc) (p : Path) (m : Msg) : Prop :=
  (exists s id, m = ConnectionEndNotFound s id p)
  \/ m = ConnectionMissingRel p
  \/ m = ConnectionMissingRelHref p
  \/ (rules_loaded rules = true /\ exists rtype s t, m = ConnectionNotAllowed rtype s t p)
  \/ m = ObjectMissingBounds p
  \/ m = ObjectMissingElementHref p.

(** Further repositories. *)
Module Cases.
Import Fixture.


(** A relationship without its source next to a diagram with a dangling
    end, checked with a tool that cannot be executed. *)
Definition entries_cut_short : list FsEntry :=
  [ actor_entry; rel_no_source_entry;
    mkEntry diagram_a_path (ParseOk diagram_a) (Some false) ].
Definition repo_cut_short : Repo :=
  skeleton entries_cut_short DocAbsent (DocLoaded rules_empty_list).
Definition repo_not_cut_short : Repo :=
  skeleton entries_cut_short DocAbsent DocAbsent.
Definition validator_cut_short : Validator :=
  mkValidator repo_cut_short (Some NotExecutable) false [] [] ∅ ∅ ∅ ∅
    rules_empty_list ∅ ∅ [].

(** Two files with one base name: the first does not parse, the second,
    listed later, does. *)
Definition role_path : Path := ["Business"; "Roles"; "BusinessRole_id-9.xml"].
Definition role : Element := ael "BusinessRole" [("id", "id-9")] [].
Definition repo_duplicate_name : Repo :=
  skeleton [ actor_entry; broken_entry; mkEntry role_path (ParseOk role) (Some false);
             mkEntry rel_path (ParseOk rel_to_broken) (Some false) ]
    DocAbsent DocAbsent.

End Cases.

(** * Properties *)

(** ** Strings and the regular expressions *)

Module StrFacts.
Import Str Re.

Lemma ascii_eqb_eq (a b : ascii) : ascii_eqb a b = true <-> a = b.
Proof. unfold ascii_eqb. apply Ascii.eqb_eq. Qed.

Lemma ascii_eqb_refl (a : ascii) : ascii_eqb a a = true.
Proof. apply ascii_eqb_eq. reflexivity. Qed.

Lemma eqb_chars_eq (a b : list ascii) : eqb_chars a b = true <-> a = b.
Proof.
  revert b. induction a as [|x a IH]; intros [|y b]; simpl; try (split; congruence).
  rewrite andb_true_iff, ascii_eqb_eq, IH. split.
  - intros [-> ->]. reflexivity.
  - intros [= -> ->]. split; reflexivity.
Qed.

Lemma starts_with_app (p l : list ascii) :
  starts_with p l = true <-> l = p ++ drop (length p) l.
Proof.
  revert l. induction p as [|x p IH]; intros l; simpl.
  - rewrite drop_0. split; auto.
  - destruct l as [|y l]; simpl; [split; congruence|].
    rewrite andb_true_iff, ascii_eqb_eq, IH. split.
    + intros [-> H]. f_equal. exact H.
    + intros [= -> H]. split; [reflexivity | exact H].
Qed.

Lemma ends_with_app (suf l : list ascii) :
  ends_with suf l = true -> l = take (length l - length suf) l ++ suf.
Proof.
  unfold ends_with. rewrite andb_true_iff, eqb_chars_eq. intros [_ H].
  symmetry. etransitivity; [|apply (take_drop (length l - length suf) l)].
  f_equal. symmetry. exact H.
Qed.

Lemma mem_false_not_in (c : ascii) (l : list ascii) : mem c l = false <-> ~ In c l.
Proof.
  unfold mem. induction l as [|x l IH]; simpl.
  - split; [intros _ []| reflexivity].
  - rewrite orb_false_iff, IH. split.
    + intros [H1 H2] [->|H3]; [|tauto].
      rewrite ascii_eqb_refl in H1. discriminate.
    + intros H. split; [|tauto].
      destruct (ascii_eqb c x) eqn:E; [|reflexivity].
      apply ascii_eqb_eq in E. subst. tauto.
Qed.

(** What [$] does to the subject: nothing, or one final newline goes. *)
Lemma strip_final_newline_cases (l : list ascii) :
  l = strip_final_newline l \/ l = strip_final_newline l ++ [newline].
Proof.
  unfold strip_final_newline.
  destruct (reverse l) as [|c r] eqn:E; [left; reflexivity|].
  destruct (ascii_eqb c newline) eqn:Ec; [|left; reflexivity].
  right. apply ascii_eqb_eq in Ec. subst c.
  rewrite <- (reverse_involutive l), E, reverse_cons. reflexivity.
Qed.

Lemma dot_plus_end_sound (l g : list ascii) :
  dot_plus_end l = Some g ->
  g <> [] /\ ~ In newline g /\ (l = g \/ l = g ++ [newline]).
Proof.
  unfold dot_plus_end. intros H.
  pose proof (strip_final_newline_cases l) as Hc.
  destruct (strip_final_newline l) as [|c t] eqn:E; [discriminate|].
  destruct (mem newline (c :: t)) eqn:Em; [discriminate|].
  injection H as <-. split; [discriminate|]. split; [|exact Hc].
  apply mem_false_not_in. exact Em.
Qed.

Lemma dot_plus_xml_end_sound (l g : list ascii) :
  dot_plus_xml_end l = Some g ->
  g <> [] /\ ~ In newline g /\ (l = g ++ dot_xml \/ l = g ++ dot_xml ++ [newline]).
Proof.
  unfold dot_plus_xml_end. intros H.
  pose proof (strip_final_newline_cases l) as Hc.
  destruct (ends_with dot_xml (strip_final_newline l)) eqn:Ee; [|discriminate].
  apply ends_with_app in Ee. change (length dot_xml) with 4 in Ee.
  destruct (take (length (strip_final_newline l) - 4) (strip_final_newline l))
    as [|c t] eqn:Et; [discriminate|].
  destruct (mem newline (c :: t)) eqn:Em; [discriminate|].
  injection H as <-. split; [discriminate|]. split.
  - apply mem_false_not_in. exact Em.
  - rewrite Ee in Hc. destruct Hc as [Hc|Hc]; [left; exact Hc|].
    right. rewrite Hc, <- app_assoc. reflexivity.
Qed.

Lemma span_length_take (p : ascii -> bool) (l : list ascii) (n : nat) :
  n <= span_length p l -> length (take n l) = n /\ Forall (fun c => p c = true) (take n l).
Proof.
  revert n. induction l as [|c l IH]; intros n Hn; simpl in Hn.
  - assert (n = 0) by lia. subst. split; [reflexivity | constructor].
  - destruct n as [|n]; [split; [reflexivity | constructor]|].
    destruct (p c) eqn:Ep; [|lia].
    destruct (IH n ltac:(lia)) as [H1 H2]. simpl. split; [lia|].
    constructor; assumption.
Qed.

Lemma href_backtrack_S (l : list ascii) (m : nat) :
  href_backtrack l (S m) =
    if starts_with dot_xml_hash (drop (S m) l) then
      match dot_plus_end (drop 5 (drop (S m) l)) with
      | Some frag => Some (take (S m + 4) l, frag)
      | None => href_backtrack l m
      end
    else href_backtrack l m.
Proof. reflexivity. Qed.

(** What a match of the reference pattern says about the subject. *)
Lemma href_backtrack_sound (l : list ascii) (n : nat) (fname frag : list ascii) :
  href_backtrack l n = Some (fname, frag) ->
  exists m, 1 <= m <= n
    /\ fname = take m l ++ dot_xml
    /\ l = take m l ++ dot_xml_hash ++ drop (m + 5) l
    /\ dot_plus_end (drop (m + 5) l) = Some frag.
Proof.
  induction n as [|n IH]; [discriminate|].
  rewrite href_backtrack_S. intros H.
  destruct (starts_with dot_xml_hash (drop (S n) l)) eqn:Es.
  - destruct (dot_plus_end (drop 5 (drop (S n) l))) as [g|] eqn:Ed.
    + injection H as <- <-. exists (S n).
      apply starts_with_app in Es. change (length dot_xml_hash) with 5 in Es.
      split; [lia|]. split; [|split].
      * change (S (n + 4)) with (S n + 4).
        rewrite <- (take_take_drop l (S n) 4). rewrite Es. reflexivity.
      * rewrite <- (take_drop (S n) l) at 1. rewrite Es, drop_drop. reflexivity.
      * rewrite drop_drop in Ed. exact Ed.
    + destruct (IH H) as (m & Hm & Hrest). exists m. split; [lia | exact Hrest].
  - destruct (IH H) as (m & Hm & Hrest). exists m. split; [lia | exact Hrest].
Qed.

End StrFacts.

Module ReFacts.
Import Str Re StrFacts.

Lemma chars_of_chars (l : list ascii) : chars (of_chars l) = l.
Proof. apply list_ascii_of_string_of_list_ascii. Qed.

Lemma of_chars_chars (s : string) : of_chars (chars s) = s.
Proof. apply string_of_list_ascii_of_string. Qed.

Lemma truthy_chars (s : string) : truthy s = true <-> chars s <> [].
Proof. destruct s; simpl; split; congruence. Qed.



Lemma filename_backtrack_S (l : list ascii) (m : nat) :
  filename_backtrack l (S m) =
    match drop (S m) l with
    | c :: rest =>
        if ascii_eqb c underscore then
          match dot_plus_xml_end rest with
          | Some fid => Some (take (S m) l, fid)
          | None => filename_backtrack l m
          end
        else filename_backtrack l m
    | [] => filename_backtrack l m
    end.
Proof. reflexivity. Qed.

Lemma filename_backtrack_sound (l : list ascii) (n : nat) (cls fid : list ascii) :
  filename_backtrack l n = Some (cls, fid) ->
  exists m rest, 1 <= m <= n
    /\ cls = take m l
    /\ l = take m l ++ underscore :: rest
    /\ dot_plus_xml_end rest = Some fid.
Proof.
  induction n as [|n IH]; [discriminate|].
  rewrite filename_backtrack_S. intros H.
  assert (Hback : filename_backtrack l n = Some (cls, fid) ->
                  exists m rest, 1 <= m <= S n /\ cls = take m l
                    /\ l = take m l ++ underscore :: rest
                    /\ dot_plus_xml_end rest = Some fid).
  { intros H'. destruct (IH H') as (m & rest & Hm & Hr).
    exists m, rest. split; [lia | exact Hr]. }
  destruct (drop (S n) l) as [|c rest] eqn:Ed; [auto|].
  destruct (ascii_eqb c underscore) eqn:Ec; [|auto].
  destruct (dot_plus_xml_end rest) as [g|] eqn:Eg; [|auto].
  injection H as <- <-. apply ascii_eqb_eq in Ec. subst c.
  exists (S n), rest. split; [lia|]. split; [reflexivity|]. split; [|exact Eg].
  rewrite <- Ed. symmetry. apply take_drop.
Qed.

(** A matching file name reads [<token>_<rest>.xml]: a token of letters,
    digits and underscores, an underscore, and an identifier that is not
    empty (the pattern's [$] also accepts one final newline). *)
Lemma FILENAME_RE_sound (base cls fid : string) :
  FILENAME_RE base = Some (cls, fid) ->
  exists tail,
    chars base = chars cls ++ underscore :: chars fid ++ chars ".xml" ++ tail
    /\ (tail = [] \/ tail = [newline])
    /\ chars cls <> [] /\ Forall (fun c => is_word c = true) (chars cls)
    /\ chars fid <> [].
Proof.
  unfold FILENAME_RE.
  destruct (filename_backtrack _ _) as [[c g]|] eqn:E; [|discriminate].
  intros [= <- <-].
  destruct (filename_backtrack_sound _ _ _ _ E) as (m & rest & Hm & Hc & Hl & Hd).
  destruct (span_length_take _ _ _ (proj2 Hm)) as [Hlen Hall].
  destruct (dot_plus_xml_end_sound _ _ Hd) as (Hg & _ & Hrest).
  rewrite !chars_of_chars. subst c.
  assert (Hne : take m (chars base) <> []).
  { intros Hnil. rewrite Hnil in Hlen. simpl in Hlen. lia. }
  destruct Hrest as [->| ->].
  - exists []. rewrite app_nil_r. repeat split; auto.
  - exists [newline]. repeat split; auto.
Qed.

End ReFacts.

(** ** The rule engine *)

Module RuleFacts.

Lemma truthy_ne (s : string) : Str.truthy s = true <-> s <> "".
Proof. destruct s; simpl; split; congruence. Qed.

Lemma in_group_spec (gs : gmap string (list string)) (g cls : string) :
  in_group gs g cls = true <-> exists members, gs !! g = Some members /\ In cls members.
Proof.
  unfold in_group. rewrite bool_decide_eq_true. split.
  - intros H. destruct (gs !! g) as [ms|] eqn:E; simpl in H.
    + exists ms. split; [reflexivity|]. apply list_elem_of_In. exact H.
    + apply elem_of_nil in H. contradiction.
  - intros (ms & -> & H). simpl. apply list_elem_of_In. exact H.
Qed.

Lemma match_side_spec (gs : gmap string (list string)) (cls grp : option string)
    (actual : string) :
  match_side gs cls grp actual = true <-> SideMatches gs cls grp actual.
Proof.
  unfold match_side, SideMatches. rewrite orb_true_iff. split.
  - intros [H|H].
    + destruct cls as [c|]; [|discriminate].
      apply andb_true_iff in H. destruct H as [Ht He].
      apply String.eqb_eq in He. subst c. left. split; [reflexivity|].
      apply truthy_ne. exact Ht.
    + destruct grp as [g|]; [|discriminate].
      apply andb_true_iff in H. destruct H as [Ht H].
      apply orb_true_iff in H. destruct H as [H|H].
      * apply String.eqb_eq in H. subst g. right. left. reflexivity.
      * apply in_group_spec in H. destruct H as (ms & Hg & Hin).
        right. right. exists g, ms. repeat split; auto. apply truthy_ne. exact Ht.
  - intros [[-> Hne]|[->|(g & ms & -> & Hne & Hg & Hin)]].
    + left. apply andb_true_iff. split; [apply truthy_ne; exact Hne|].
      apply String.eqb_refl.
    + right. reflexivity.
    + right. apply andb_true_iff. split; [apply truthy_ne; exact Hne|].
      apply orb_true_iff. right. apply in_group_spec. exists ms. auto.
Qed.

Lemma rule_allows_spec (gs : gmap string (list string)) (rtype src tgt : string)
    (rule : Rule) :
  rule_allows gs rtype src tgt rule = true <-> RuleMatches gs rtype src tgt rule.
Proof.
  unfold rule_allows, RuleMatches, relationship_covers.
  rewrite <- !match_side_spec. split.
  - intros H. destruct (relationship rule) as [r|]; [|discriminate].
    destruct (String.eqb r rtype || String.eqb r "*") eqn:Er; [|discriminate].
    simpl in H.
    destruct (sameClass rule && negb (String.eqb src tgt)) eqn:Es; [discriminate|].
    apply andb_true_iff in H. destruct H as [H1 H2].
    split; [|split; [|split; assumption]].
    + apply orb_true_iff in Er. destruct Er as [E|E]; apply String.eqb_eq in E; subst; auto.
    + intros Hs. rewrite Hs in Es. simpl in Es.
      apply negb_false_iff in Es. apply String.eqb_eq. exact Es.
  - intros (Hr & Hs & H1 & H2).
    assert (Ec : match relationship rule with
                 | Some r => String.eqb r rtype || String.eqb r "*"
                 | None => false
                 end = true).
    { destruct Hr as [-> | ->].
      - rewrite String.eqb_refl. reflexivity.
      - rewrite (String.eqb_refl "*"). apply orb_true_r. }
    rewrite Ec. simpl.
    assert (Esc : sameClass rule && negb (String.eqb src tgt) = false).
    { destruct (sameClass rule); [|reflexivity].
      rewrite (Hs eq_refl), String.eqb_refl. reflexivity. }
    rewrite Esc, H1, H2. reflexivity.
Qed.

(** The loop succeeds exactly when some rule matches; the first one that
    does ends it. *)
Lemma rules_loop_first (gs : gmap string (list string)) (rtype src tgt : string)
    (rules : list Rule) :
  rules_loop gs rtype src tgt rules = true <->
  exists pre rule post,
    rules = pre ++ rule :: post
    /\ Forall (fun r => ~ RuleMatches gs rtype src tgt r) pre
    /\ RuleMatches gs rtype src tgt rule.
Proof.
  induction rules as [|r rs IH]; simpl.
  - split; [discriminate|]. intros (pre & rule & post & H & _).
    destruct pre; discriminate.
  - destruct (rule_allows gs rtype src tgt r) eqn:E.
    + split; [|reflexivity]. intros _. exists [], r, rs.
      split; [reflexivity|]. split; [constructor|]. apply rule_allows_spec. exact E.
    + rewrite IH. split.
      * intros (pre & rule & post & -> & Hpre & Hm).
        exists (r :: pre), rule, post. split; [reflexivity|]. split; [|exact Hm].
        constructor; [|exact Hpre]. intros Hr. apply rule_allows_spec in Hr. congruence.
      * intros (pre & rule & post & Heq & Hpre & Hm).
        destruct pre as [|x pre]; simpl in Heq; injection Heq as H1 H2; subst.
        -- apply rule_allows_spec in Hm. congruence.
        -- exists pre, rule, post. split; [reflexivity|].
           split; [|exact Hm]. inversion Hpre; assumption.
Qed.

Lemma rules_loop_none (gs : gmap string (list string)) (rtype src tgt : string)
    (rules : list Rule) :
  (forall rule, In rule rules -> ~ RuleMatches gs rtype src tgt rule) ->
  rules_loop gs rtype src tgt rules = false.
Proof.
  intros Hnone. destruct (rules_loop gs rtype src tgt rules) eqn:E; [|reflexivity].
  apply rules_loop_first in E. destruct E as (pre & rule & post & Heq & _ & Hm).
  exfalso. apply (Hnone rule); [|exact Hm].
  rewrite Heq. apply in_or_app. right. left. reflexivity.
Qed.

Lemma rule_for_type_spec (rtype : string) (rules : list Rule) :
  existsb (rule_for_type rtype) rules = true <->
  exists rule, In rule rules /\ RuleForType rtype rule.
Proof.
  rewrite existsb_exists. unfold rule_for_type, RuleForType.
  split; intros (r & Hin & H); exists r; split; auto.
  - destruct (relationship r) as [x|]; [|discriminate].
    apply String.eqb_eq in H. subst. reflexivity.
  - rewrite H. apply String.eqb_refl.
Qed.

End RuleFacts.

(** C3: over a loaded rule set, the rules are tried in the order listed
    and the first rule that matches the triple (its relationship field is
    the triple's type or the wildcard, its same-type constraint holds when
    set, both sides match by exact class, group membership or the group
    wildcard) makes the triple allowed, whatever follows it; when no rule
    matches, the triple is illegal if some rule exists for its
    relationship type and legal if none does. *)
Theorem C3_rule_evaluation (d : RuleDoc) (rtype src tgt : string) :
  rules_loaded d = true ->
  let rules := default [] (doc_rules d) in
  let gs := default ∅ (doc_groups d) in
  (forall pre rule post,
      rules = pre ++ rule :: post ->
      Forall (fun r => ~ RuleMatches gs rtype src tgt r) pre ->
      RuleMatches gs rtype src tgt rule ->
      _is_relationship_allowed d rtype src tgt = true)
  /\ ((forall rule, In rule rules -> ~ RuleMatches gs rtype src tgt rule) ->
      (exists rule, In rule rules /\ RuleForType rtype rule) ->
      _is_relationship_allowed d rtype src tgt = false)
  /\ ((forall rule, In rule rules -> ~ RuleMatches gs rtype src tgt rule) ->
      (forall rule, In rule rules -> ~ RuleForType rtype rule) ->
      _is_relationship_allowed d rtype src tgt = true).
Proof.
  intros Hl rules gs. unfold _is_relationship_allowed. rewrite Hl. simpl.
  fold rules. fold gs. split; [|split].
  - intros pre rule post Heq Hpre Hm.
    assert (E : rules_loop gs rtype src tgt rules = true).
    { apply RuleFacts.rules_loop_first. exists pre, rule, post. auto. }
    rewrite E. reflexivity.
  - intros Hnone Hex. rewrite (RuleFacts.rules_loop_none _ _ _ _ _ Hnone).
    apply RuleFacts.rule_for_type_spec in Hex. rewrite Hex. reflexivity.
  - intros Hnone Hno. rewrite (RuleFacts.rules_loop_none _ _ _ _ _ Hnone).
    destruct (existsb (rule_for_type rtype) rules) eqn:E; [|reflexivity].
    apply RuleFacts.rule_for_type_spec in E. destruct E as (r & Hin & Hr).
    exfalso. exact (Hno r Hin Hr).
Qed.

(** ** Dictionaries, frames and the logic of the phases *)

Module DictFacts.

Lemma get_set_eq {V} (k : Path) (x : V) (d : list (Path * V)) :
  Dict.get k (Dict.set k x d) = Some x.
Proof.
  induction d as [|[k' y] d IH]; simpl.
  - rewrite bool_decide_eq_true_2; reflexivity.
  - destruct (bool_decide (k' = k)) eqn:E; simpl; rewrite E; [reflexivity | exact IH].
Qed.

Lemma get_set_ne {V} (k k' : Path) (x : V) (d : list (Path * V)) :
  k <> k' -> Dict.get k' (Dict.set k x d) = Dict.get k' d.
Proof.
  intros Hne. induction d as [|[k0 y] d IH]; simpl.
  - rewrite bool_decide_eq_false_2; [reflexivity | exact Hne].
  - destruct (bool_decide (k0 = k)) eqn:E; simpl.
    + apply bool_decide_eq_true in E. subst k0.
      rewrite bool_decide_eq_false_2; [reflexivity | exact Hne].
    + destruct (bool_decide (k0 = k')); [reflexivity | exact IH].
Qed.

Lemma get_set_is_Some {V} (k k' : Path) (x : V) (d : list (Path * V)) :
  is_Some (Dict.get k' d) -> is_Some (Dict.get k' (Dict.set k x d)).
Proof.
  intros H. destruct (decide (k = k')) as [->|Hne].
  - rewrite get_set_eq. eauto.
  - rewrite get_set_ne; assumption.
Qed.

Lemma get_set_Some {V} (k k' : Path) (x y : V) (d : list (Path * V)) :
  Dict.get k' (Dict.set k x d) = Some y -> k' = k \/ Dict.get k' d = Some y.
Proof.
  destruct (decide (k = k')) as [->|Hne]; [left; reflexivity|].
  rewrite get_set_ne; auto.
Qed.

Lemma get_In {V} (k : Path) (x : V) (d : list (Path * V)) :
  Dict.get k d = Some x -> In (k, x) d.
Proof.
  induction d as [|[k' y] d IH]; simpl; [discriminate|].
  destruct (bool_decide (k' = k)) eqn:E.
  - apply bool_decide_eq_true in E. intros [= ->]. subst. left. reflexivity.
  - intros H. right. exact (IH H).
Qed.

Lemma In_get {V} (k : Path) (x : V) (d : list (Path * V)) :
  In (k, x) d -> is_Some (Dict.get k d).
Proof.
  induction d as [|[k' y] d IH]; simpl; [intros []|].
  intros [H|H]; destruct (bool_decide (k' = k)) eqn:E; eauto.
  injection H as -> ->. rewrite bool_decide_eq_true_2 in E; [discriminate | reflexivity].
Qed.

End DictFacts.

Module Frame.

Lemma extends_refl (v : Validator) : Extends v v.
Proof. split; try reflexivity; exists []; rewrite app_nil_r; reflexivity. Qed.

Lemma extends_trans (a b c : Validator) : Extends a b -> Extends b c -> Extends a c.
Proof.
  intros [H1 H2 H3 H4 H5 [e1 H6] [w1 H7]] [G1 G2 G3 G4 G5 [e2 G6] [w2 G7]].
  split; try congruence.
  - exists (e1 ++ e2). rewrite G6, H6, app_assoc. reflexivity.
  - exists (w1 ++ w2). rewrite G7, H7, app_assoc. reflexivity.
Qed.

Lemma same_refl (v : Validator) : SameIndex v v.
Proof. split; [apply extends_refl | reflexivity | reflexivity]. Qed.

Lemma same_trans (a b c : Validator) : SameIndex a b -> SameIndex b c -> SameIndex a c.
Proof.
  intros [H1 H2 H3] [G1 G2 G3].
  split; [exact (extends_trans _ _ _ H1 G1) | congruence | congruence].
Qed.

Lemma extends_fail_all (v : Validator) (es : list Msg) : Extends v (fail_all es v).
Proof. split; try reflexivity; [exists es | exists []; rewrite app_nil_r]; reflexivity. Qed.

Lemma same_fail_all (v : Validator) (es : list Msg) : SameIndex v (fail_all es v).
Proof. split; [apply extends_fail_all | reflexivity | reflexivity]. Qed.

Lemma same_fail (v : Validator) (msg : Msg) : SameIndex v (fail msg v).
Proof. apply (same_fail_all v [msg]). Qed.

Lemma same_indexed (v v' : Validator) : SameIndex v v' -> Indexed v -> Indexed v'.
Proof.
  intros [[Hr _ _ _ _ _ _] Hb Hf] [H1 H2]. split.
  - intros p meta. rewrite Hf, Hr. apply H1.
  - intros nm p root. rewrite Hb, Hf, Hr. apply H2.
Qed.

Lemma fail_all_nil (v : Validator) : fail_all [] v = v.
Proof. destruct v. unfold fail_all, set_errors. simpl. rewrite app_nil_r. reflexivity. Qed.

Lemma errors_nonempty_extends (v v' : Validator) :
  Extends v v' -> errors v <> [] -> errors v' <> [].
Proof.
  intros [_ _ _ _ _ [es He] _] Hne. rewrite He. intros H.
  apply app_eq_nil in H. destruct H. contradiction.
Qed.

End Frame.

Module Logic.

Lemma ends_bind {A B} (m : M A) (k : A -> M B) (v : Validator)
    (Q' : A -> Validator -> Prop) (Q : B -> Validator -> Prop)
    (E : Exn -> Validator -> Prop) :
  Ends m v Q' E ->
  (forall a v', Q' a v' -> Ends (k a) v' Q E) ->
  Ends (bind m k) v Q E.
Proof.
  unfold Ends, bind. intros Hm Hk.
  destruct (m v) as [[a|e] v']; [apply Hk; exact Hm | exact Hm].
Qed.

Lemma ends_weaken {A} (m : M A) (v : Validator)
    (Q Q' : A -> Validator -> Prop) (E E' : Exn -> Validator -> Prop) :
  Ends m v Q E ->
  (forall a v', Q a v' -> Q' a v') ->
  (forall e v', E e v' -> E' e v') ->
  Ends m v Q' E'.
Proof.
  unfold Ends. intros Hm HQ HE.
  destruct (m v) as [[a|e] v']; [apply HQ | apply HE]; exact Hm.
Qed.

Lemma ends_modify (f : Validator -> Validator) (v : Validator)
    (Q : unit -> Validator -> Prop) (E : Exn -> Validator -> Prop) :
  Q tt (f v) -> Ends (modify f) v Q E.
Proof. intros H. exact H. Qed.

Lemma ends_gets {A} (f : Validator -> A) (v : Validator)
    (Q : A -> Validator -> Prop) (E : Exn -> Validator -> Prop) :
  Q (f v) v -> Ends (gets f) v Q E.
Proof. intros H. exact H. Qed.

Lemma ends_ret {A} (a : A) (v : Validator)
    (Q : A -> Validator -> Prop) (E : Exn -> Validator -> Prop) :
  Q a v -> Ends (ret a) v Q E.
Proof. intros H. exact H. Qed.

(** A loop keeps an invariant that each turn keeps. *)
Lemma ends_for_each {A} (body : A -> M unit) (l : list A)
    (I : Validator -> Prop) (E : Exn -> Validator -> Prop) :
  (forall x v, In x l -> I v -> Ends (body x) v (fun _ => I) E) ->
  forall v, I v -> Ends (for_each body l) v (fun _ => I) E.
Proof.
  induction l as [|x l IH]; intros Hbody v Hv; simpl.
  - exact Hv.
  - apply ends_bind with (Q' := fun _ => I).
    + apply Hbody; [left; reflexivity | exact Hv].
    + intros _ v' Hv'. apply IH; [|exact Hv'].
      intros y w Hy. apply Hbody. right. exact Hy.
Qed.

End Logic.

(** ** The phases one by one *)

Module Phases.
Import Frame Logic.

Lemma initial_indexed (v : Validator) :
  file_meta v = [] -> basename_to_path v = ∅ -> Indexed v.
Proof.
  intros Hf Hb. split.
  - intros p meta. rewrite Hf. discriminate.
  - intros nm p root. rewrite Hb, lookup_empty. discriminate.
Qed.

Lemma check_structure_eq (v : Validator) :
  check_structure v = (Returns tt, fail_all (structure_errors (repo v)) v).
Proof. reflexivity. Qed.

(** *** Indexing *)

Lemma index_file_extends (p : Path) (v : Validator) : Extends v (index_file p v).
Proof.
  unfold index_file. destruct (String.eqb (name p) "folder.xml"); [apply extends_refl|].
  destruct (parse_xml (repo v) p) as [msg|root]; simpl.
  - split; try reflexivity; [exists [ParseFailure msg] | exists []; rewrite app_nil_r];
      reflexivity.
  - destruct (Str.truthy (Str.or_empty (Xml.get root "id"))); simpl.
    + split; try reflexivity; exists []; rewrite app_nil_r; reflexivity.
    + split; try reflexivity; [exists [MissingIdOnRoot p] | exists []; rewrite app_nil_r];
        reflexivity.
Qed.

Lemma index_file_indexed (p : Path) (v : Validator) :
  Indexed v -> Indexed (index_file p v).
Proof.
  intros [H1 H2]. unfold index_file.
  destruct (String.eqb (name p) "folder.xml"); [split; assumption|].
  destruct (parse_xml (repo v) p) as [msg|root] eqn:Ep.
  - split; simpl.
    + exact H1.
    + intros nm q root Hq Hr.
      destruct (decide (name p = nm)) as [<-|Hne].
      * rewrite lookup_insert_eq in Hq. injection Hq as <-. congruence.
      * rewrite lookup_insert_ne in Hq by exact Hne. exact (H2 _ _ _ Hq Hr).
  - assert (Hfm : forall w : Validator,
               repo w = repo v ->
               file_meta w = file_meta v ->
               basename_to_path w = <[name p := p]> (basename_to_path v) ->
               Indexed (set_file_meta w
                 (Dict.set p (Xml.localname (Xml.tag root),
                              Str.or_empty (Xml.get root "id")) (file_meta w)))).
    { intros w Hr Hf Hb. split; simpl; rewrite Hr, Hf.
      - intros q meta Hq. apply DictFacts.get_set_Some in Hq.
        destruct Hq as [->|Hq]; [exists root; exact Ep | exact (H1 _ _ Hq)].
      - rewrite Hb. intros nm q r Hq Hpr.
        destruct (decide (name p = nm)) as [<-|Hne].
        + rewrite lookup_insert_eq in Hq. injection Hq as <-.
          rewrite DictFacts.get_set_eq. eauto.
        + rewrite lookup_insert_ne in Hq by exact Hne.
          apply DictFacts.get_set_is_Some. exact (H2 _ _ _ Hq Hpr). }
    destruct (Str.truthy (Str.or_empty (Xml.get root "id"))); apply Hfm; reflexivity.
Qed.

Lemma index_files_ends (v : Validator) :
  Indexed v ->
  Ends index_files v (fun _ v' => Extends v v' /\ Indexed v') never.
Proof.
  intros Hi. unfold index_files.
  apply ends_bind with (Q' := fun paths v' => v' = v).
  { apply ends_gets. reflexivity. }
  intros paths v' ->.
  apply (ends_for_each _ paths (fun w => Extends v w /\ Indexed w)).
  - intros p w _ [Hw Hiw]. apply ends_modify. split.
    + exact (extends_trans _ _ _ Hw (index_file_extends p w)).
    + apply index_file_indexed. exact Hiw.
  - split; [apply extends_refl | exact Hi].
Qed.

(** *** File names and identifiers *)

Lemma check_file_and_id_same (item : Path * (string * string)) (v : Validator) :
  Ends (check_file_and_id item) v (fun _ v' => SameIndex v v') never.
Proof.
  destruct item as [p [root_local rid]]. apply ends_modify.
  split; [|reflexivity|reflexivity].
  split; try reflexivity; simpl; eauto.
Qed.

Lemma check_files_and_ids_ends (v : Validator) :
  Ends check_files_and_ids v (fun _ v' => SameIndex v v') never.
Proof.
  unfold check_files_and_ids.
  apply ends_bind with (Q' := fun _ v' => v' = v).
  { apply ends_gets. reflexivity. }
  intros items v' ->.
  apply (ends_for_each _ items (fun w => SameIndex v w)); [|apply same_refl].
  intros item w _ Hw.
  apply ends_weaken with (1 := check_file_and_id_same item w); [|auto].
  intros _ w' Hw'. exact (same_trans _ _ _ Hw Hw').
Qed.

(** *** References *)

(** On a complete index the on-demand parse never succeeds, so a
    reference check leaves the index alone. *)
Lemma check_href_same (p : Path) (href : string) (v : Validator) :
  Indexed v -> SameIndex v (check_href p href v).
Proof.
  intros [H1 H2]. unfold check_href, _resolve_href.
  destruct (Re.HREF_RE href) as [[fname frag]|]; [|apply same_fail].
  destruct (basename_to_path v !! fname) as [tgt|] eqn:Eb; [|apply same_fail].
  destruct (Dict.get tgt (file_meta v)) as [[tl trid]|] eqn:Eg.
  - destruct (negb (String.eqb frag trid)); [apply same_fail | apply same_refl].
  - destruct (parse_xml (repo v) tgt) as [msg|troot] eqn:Ep; [apply same_fail|].
    destruct (H2 _ _ _ Eb Ep) as [meta Hm]. congruence.
Qed.

Lemma check_hrefs_fold_same (p : Path) (hs : list string) (v : Validator) :
  Indexed v -> SameIndex v (foldl (fun v' href => check_href p href v') v hs).
Proof.
  revert v. induction hs as [|h hs IH]; intros v Hi; simpl; [apply same_refl|].
  pose proof (check_href_same p h v Hi) as Hs.
  apply (same_trans _ _ _ Hs). apply IH. exact (same_indexed _ _ Hs Hi).
Qed.

Lemma check_hrefs_file_same (p : Path) (v : Validator) :
  Indexed v -> Ends (check_hrefs_file p) v (fun _ v' => SameIndex v v') never.
Proof.
  intros Hi. apply ends_modify.
  destruct (parse_xml (repo v) p); [apply same_refl | apply check_hrefs_fold_same; exact Hi].
Qed.

Lemma for_file_meta_keys_ends (v0 : Validator) (ks : list Path) :
  Indexed v0 ->
  forall v, SameIndex v0 v ->
  Ends (for_file_meta_keys (length (file_meta v0)) check_hrefs_file ks) v
       (fun _ v' => SameIndex v0 v') never.
Proof.
  intros Hi0. induction ks as [|k ks IH]; intros v Hv; unfold Ends; simpl;
    rewrite (same_file_meta _ _ Hv), Nat.eqb_refl; simpl.
  - exact Hv.
  - change (Ends (bind (check_hrefs_file k)
                    (fun _ => for_file_meta_keys (length (file_meta v0)) check_hrefs_file ks))
                 v (fun _ v' => SameIndex v0 v') never).
    apply ends_bind with (Q' := fun _ v' => SameIndex v0 v').
    + apply ends_weaken with (1 := check_hrefs_file_same k v (same_indexed _ _ Hv Hi0));
        [|auto].
      intros _ w Hw. exact (same_trans _ _ _ Hv Hw).
    + intros _ w Hw. apply IH. exact Hw.
Qed.

Lemma check_hrefs_ends (v : Validator) :
  Indexed v -> Ends check_hrefs v (fun _ v' => SameIndex v v') never.
Proof.
  intros Hi. unfold check_hrefs.
  apply ends_bind with (Q' := fun fm v' => v' = v /\ fm = file_meta v).
  { apply ends_gets. split; reflexivity. }
  intros fm v' [-> ->]. apply for_file_meta_keys_ends; [exact Hi | apply same_refl].
Qed.

End Phases.

(** ** Relationships, diagrams and the whole run *)

Module RunFacts.
Import Frame Logic Phases.

Lemma side_count_errors_empty (s : Side) (root : Element) (p : Path) :
  side_elems s root = [] -> side_count_errors s root p = [RelationshipMissingSingle s p].
Proof. unfold side_count_errors. intros ->. reflexivity. Qed.

Lemma shape_errors_nonempty (root : Element) (p : Path) :
  side_elems Source root = [] \/ side_elems Target root = [] ->
  relationship_shape_errors root p <> [].
Proof.
  unfold relationship_shape_errors. intros [H|H] Hnil.
  - rewrite (side_count_errors_empty _ _ _ H) in Hnil. discriminate.
  - apply app_eq_nil in Hnil. destruct Hnil as [_ Hnil].
    rewrite (side_count_errors_empty _ _ _ H) in Hnil. discriminate.
Qed.

Lemma item_parses (v : Validator) (p : Path) (meta : string * string) :
  Indexed v -> In (p, meta) (file_meta v) ->
  exists root, parse_xml (repo v) p = ParseOk root.
Proof.
  intros [H1 _] Hin. destruct (DictFacts.In_get _ _ _ Hin) as [m Hm].
  exact (H1 _ _ Hm).
Qed.

Lemma relationship_rule_check_ends (root : Element) (p : Path) (root_local : string)
    (v0 v : Validator) :
  SameIndex v0 v ->
  (side_elems Source root = [] \/ side_elems Target root = [] -> errors v <> []) ->
  Ends (relationship_rule_check root p root_local) v
       (fun _ v' => SameIndex v0 v') (index_error v0).
Proof.
  intros Hs Herr. unfold relationship_rule_check, Ends, bind, gets.
  destruct (rules_loaded (relation_rules v)) eqn:El; [|exact Hs].
  assert (El0 : rules_loaded (relation_rules v0) = true).
  { rewrite <- (ext_rules _ _ (same_extends _ _ Hs)). exact El. }
  destruct (side_elems Source root) as [|s ss] eqn:Es.
  { split; [reflexivity|]. split; [exact Hs|]. split; [|exact El0].
    apply Herr. left. reflexivity. }
  destruct (side_elems Target root) as [|t ts] eqn:Et.
  { split; [reflexivity|]. split; [exact Hs|]. split; [|exact El0].
    apply Herr. right. reflexivity. }
  destruct (negb (_is_relationship_allowed _ _ _ _)); [|exact Hs].
  exact (same_trans _ _ _ Hs (same_fail _ _)).
Qed.

Lemma check_relationship_ends (item : Path * (string * string)) (v0 v : Validator) :
  Indexed v0 -> SameIndex v0 v -> In item (file_meta v0) ->
  Ends (check_relationship item) v (fun _ v' => SameIndex v0 v') (index_error v0).
Proof.
  intros Hi Hs Hin. destruct item as [p [root_local rid]]. unfold check_relationship.
  destruct (negb (Str.endswith root_local "Relationship")); [exact Hs|].
  destruct (item_parses _ _ _ Hi Hin) as [root Hp].
  apply ends_bind with (Q' := fun r v' => v' = v /\ r = repo v0).
  { apply ends_gets. split; [reflexivity|]. apply (ext_repo _ _ (same_extends _ _ Hs)). }
  intros r v' [-> ->]. rewrite Hp.
  apply ends_bind
    with (Q' := fun _ v' => SameIndex v0 v'
                  /\ (side_elems Source root = [] \/ side_elems Target root = [] ->
                      errors v' <> [])).
  - apply ends_modify. split.
    + exact (same_trans _ _ _ Hs (same_fail_all _ _)).
    + intros Hside. simpl. intros Hnil. apply app_eq_nil in Hnil.
      destruct Hnil as [_ Hnil]. exact (shape_errors_nonempty root p Hside Hnil).
  - intros _ v' [Hs' Herr]. apply relationship_rule_check_ends; assumption.
Qed.

Lemma check_relationships_ends (v : Validator) :
  Indexed v ->
  Ends check_relationships v (fun _ v' => SameIndex v v') (index_error v).
Proof.
  intros Hi. unfold check_relationships.
  apply ends_bind with (Q' := fun items v' => v' = v /\ items = file_meta v).
  { apply ends_gets. split; reflexivity. }
  intros items v' [-> ->].
  apply (ends_for_each _ (file_meta v) (fun w => SameIndex v w)); [|apply same_refl].
  intros item w Hin Hw. apply check_relationship_ends; assumption.
Qed.

(** Without a rule set the relationship phase always returns. *)
Lemma check_relationships_no_rules (v : Validator) :
  Indexed v -> rules_loaded (relation_rules v) = false ->
  Ends check_relationships v (fun _ v' => SameIndex v v') never.
Proof.
  intros Hi Hl.
  apply ends_weaken with (1 := check_relationships_ends v Hi); [auto|].
  intros e v' (_ & _ & _ & H). congruence.
Qed.

Lemma check_diagram_ends (item : Path * (string * string)) (v0 v : Validator) :
  Indexed v0 -> SameIndex v0 v -> In item (file_meta v0) ->
  Ends (check_diagram item) v (fun _ v' => SameIndex v0 v') never.
Proof.
  intros Hi Hs Hin. destruct item as [p [root_local rid]]. unfold check_diagram.
  destruct (negb (is_diagram_kind root_local)); [exact Hs|].
  destruct (item_parses _ _ _ Hi Hin) as [root Hp].
  apply ends_bind with (Q' := fun r v' => v' = v /\ r = repo v0).
  { apply ends_gets. split; [reflexivity|]. apply (ext_repo _ _ (same_extends _ _ Hs)). }
  intros r v' [-> ->]. rewrite Hp. apply ends_modify.
  exact (same_trans _ _ _ Hs (same_fail_all _ _)).
Qed.

Lemma check_diagrams_ends (v : Validator) :
  Indexed v -> Ends check_diagrams v (fun _ v' => SameIndex v v') never.
Proof.
  intros Hi. unfold check_diagrams.
  apply ends_bind with (Q' := fun items v' => v' = v /\ items = file_meta v).
  { apply ends_gets. split; reflexivity. }
  intros items v' [-> ->].
  apply (ends_for_each _ (file_meta v) (fun w => SameIndex v w)); [|apply same_refl].
  intros item w Hin Hw. apply check_diagram_ends; assumption.
Qed.

Lemma report_ends (v : Validator) :
  Ends _report v
    (fun code v' => v' = v /\ (code = 0%Z <-> errors v = []) /\ (code = 0 \/ code = 1)%Z)
    never.
Proof.
  unfold Ends, _report, gets. split; [reflexivity|].
  destruct (errors v); split; auto; split; congruence.
Qed.

(** How a run from a fresh index ends: it returns a status that is 0
    exactly when no error is recorded, or it raises [IndexError] in the
    relationship phase, with a rule set loaded and an error recorded. *)
Lemma run_ends (v : Validator) :
  file_meta v = [] -> basename_to_path v = ∅ ->
  Ends run v
    (fun code v' =>
       Extends v v' /\ (code = 0%Z <-> errors v' = []) /\ (code = 0 \/ code = 1)%Z)
    (fun e v' =>
       e = IndexError /\ Extends v v' /\ errors v' <> []
       /\ rules_loaded (relation_rules v) = true).
Proof.
  intros Hf Hb. unfold run.
  set (v1 := fail_all (structure_errors (repo v)) v).
  assert (H01 : Extends v v1) by apply extends_fail_all.
  assert (Hi1 : Indexed v1) by (apply initial_indexed; assumption).
  apply ends_bind with (Q' := fun _ w => w = v1).
  { apply ends_modify. reflexivity. }
  intros _ w ->.
  apply ends_bind with (Q' := fun es w => w = v1 /\ es = errors v1).
  { apply ends_gets. split; reflexivity. }
  intros es w [-> ->].
  destruct (errors v1) as [|e es] eqn:Ee.
  - apply ends_bind with (Q' := fun _ w => Extends v w /\ Indexed w).
    { apply ends_weaken with (1 := index_files_ends v1 Hi1); [|intros ? ? []].
      intros _ w [Hw Hiw]. split; [exact (extends_trans _ _ _ H01 Hw) | exact Hiw]. }
    intros _ v2 [H02 Hi2].
    apply ends_bind with (Q' := fun _ w => Extends v w /\ Indexed w).
    { apply ends_weaken with (1 := check_files_and_ids_ends v2); [|intros ? ? []].
      intros _ w Hw. split.
      - exact (extends_trans _ _ _ H02 (same_extends _ _ Hw)).
      - exact (same_indexed _ _ Hw Hi2). }
    intros _ v3 [H03 Hi3].
    apply ends_bind with (Q' := fun _ w => Extends v w /\ Indexed w).
    { apply ends_weaken with (1 := check_hrefs_ends v3 Hi3); [|intros ? ? []].
      intros _ w Hw. split.
      - exact (extends_trans _ _ _ H03 (same_extends _ _ Hw)).
      - exact (same_indexed _ _ Hw Hi3). }
    intros _ v4 [H04 Hi4].
    apply ends_bind with (Q' := fun _ w => Extends v w /\ Indexed w).
    { apply ends_weaken with (1 := check_relationships_ends v4 Hi4).
      - intros _ w Hw. split.
        + exact (extends_trans _ _ _ H04 (same_extends _ _ Hw)).
        + exact (same_indexed _ _ Hw Hi4).
      - intros x w (-> & Hw & Hne & Hl). split; [reflexivity|].
        split; [exact (extends_trans _ _ _ H04 (same_extends _ _ Hw))|].
        split; [exact Hne|]. rewrite <- (ext_rules _ _ H04). exact Hl. }
    intros _ v5 [H05 Hi5].
    apply ends_bind with (Q' := fun _ w => Extends v w).
    { apply ends_weaken with (1 := check_diagrams_ends v5 Hi5); [|intros ? ? []].
      intros _ w Hw. exact (extends_trans _ _ _ H05 (same_extends _ _ Hw)). }
    intros _ v6 H06.
    apply ends_bind with (Q' := fun _ w => Extends v w).
    { apply ends_modify. exact (extends_trans _ _ _ H06 (extends_fail_all _ _)). }
    intros _ v7 H07.
    apply ends_weaken with (1 := report_ends v7); [|intros ? ? []].
    intros code w (-> & Hc & Hr). auto.
  - apply ends_bind with (Q' := fun _ w => w = v1).
    { apply ends_weaken with (1 := report_ends v1); [|intros ? ? []].
      intros code w (-> & _). reflexivity. }
    intros _ w ->. apply ends_ret. split; [exact H01|].
    rewrite Ee. split; [split; discriminate | right; reflexivity].
Qed.

End RunFacts.

(** ** The constructor and the structural gate *)

Module InitFacts.

Lemma init_fresh (r : Repo) (archi : option ArchiRun) (strict : bool) (v : Validator) :
  init r archi strict = inr v ->
  file_meta v = [] /\ basename_to_path v = ∅ /\ errors v = []
  /\ repo v = r /\ archi_bin v = archi /\ strict_ids v = strict
  /\ relation_rules v = fst (_read_relationship_rules r)
  /\ warnings v = snd (_read_relationship_rules r).
Proof.
  unfold init. destruct (read_catalog r) as [e|[[[c2f els] rels] dias]]; [discriminate|].
  destruct (_read_relationship_rules r) as [rules ws].
  intros [= <-]. simpl. repeat split; reflexivity.
Qed.

Lemma read_catalog_ok (r : Repo) :
  (forall m, catalog_json r <> DocMalformed m) -> exists c, read_catalog r = inr c.
Proof.
  intros Hc. unfold read_catalog. destruct (catalog_json r) as [|m|data].
  - eauto.
  - exfalso. exact (Hc m eq_refl).
  - destruct (catalog_loop _ (∅, ∅)) as [c1 e1].
    destruct (catalog_loop _ (c1, ∅)) as [c2 e2].
    destruct (catalog_loop _ (c2, ∅)) as [c3 e3]. eauto.
Qed.

Lemma init_ok (r : Repo) (archi : option ArchiRun) (strict : bool) :
  (forall m, catalog_json r <> DocMalformed m) -> exists v, init r archi strict = inr v.
Proof.
  intros Hc. unfold init. destruct (read_catalog_ok r Hc) as [[[[c2f els] rels] dias] ->].
  destruct (_read_relationship_rules r) as [rules ws]. eauto.
Qed.

Lemma init_bad_catalog (r : Repo) (archi : option ArchiRun) (strict : bool) (msg : string) :
  catalog_json r = DocMalformed msg ->
  init r archi strict = inl (ValueError ("Failed to read types/catalog.json: " ++ msg)).
Proof. intros H. unfold init, read_catalog. rewrite H. reflexivity. Qed.

Lemma not_loaded_allows (d : RuleDoc) (rtype src tgt : string) :
  rules_loaded d = false -> _is_relationship_allowed d rtype src tgt = true.
Proof. intros H. unfold _is_relationship_allowed. rewrite H. reflexivity. Qed.

End InitFacts.

Module GateFacts.

Lemma run_unfold (v : Validator) :
  run v =
    let v1 := fail_all (structure_errors (repo v)) v in
    match errors v1 with
    | [] => later_phases v1
    | _ :: _ => (Returns 1%Z, v1)
    end.
Proof.
  unfold run, later_phases, bind, check_structure, modify, gets, _report, ret. simpl.
  destruct (errors v ++ structure_errors (repo v)); reflexivity.
Qed.

Lemma in_nonempty {A} (x : A) (l : list A) : In x l -> l <> [].
Proof. intros H ->. exact H. Qed.

Lemma in_concat_map {A B} (f : A -> list B) (l : list A) (a : A) (b : B) :
  In a l -> In b (f a) -> In b (concat (map f l)).
Proof.
  intros Ha Hb. apply in_concat. exists (f a). split; [|exact Hb].
  apply in_map. exact Ha.
Qed.

Lemma fault_recorded (r : Repo) : StructuralFault r -> structure_errors r <> [].
Proof.
  intros Hf. unfold structure_errors.
  destruct (model_is_dir r) eqn:Em; cbn [negb]; [|discriminate].
  destruct Hf as [H|H|f Hin H|f Hin H|root H Hn|f root Hin H Hn].
  - congruence.
  - rewrite H. discriminate.
  - apply (in_nonempty (MissingTopLevelFolder f)).
    apply in_or_app. right. apply in_or_app. left.
    apply (in_concat_map _ _ f); [exact Hin|].
    unfold check_top_folder_exists. rewrite H. left. reflexivity.
  - apply (in_nonempty (MissingFolderXmlIn f)).
    apply in_or_app. right. apply in_or_app. left.
    apply (in_concat_map _ _ f); [exact Hin|].
    unfold check_top_folder_exists. rewrite H. left. reflexivity.
  - apply (in_nonempty (ModelRootMustBeModel (Xml.tag root))).
    apply in_or_app. right. apply in_or_app. right. apply in_or_app. left.
    unfold check_model_root. rewrite H.
    apply String.eqb_neq in Hn. rewrite Hn. left. reflexivity.
  - apply (in_nonempty (FolderRootMustBeFolder f (Xml.tag root))).
    apply in_or_app. right. apply in_or_app. right. apply in_or_app. right.
    apply (in_concat_map _ _ f); [exact Hin|].
    unfold check_top_folder_root. rewrite H.
    apply String.eqb_neq in Hn. rewrite Hn. left. reflexivity.
Qed.

End GateFacts.

(** C1, as the code has it: a rule document that is present but cannot be
    read makes the engine record a warning with the parse failure and go on
    with no rules (every triple is then allowed), and the process ends with
    an exit status; a catalog that is present but cannot be read makes
    [read_catalog] raise [ValueError], which nothing catches. *)
Theorem C1_document_read_failures
    (r : Repo) (archi : option ArchiRun) (strict : bool) (msg : string) :
  (relationships_json r = DocMalformed msg ->
   (forall m, catalog_json r <> DocMalformed m) ->
   exists code v,
     main r archi strict = Exit code v
     /\ In (FailedToReadRules msg) (warnings v)
     /\ relation_rules v = empty_rules
     /\ forall rtype src tgt,
          _is_relationship_allowed (relation_rules v) rtype src tgt = true)
  /\ (catalog_json r = DocMalformed msg ->
      main r archi strict
      = Traceback (ValueError ("Failed to read types/catalog.json: " ++ msg))).
Proof.
  split.
  - intros Hr Hc. destruct (InitFacts.init_ok r archi strict Hc) as [v0 Hv0].
    destruct (InitFacts.init_fresh _ _ _ _ Hv0) as (Hf & Hb & _ & _ & _ & _ & Hrules & Hw).
    unfold _read_relationship_rules in Hrules, Hw. rewrite Hr in Hrules, Hw.
    simpl in Hrules, Hw.
    pose proof (RunFacts.run_ends v0 Hf Hb) as Hrun.
    unfold main. rewrite Hv0. unfold Ends in Hrun.
    destruct (run v0) as [[code|e] v'].
    + destruct Hrun as (Hext & _). exists code, v'.
      split; [reflexivity|].
      destruct (ext_warnings _ _ Hext) as [ws Hws].
      assert (Hrv : relation_rules v' = empty_rules).
      { rewrite (ext_rules _ _ Hext). exact Hrules. }
      split; [|split; [exact Hrv|]].
      * rewrite Hws, Hw. left. reflexivity.
      * intros rtype src tgt. rewrite Hrv. reflexivity.
    + destruct Hrun as (_ & _ & _ & Hl). rewrite Hrules in Hl. discriminate.
  - intros Hc. unfold main. rewrite (InitFacts.init_bad_catalog _ _ _ _ Hc). reflexivity.
Qed.

(** C1, a witness: the two sample repositories with an unreadable
    document. *)
Lemma C1_document_read_failures_witness :
  (exists code v,
     main Fixture.repo_bad_rules None false = Exit code v
     /\ In (FailedToReadRules Fixture.decode_error) (warnings v)
     /\ relation_rules v = empty_rules
     /\ forall rtype src tgt,
          _is_relationship_allowed (relation_rules v) rtype src tgt = true)
  /\ main Fixture.repo_bad_catalog None false
     = Traceback (ValueError ("Failed to read types/catalog.json: " ++ Fixture.decode_error)).
Proof.
  split.
  - apply (proj1 (C1_document_read_failures Fixture.repo_bad_rules None false
                    Fixture.decode_error)).
    + reflexivity.
    + intros m. discriminate.
  - apply (proj2 (C1_document_read_failures Fixture.repo_bad_catalog None false
                    Fixture.decode_error)).
    reflexivity.
Defined.

(** C1, as the specification states it, fails: with a catalog that is present but
    not valid JSON no warning is recorded and nothing continues; the
    process ends with the exception the constructor lets through. *)
Lemma C1_malformed_catalog_is_fatal :
  catalog_json Fixture.repo_bad_catalog = DocMalformed Fixture.decode_error
  /\ ~ (exists code v, main Fixture.repo_bad_catalog None false = Exit code v).
Proof.
  split; [reflexivity|]. intros (code & v & H). discriminate H.
Qed.

(** C2: a relationship file without its [source] child, in a repository
    whose rule document is loaded, makes the relationship phase raise
    [IndexError] after it has recorded the error for the missing side; the
    same file without a rule document gives exactly that one error. *)
Theorem C2_missing_side_with_rules_raises :
  main Fixture.repo_no_source_rules None false = Traceback IndexError
  /\ exists v,
       main Fixture.repo_no_source None false = Exit 1%Z v
       /\ errors v = [RelationshipMissingSingle Source Fixture.rel_path].
Proof.
  split; [vm_compute; reflexivity|].
  eexists. split; vm_compute; reflexivity.
Qed.

(** C9: a run of a freshly built validator returns 0 exactly when no
    error is recorded, and 1 otherwise, whatever the warnings; when the run
    raises instead of returning, an error is recorded, and the process
    does not end with status 0. *)
Theorem C9_exit_status (r : Repo) (archi : option ArchiRun) (strict : bool) (v : Validator) :
  init r archi strict = inr v ->
  Ends run v
    (fun code v' => (code = 0%Z <-> errors v' = []) /\ (code = 0 \/ code = 1)%Z)
    (fun _ v' => errors v' <> []).
Proof.
  intros Hv. destruct (InitFacts.init_fresh _ _ _ _ Hv) as (Hf & Hb & _).
  apply Logic.ends_weaken with (1 := RunFacts.run_ends v Hf Hb).
  - intros code v' (_ & H1 & H2). split; assumption.
  - intros e v' (_ & _ & H & _). exact H.
Qed.

(** C9, a witness: the sample repository, whose run records a warning and
    no error. *)
Lemma C9_exit_status_witness :
  init Fixture.repo_ok None false = inr (Fixture.fresh Fixture.repo_ok)
  /\ Ends run (Fixture.fresh Fixture.repo_ok)
       (fun code v' => (code = 0%Z <-> errors v' = []) /\ (code = 0 \/ code = 1)%Z)
       (fun _ v' => errors v' <> []).
Proof.
  split; [reflexivity|].
  apply (C9_exit_status Fixture.repo_ok None false). reflexivity.
Defined.

(** C3, a witness: the rule document of the sample, an association from a
    business actor to an application component. *)
Lemma C3_rule_evaluation_witness :
  rules_loaded Fixture.rules_business = true
  /\ _is_relationship_allowed Fixture.rules_business
       "AssociationRelationship" "BusinessActor" "ApplicationComponent" = false.
Proof.
  split; [reflexivity|].
  apply (C3_rule_evaluation Fixture.rules_business
           "AssociationRelationship" "BusinessActor" "ApplicationComponent" eq_refl).
  - intros rule [<-|[]] (_ & _ & _ & [[H _]|[H|(g & ms & H & _ & Hg & Hin)]]);
      simpl in H; try discriminate.
    injection H as <-. vm_compute in Hg. injection Hg as <-.
    simpl in Hin. intuition discriminate.
  - eexists. split; [left; reflexivity | reflexivity].
Defined.

(** ** References *)

Module HrefFacts.

Lemma hrefs_spec (root : Element) (h : string) :
  In h (hrefs root) <->
  exists elem, In elem (Xml.iter root) /\ Xml.get elem "href" = Some h.
Proof.
  unfold hrefs. rewrite <- list_elem_of_In, list_elem_of_omap.
  split; intros (e & He & Hg); exists e; split; auto; apply list_elem_of_In; exact He.
Qed.

Lemma check_hrefs_file_eq (p : Path) (v : Validator) (root : Element) :
  parse_xml (repo v) p = ParseOk root ->
  check_hrefs_file p v
  = (Returns tt, foldl (fun w h => check_href p h w) v (hrefs root)).
Proof. intros H. unfold check_hrefs_file, modify. rewrite H. reflexivity. Qed.

End HrefFacts.

(** ** File names and identifiers *)

Module IdFacts.

Lemma is_diagram_kind_false (s : string) :
  is_diagram_kind s = false <-> s <> "ArchimateDiagramModel" /\ s <> "SketchModel".
Proof.
  unfold is_diagram_kind. simpl. rewrite !orb_false_iff, !String.eqb_neq. tauto.
Qed.

Lemma folder_errors_only (v : Validator) (p : Path) (cls : string) (m : Msg) :
  In m (folder_errors v p cls) ->
  exists expected top, m = ClassExpectedInFolder cls expected top p.
Proof.
  unfold folder_errors. destruct (bool_decide _); [intros []|].
  destruct (class_to_folder v !! cls) as [e|]; [|intros []].
  destruct (head p) as [t|]; [|intros []].
  destruct (_ && _); [|intros []].
  intros [<-|[]]. eauto.
Qed.

Lemma check_file_and_id_eq (v : Validator) (p : Path) (root_local rid : string) :
  check_file_and_id (p, (root_local, rid)) v
  = (Returns tt,
     set_warnings (fail_all (file_id_errors v p root_local rid) v)
       (warnings v ++ file_cr_warnings v p)).
Proof. reflexivity. Qed.

End IdFacts.

(** C6, where the code departs from it: a file named with the token
    [SketchModel] whose root is [BusinessActor], which is not a diagram
    root kind and differs from the token, gets no error; the whole run
    passes.  The comment above the test speaks of special root names, the
    test looks at the token of the file name. *)
Lemma C6_element_under_diagram_token :
  Re.FILENAME_RE (name Fixture.sketch_path) = Some ("SketchModel", "id-1")
  /\ "SketchModel" <> "BusinessActor"
  /\ is_diagram_kind "BusinessActor" = false
  /\ file_id_errors (Fixture.fresh Fixture.repo_actor_as_sketch)
       Fixture.sketch_path "BusinessActor" "id-1" = []
  /\ exists v,
       main Fixture.repo_actor_as_sketch None false = Exit 0%Z v
       /\ file_meta v = [(Fixture.sketch_path, ("BusinessActor", "id-1"))]
       /\ errors v = [].
Proof.
  split; [reflexivity|]. split; [discriminate|]. split; [reflexivity|].
  split; [reflexivity|]. eexists. split; [vm_compute; reflexivity|].
  split; reflexivity.
Qed.

(** ** Diagrams *)

Module DiagramFacts.

Lemma endpoint_errors_spec (ids : gset string) (conn : Element) (p : Path)
    (s : Side) (id : option string) :
  In (ConnectionEndNotFound s id p) (endpoint_errors ids conn p) <->
  Xml.get conn (side_label s) = id /\ end_missing ids id = true.
Proof.
  unfold endpoint_errors. rewrite in_app_iff. split.
  - intros [H|H].
    + destruct (end_missing ids (Xml.get conn "source")) eqn:E; simpl in H; [|contradiction].
      destruct H as [[= <- <-]|[]]. split; [reflexivity | exact E].
    + destruct (end_missing ids (Xml.get conn "target")) eqn:E; simpl in H; [|contradiction].
      destruct H as [[= <- <-]|[]]. split; [reflexivity | exact E].
  - intros [<- E]. destruct s; simpl in E |- *; rewrite E; [left | right]; left; reflexivity.
Qed.

Lemma rel_child_errors_kinds (rules : RuleDoc) (root conn : Element) (p : Path)
    (ch : Element) (m : Msg) :
  In m (rel_child_errors rules root conn p ch) ->
  (m = ConnectionMissingRelHref p /\ Str.falsy_opt (Xml.get ch "href") = true)
  \/ (rules_loaded rules = true /\ exists rtype s t, m = ConnectionNotAllowed rtype s t p).
Proof.
  unfold rel_child_errors. rewrite in_app_iff. intros [H|H].
  - destruct (Str.falsy_opt (Xml.get ch "href")) eqn:E; simpl in H; [|contradiction].
    destruct H as [<-|[]]. left. split; reflexivity.
  - destruct (rules_loaded rules) eqn:El; [|destruct H]. right. split; [reflexivity|].
    destruct (_diagram_object_element_type root (Xml.get conn "source")) as [s|]; [|destruct H].
    destruct (_diagram_object_element_type root (Xml.get conn "target")) as [t|]; [|destruct H].
    destruct (_ && _); [|destruct H]. destruct H as [<-|[]]. eauto.
Qed.

Lemma backing_errors_kinds (rules : RuleDoc) (root conn : Element) (p : Path) (m : Msg) :
  In m (backing_errors rules root conn p) ->
  (m = ConnectionMissingRel p /\ List.filter is_rel_child (Xml.children conn) = [])
  \/ (m = ConnectionMissingRelHref p
      /\ exists ch, In ch (List.filter is_rel_child (Xml.children conn))
                    /\ Str.falsy_opt (Xml.get ch "href") = true)
  \/ (rules_loaded rules = true /\ exists rtype s t, m = ConnectionNotAllowed rtype s t p).
Proof.
  unfold backing_errors. rewrite in_app_iff. intros [H|H].
  - apply in_concat in H. destruct H as (l & Hl & Hm).
    apply in_map_iff in Hl. destruct Hl as (ch & <- & Hch).
    apply rel_child_errors_kinds in Hm. destruct Hm as [[-> Hf]|Hm].
    + right. left. split; [reflexivity|]. exists ch. split; assumption.
    + right. right. exact Hm.
  - destruct (List.filter is_rel_child (Xml.children conn)); [|destruct H].
    destruct H as [<-|[]]. left. split; reflexivity.
Qed.

Lemma object_errors_kinds (p : Path) (dmo : Element) (m : Msg) :
  In m (object_errors p dmo) -> m = ObjectMissingBounds p \/ m = ObjectMissingElementHref p.
Proof.
  unfold object_errors. rewrite in_app_iff. intros [H|H].
  - destruct (Xml.find dmo "bounds"); [destruct H|]. destruct H as [<-|[]]. left. reflexivity.
  - destruct (Xml.find dmo "archimateElement") as [ael|].
    + destruct (Str.falsy_opt _); [|destruct H]. destruct H as [<-|[]]. right. reflexivity.
    + destruct H as [<-|[]]. right. reflexivity.
Qed.

Lemma end_missing_spec (ids : gset string) (id : option string) :
  end_missing ids id = true <->
  id = None \/ id = Some "" \/ exists s, id = Some s /\ s ∉ ids.
Proof.
  unfold end_missing. destruct id as [s|].
  - rewrite orb_true_iff, !negb_true_iff, bool_decide_eq_false. split.
    + intros [H|H].
      * destruct s; [|discriminate]. right. left. reflexivity.
      * right. right. exists s. split; [reflexivity | exact H].
    + intros [H|[H|(s' & H & Hn)]]; [discriminate| |].
      * injection H as ->. left. reflexivity.
      * injection H as ->. right. exact Hn.
  - split; [intros _; left; reflexivity | reflexivity].
Qed.

Lemma diagram_ids_spec (root : Element) (s : string) :
  s ∈ diagram_ids root <->
  exists child, In child (Xml.descendants root) /\ diagram_object_id child = Some s.
Proof.
  unfold diagram_ids. rewrite elem_of_list_to_set, list_elem_of_omap.
  split; intros (c & Hc & Hs); exists c; split; auto; apply list_elem_of_In; exact Hc.
Qed.

Lemma check_diagram_eq (v : Validator) (p : Path) (kind rid : string) (root : Element) :
  is_diagram_kind kind = true ->
  parse_xml (repo v) p = ParseOk root ->
  check_diagram (p, (kind, rid)) v
  = (Returns tt, fail_all (diagram_errors (relation_rules v) root p) v).
Proof.
  intros Hk Hp. unfold check_diagram. rewrite Hk. cbn [negb].
  unfold bind, gets. rewrite Hp. reflexivity.
Qed.

End DiagramFacts.

(** C8, as the specification states it, fails: a connection with two
    backing-relationship children, each with an [href], is not reported;
    the whole run passes. *)
Lemma C8_two_backing_children_accepted :
  length (List.filter is_rel_child (Xml.children Fixture.conn_two_backing)) = 2
  /\ In Fixture.conn_two_backing (Xml.descendants Fixture.diagram_c)
  /\ has_xsi_type CONNECTION_TYPE Fixture.conn_two_backing = true
  /\ exists v,
       main Fixture.repo_two_backing None false = Exit 0%Z v
       /\ Dict.get Fixture.diagram_a_path (file_meta v) = Some ("ArchimateDiagramModel", "id-a")
       /\ errors v = [].
Proof.
  split; [reflexivity|]. split; [right; right; left; reflexivity|].
  split; [reflexivity|]. eexists. split; [vm_compute; reflexivity|].
  split; reflexivity.
Qed.

(** ** The index and the on-demand parse *)

Module IndexFacts.

Lemma for_each_modify {A} (f : A -> Validator -> Validator) (l : list A) (v : Validator) :
  for_each (fun x => modify (f x)) l v = (Returns tt, foldl (fun w x => f x w) v l).
Proof.
  revert v. induction l as [|x l IH]; intros v; simpl; [reflexivity|].
  unfold bind, modify at 1. apply IH.
Qed.

Lemma index_files_eq (v : Validator) :
  index_files v = (Returns tt, foldl (fun w q => index_file q w) v (rglob (repo v))).
Proof. unfold index_files, bind, gets. apply for_each_modify. Qed.

Lemma index_file_repo (q : Path) (w : Validator) : repo (index_file q w) = repo w.
Proof. apply (ext_repo _ _ (Phases.index_file_extends q w)). Qed.

Lemma index_fold_repo (l : list Path) (v : Validator) :
  repo (foldl (fun w q => index_file q w) v l) = repo v.
Proof.
  revert v. induction l as [|q l IH]; intros v; simpl; [reflexivity|].
  rewrite IH. apply index_file_repo.
Qed.

(** A file that does not parse never gets metadata. *)
Lemma index_file_keeps_none (p q : Path) (msg : string) (w : Validator) :
  parse_xml (repo w) p = ParseFail msg ->
  Dict.get p (file_meta w) = None ->
  Dict.get p (file_meta (index_file q w)) = None.
Proof.
  intros Hp Hg. unfold index_file.
  destruct (String.eqb (name q) "folder.xml"); [exact Hg|].
  destruct (parse_xml (repo w) q) as [m|root] eqn:Eq; [exact Hg|].
  assert (Hne : q <> p) by (intros ->; congruence).
  destruct (Str.truthy _); simpl; rewrite DictFacts.get_set_ne; assumption.
Qed.

Lemma index_fold_keeps_none (p : Path) (msg : string) (l : list Path) (v : Validator) :
  parse_xml (repo v) p = ParseFail msg ->
  Dict.get p (file_meta v) = None ->
  Dict.get p (file_meta (foldl (fun w q => index_file q w) v l)) = None.
Proof.
  revert v. induction l as [|q l IH]; intros v Hp Hg; simpl; [exact Hg|].
  apply IH.
  - rewrite index_file_repo. exact Hp.
  - exact (index_file_keeps_none _ _ _ _ Hp Hg).
Qed.

(** The entry of a base name is made before the parse attempt. *)
Lemma index_file_basename (q : Path) (w : Validator) :
  name q <> "folder.xml" ->
  basename_to_path (index_file q w) = <[name q := q]> (basename_to_path w).
Proof.
  intros Hn. unfold index_file. apply String.eqb_neq in Hn. rewrite Hn.
  destruct (parse_xml (repo w) q) as [m|root]; [reflexivity|].
  destruct (Str.truthy _); reflexivity.
Qed.

Lemma index_file_basename_other (q : Path) (nm : string) (w : Validator) :
  name q <> nm ->
  basename_to_path (index_file q w) !! nm = basename_to_path w !! nm.
Proof.
  intros Hne. destruct (String.eqb (name q) "folder.xml") eqn:E.
  - unfold index_file. rewrite E. reflexivity.
  - apply String.eqb_neq in E. rewrite (index_file_basename _ _ E).
    apply lookup_insert_ne. exact Hne.
Qed.

Lemma index_fold_basename_other (nm : string) (l : list Path) (v : Validator) :
  (forall q, In q l -> name q <> nm) ->
  basename_to_path (foldl (fun w q => index_file q w) v l) !! nm
  = basename_to_path v !! nm.
Proof.
  revert v. induction l as [|q l IH]; intros v Hall; simpl; [reflexivity|].
  rewrite IH by (intros q' Hq'; apply Hall; right; exact Hq').
  apply index_file_basename_other. apply Hall. left. reflexivity.
Qed.

(** With a base name that only one listed file has, the index maps the
    name to that file. *)
Lemma index_fold_basename (p : Path) (l : list Path) (v : Validator) :
  name p <> "folder.xml" ->
  In p l ->
  (forall q, In q l -> name q = name p -> q = p) ->
  basename_to_path (foldl (fun w q => index_file q w) v l) !! name p = Some p.
Proof.
  intros Hn. revert v. induction l as [|q l IH]; intros v Hin Huniq; [destruct Hin|].
  simpl. destruct (decide (p ∈ l)) as [Hl|Hl].
  - apply IH; [apply list_elem_of_In; exact Hl|].
    intros q' Hq'. apply Huniq. right. exact Hq'.
  - destruct Hin as [->|Hin]; [|exfalso; apply Hl, list_elem_of_In; exact Hin].
    rewrite index_fold_basename_other.
    + rewrite (index_file_basename _ _ Hn). apply lookup_insert_eq.
    + intros q' Hq' Heq. apply Hl. apply list_elem_of_In.
      rewrite <- (Huniq q' (or_intror Hq') Heq). exact Hq'.
Qed.

End IndexFacts.

(** ** The model at work: the patterns and the scenarios of the specification *)

Example filename_re_1 :
  Re.FILENAME_RE "BusinessActor_id-1.xml" = Some ("BusinessActor", "id-1").
Proof. reflexivity. Qed.

Example filename_re_2 :
  Re.FILENAME_RE "Business_Actor_id_1.xml" = Some ("Business_Actor_id", "1").
Proof. reflexivity. Qed.

Example filename_re_3 : Re.FILENAME_RE "folder.xml" = None.
Proof. reflexivity. Qed.

Example href_re_1 :
  Re.HREF_RE "BusinessActor_id-1.xml#id-1" = Some ("BusinessActor_id-1.xml", "id-1").
Proof. reflexivity. Qed.

Example href_re_2 : Re.HREF_RE "Business/BusinessActor_id-1.xml#id-1" = None.
Proof. reflexivity. Qed.

Example href_re_3 : Re.HREF_RE "a.xml#b.xml#c" = Some ("a.xml#b.xml", "c").
Proof. reflexivity. Qed.

Example href_re_4 : Re.HREF_RE "a.xml#" = None.
Proof. reflexivity. Qed.

Example filename_re_4 : Re.FILENAME_RE "_x.xml" = None.
Proof. reflexivity. Qed.

Example id_recommended_1 :
  Re.ID_RECOMMENDED "id-0123456789abcdefABCDEF0123456789" = true.
Proof. reflexivity. Qed.

Example id_recommended_2 : Re.ID_RECOMMENDED "id-1" = false.
Proof. reflexivity. Qed.

(** (a) The bare skeleton passes. *)
Example scenario_minimal :
  exists v, main (Fixture.skeleton [] DocAbsent DocAbsent) None false = Exit 0%Z v
            /\ errors v = [] /\ warnings v = [].
Proof. eexists. split; [vm_compute; reflexivity|]. split; reflexivity. Qed.

(** (b) Without [Relations]: one structural error, nothing indexed. *)
Example scenario_no_relations :
  exists v, main Fixture.repo_no_relations None false = Exit 1%Z v
            /\ errors v = [MissingTopLevelFolder "Relations"]
            /\ file_meta v = [].
Proof. eexists. split; [vm_compute; reflexivity|]. split; reflexivity. Qed.

(** (c) A correct reference passes; a wrong fragment is one error. *)
Example scenario_reference :
  (exists v, main Fixture.repo_ok None false = Exit 0%Z v /\ errors v = [])
  /\ exists v, main Fixture.repo_wrong_fragment None false = Exit 1%Z v
               /\ errors v = [HrefIdDoesNotMatch "id-7" "id-1" "BusinessActor_id-1.xml#id-7"
                                 Fixture.rel_path].
Proof. split; eexists; (split; [vm_compute; reflexivity | reflexivity]). Qed.

(** (d) A source outside the group of the only rule: one legality error. *)
Example scenario_illegal_association :
  exists v, main Fixture.repo_illegal_association None false = Exit 1%Z v
            /\ errors v = [RelationshipNotAllowed "AssociationRelationship"
                              "ApplicationComponent" "BusinessActor" Fixture.rel_path].
Proof. eexists. split; [vm_compute; reflexivity | reflexivity]. Qed.

(** (e) A connection that ends outside its own diagram: one error. *)
Example scenario_dangling_endpoint :
  exists v, main Fixture.repo_two_diagrams None false = Exit 1%Z v
            /\ errors v = [ConnectionEndNotFound Target (Some "o-2") Fixture.diagram_a_path].
Proof. eexists. split; [vm_compute; reflexivity | reflexivity]. Qed.

(** A file that does not parse and a reference to it: the parse error of
    the index, then the error of the on-demand parse. *)
Example scenario_broken_target :
  exists v, main Fixture.repo_broken_target None false = Exit 1%Z v
            /\ errors v = [ParseFailure Fixture.broken_msg;
                           FailedToParseTarget "BusinessRole_id-9.xml#id-9" Fixture.broken_msg].
Proof. eexists. split; [vm_compute; reflexivity | reflexivity]. Qed.

(** ** The relationship phase with a side absent *)

Module RelFacts.

(** With a rule set loaded, a relationship file that lacks a side makes
    the phase raise, whatever else the file holds. *)
Lemma missing_side_raises (v : Validator) (p : Path) (root_local rid : string)
    (root : Element) :
  Str.endswith root_local "Relationship" = true ->
  parse_xml (repo v) p = ParseOk root ->
  rules_loaded (relation_rules v) = true ->
  side_elems Source root = [] \/ side_elems Target root = [] ->
  check_relationship (p, (root_local, rid)) v
  = (Raises IndexError, fail_all (relationship_shape_errors root p) v).
Proof.
  intros He Hp Hl Hside. unfold check_relationship. rewrite He. cbn [negb].
  unfold bind, gets. rewrite Hp. unfold modify, relationship_rule_check, bind, gets.
  change (relation_rules (fail_all (relationship_shape_errors root p) v))
    with (relation_rules v).
  rewrite Hl. destruct Hside as [-> | Ht]; [reflexivity|].
  rewrite Ht. destruct (side_elems Source root); reflexivity.
Qed.

(** Without a rule set, the same file gets the errors of its shape and
    the phase goes on. *)
Lemma missing_side_without_rules (v : Validator) (p : Path) (root_local rid : string)
    (root : Element) :
  Str.endswith root_local "Relationship" = true ->
  parse_xml (repo v) p = ParseOk root ->
  rules_loaded (relation_rules v) = false ->
  check_relationship (p, (root_local, rid)) v
  = (Returns tt, fail_all (relationship_shape_errors root p) v).
Proof.
  intros He Hp Hl. unfold check_relationship. rewrite He. cbn [negb].
  unfold bind, gets. rewrite Hp. unfold modify, relationship_rule_check, bind, gets.
  change (relation_rules (fail_all (relationship_shape_errors root p) v))
    with (relation_rules v).
  rewrite Hl. reflexivity.
Qed.

(** A side that is absent gives exactly one error, the one for its
    count, when the other side is complete. *)
Lemma missing_source_one_error (root : Element) (p : Path) (t : Element) :
  side_elems Source root = [] ->
  side_elems Target root = [t] ->
  Str.falsy_opt (Xml.get t "href") = false ->
  Str.falsy_opt (Xml.get t XSI_TYPE) = false ->
  relationship_shape_errors root p = [RelationshipMissingSingle Source p].
Proof.
  intros Hs Ht Hh Hx. unfold relationship_shape_errors, side_count_errors, side_attr_errors.
  rewrite Hs, Ht, Hh, Hx. reflexivity.
Qed.

End RelFacts.

(** * Further properties of the code *)

Set Warnings "-clear-no-such-hyp".

(** ** The patterns, completely *)

Module PatternFacts.
Import Str Re StrFacts ReFacts.

Lemma strip_final_newline_snoc (l : list ascii) (c : ascii) :
  strip_final_newline (l ++ [c]) = if ascii_eqb c newline then l else l ++ [c].
Proof.
  unfold strip_final_newline. rewrite reverse_app. simpl.
  destruct (ascii_eqb c newline); [apply reverse_involutive | reflexivity].
Qed.

Lemma strip_final_newline_keep (l : list ascii) (c : ascii) :
  c <> newline -> strip_final_newline (l ++ [c]) = l ++ [c].
Proof.
  intros Hc. rewrite strip_final_newline_snoc.
  destruct (ascii_eqb c newline) eqn:E; [|reflexivity].
  apply ascii_eqb_eq in E. contradiction.
Qed.

Lemma strip_final_newline_nil : strip_final_newline [] = [].
Proof. reflexivity. Qed.

(** A subject without a newline is left as it is. *)
Lemma strip_final_newline_id (l : list ascii) :
  ~ In newline l -> strip_final_newline l = l.
Proof.
  destruct l as [|x l'] using rev_ind; [reflexivity|]. intros Hn.
  apply strip_final_newline_keep. intros ->. apply Hn. apply in_or_app.
  right. left. reflexivity.
Qed.

Lemma mem_true_in (c : ascii) (l : list ascii) : mem c l = true <-> In c l.
Proof.
  destruct (mem c l) eqn:E.
  - split; [|reflexivity]. intros _. unfold mem in E. apply existsb_exists in E.
    destruct E as (x & Hx & Hc). apply ascii_eqb_eq in Hc. subst. exact Hx.
  - apply mem_false_not_in in E. split; [discriminate | contradiction].
Qed.

Lemma dot_plus_end_complete (g : list ascii) :
  g <> [] -> ~ In newline g -> dot_plus_end g = Some g.
Proof.
  intros Hg Hn. unfold dot_plus_end. rewrite (strip_final_newline_id _ Hn).
  destruct g as [|c g]; [contradiction|].
  apply mem_false_not_in in Hn. rewrite Hn. reflexivity.
Qed.

Lemma ends_with_suffix (x suf : list ascii) : ends_with suf (x ++ suf) = true.
Proof.
  unfold ends_with. rewrite length_app. apply andb_true_iff. split.
  - apply Nat.leb_le. lia.
  - replace (length x + length suf - length suf) with (length x) by lia.
    rewrite drop_app_length. apply eqb_chars_eq. reflexivity.
Qed.

Lemma dot_plus_xml_end_complete (g : list ascii) :
  g <> [] -> ~ In newline g -> dot_plus_xml_end (g ++ dot_xml) = Some g.
Proof.
  intros Hg Hn. unfold dot_plus_xml_end.
  assert (Hs : strip_final_newline (g ++ dot_xml) = g ++ dot_xml).
  { change dot_xml with (chars ".xm" ++ ["l"%char]). rewrite app_assoc.
    apply strip_final_newline_keep. discriminate. }
  rewrite Hs, ends_with_suffix, length_app. change (length dot_xml) with 4.
  replace (length g + 4 - 4) with (length g) by lia.
  rewrite take_app_length. destruct g as [|c g]; [contradiction|].
  apply mem_false_not_in in Hn. rewrite Hn. reflexivity.
Qed.

Lemma span_length_app (p : ascii -> bool) (a b : list ascii) :
  Forall (fun c => p c = true) a -> length a <= span_length p (a ++ b).
Proof.
  induction 1 as [|c a Hc _ IH]; simpl; [lia|]. rewrite Hc. lia.
Qed.

(** The backtracking finds a split at least as long as any split there is. *)
Lemma filename_backtrack_complete (l : list ascii) (n m : nat) (rest f : list ascii) :
  1 <= m <= n ->
  drop m l = underscore :: rest ->
  dot_plus_xml_end rest = Some f ->
  exists m' fid, m <= m' <= n /\ filename_backtrack l n = Some (take m' l, fid).
Proof.
  intros Hm Hd Hf. induction n as [|n IH]; [lia|].
  rewrite filename_backtrack_S.
  assert (Hrec : S n <> m ->
                 exists m' fid, m <= m' <= S n
                   /\ filename_backtrack l n = Some (take m' l, fid)).
  { intros Hne. destruct IH as (m' & fid & Hm' & He); [lia|].
    exists m', fid. split; [lia | exact He]. }
  destruct (decide (S n = m)) as [<-|Hne].
  - rewrite Hd, ascii_eqb_refl, Hf. exists (S n), f. split; [lia | reflexivity].
  - destruct (drop (S n) l) as [|c r]; [auto|].
    destruct (ascii_eqb c underscore); [|auto].
    destruct (dot_plus_xml_end r) as [g|]; [|auto].
    exists (S n), g. split; [lia | reflexivity].
Qed.

Lemma href_backtrack_complete (l : list ascii) (n m : nat) (frag : list ascii) :
  1 <= m <= n ->
  drop m l = dot_xml_hash ++ frag ->
  dot_plus_end frag = Some frag ->
  exists m' g, m <= m' <= n /\ href_backtrack l n = Some (take (m' + 4) l, g).
Proof.
  intros Hm Hd Hf. induction n as [|n IH]; [lia|].
  rewrite href_backtrack_S.
  assert (Hrec : S n <> m ->
                 exists m' g, m <= m' <= S n
                   /\ href_backtrack l n = Some (take (m' + 4) l, g)).
  { intros Hne. destruct IH as (m' & g & Hm' & He); [lia|].
    exists m', g. split; [lia | exact He]. }
  destruct (decide (S n = m)) as [<-|Hne].
  - rewrite Hd. change (starts_with dot_xml_hash (dot_xml_hash ++ frag))
      with (starts_with [] frag). simpl starts_with. cbv iota.
    change (drop 5 (dot_xml_hash ++ frag)) with frag. rewrite Hf.
    exists (S n), frag. split; [lia | reflexivity].
  - destruct (starts_with dot_xml_hash (drop (S n) l)); [|auto].
    destruct (dot_plus_end (drop 5 (drop (S n) l))) as [g|]; [|auto].
    exists (S n), g. split; [lia | reflexivity].
Qed.

End PatternFacts.

(** X1: every name of the form [<token>_<rest>.xml] matches
    [FILENAME_RE], and every name it matches has that form, with or
    without one final newline after [.xml] (the pattern's [$] accepts it);
    of all the ways to read a name so, it takes the one with the longest
    token, so an identifier that has underscores after letters and digits
    loses them to the token. *)
Theorem filename_pattern_exact (base : string) :
  (forall cls fid,
     Re.FILENAME_RE base = Some (cls, fid) ->
     (exists tail,
        Str.chars base
        = Str.chars cls ++ Str.underscore :: Str.chars fid ++ Str.chars ".xml" ++ tail
        /\ (tail = [] \/ tail = [Str.newline]))
     /\ Str.chars cls <> []
     /\ Forall (fun c => Str.is_word c = true) (Str.chars cls)
     /\ Str.chars fid <> [] /\ ~ In Str.newline (Str.chars fid)
     /\ forall c f, FilenameSplit base c f -> length c <= length (Str.chars cls))
  /\ (forall c f, FilenameSplit base c f -> is_Some (Re.FILENAME_RE base)).
Proof.
  assert (Hfind : forall c f, FilenameSplit base c f ->
            exists m' g, length c <= m' <= Re.span_length Str.is_word (Str.chars base)
              /\ Re.filename_backtrack (Str.chars base)
                   (Re.span_length Str.is_word (Str.chars base))
                 = Some (take m' (Str.chars base), g)).
  { intros c f (Hl & Hc & Hw & Hf & Hn).
    apply (PatternFacts.filename_backtrack_complete _ _ _ (f ++ Re.dot_xml) f).
    - split.
      + destruct c; [contradiction | simpl; lia].
      + rewrite Hl. apply PatternFacts.span_length_app. exact Hw.
    - rewrite Hl. apply drop_app_length.
    - apply PatternFacts.dot_plus_xml_end_complete; assumption. }
  split.
  - intros cls fid H. unfold Re.FILENAME_RE in H.
    destruct (Re.filename_backtrack _ _) as [[c g]|] eqn:E; [|discriminate].
    injection H as <- <-.
    destruct (ReFacts.filename_backtrack_sound _ _ _ _ E) as (m & rest & Hm & Hc & Hl & Hd).
    destruct (StrFacts.span_length_take _ _ _ (proj2 Hm)) as [Hlen Hall].
    destruct (StrFacts.dot_plus_xml_end_sound _ _ Hd) as (Hg & Hnl & Hrest).
    rewrite !ReFacts.chars_of_chars. subst c.
    split; [|split; [|split; [|split; [|split]]]].
    + destruct Hrest as [->| ->].
      * exists []. rewrite app_nil_r. split; [exact Hl | left; reflexivity].
      * exists [Str.newline]. split; [exact Hl | right; reflexivity].
    + intros Hnil. rewrite Hnil in Hlen. simpl in Hlen. lia.
    + exact Hall.
    + exact Hg.
    + exact Hnl.
    + intros c' f' Hs. destruct (Hfind c' f' Hs) as (m' & g' & Hm' & E').
      injection E' as Ht _.
      destruct (StrFacts.span_length_take _ _ _ (proj2 Hm')) as [Hlen' _].
      rewrite Ht, Hlen'. lia.
  - intros c f Hs. destruct (Hfind c f Hs) as (m' & g' & _ & E').
    unfold Re.FILENAME_RE. cbv zeta. rewrite E'. eauto.
Qed.

(** X2: every value of the form [<segment>.xml#<fragment>] matches the
    reference pattern, and every value it matches has that form, with or
    without one final newline, which is not part of the fragment it
    captures; the file name it captures never holds a directory separator,
    and the fragment it captures is never empty and holds no newline. *)
Theorem href_pattern_exact (href : string) :
  (forall fname frag,
     Re.HREF_RE href = Some (fname, frag) ->
     (exists seg tail,
        Str.chars href = seg ++ Str.chars ".xml#" ++ Str.chars frag ++ tail
        /\ Str.chars fname = seg ++ Str.chars ".xml"
        /\ seg <> [] /\ (tail = [] \/ tail = [Str.newline]))
     /\ ~ In Str.slash (Str.chars fname)
     /\ Str.chars frag <> [] /\ ~ In Str.newline (Str.chars frag))
  /\ (forall seg frag, HrefSplit href seg frag -> is_Some (Re.HREF_RE href)).
Proof.
  split.
  - intros fname frag H. unfold Re.HREF_RE in H.
    destruct (Re.href_backtrack _ _) as [[f g]|] eqn:E; [|discriminate].
    injection H as <- <-.
    destruct (StrFacts.href_backtrack_sound _ _ _ _ E) as (m & Hm & Hf & Hl & Hd).
    destruct (StrFacts.span_length_take _ _ _ (proj2 Hm)) as [Hlen Hall].
    destruct (StrFacts.dot_plus_end_sound _ _ Hd) as (Hg & Hnl & Hrest).
    rewrite !ReFacts.chars_of_chars.
    assert (Hslash : ~ In Str.slash (take m (Str.chars href))).
    { intros Hin. rewrite Forall_forall in Hall.
      apply list_elem_of_In in Hin. specialize (Hall _ Hin).
      rewrite StrFacts.ascii_eqb_refl in Hall. discriminate. }
    split; [|split; [|split]].
    + exists (take m (Str.chars href)).
      destruct Hrest as [Hr|Hr].
      * exists []. rewrite app_nil_r. rewrite Hr in Hl.
        split; [exact Hl|]. split; [exact Hf|]. split; [|left; reflexivity].
        intros Hnil. rewrite Hnil in Hlen. simpl in Hlen. lia.
      * exists [Str.newline]. rewrite Hr in Hl.
        split; [exact Hl|]. split; [exact Hf|]. split; [|right; reflexivity].
        intros Hnil. rewrite Hnil in Hlen. simpl in Hlen. lia.
    + rewrite Hf. intros Hin. apply in_app_or in Hin. destruct Hin as [Hin|Hin].
      * exact (Hslash Hin).
      * simpl in Hin. intuition discriminate.
    + exact Hg.
    + exact Hnl.
  - intros seg frag (Hl & Hs & Hsl & Hf & Hn).
    destruct (PatternFacts.href_backtrack_complete (Str.chars href)
                (Re.span_length (fun c => negb (Str.ascii_eqb c Str.slash)) (Str.chars href))
                (length seg) frag) as (m' & g & _ & E).
    + split.
      * destruct seg; [contradiction | simpl; lia].
      * rewrite Hl. apply PatternFacts.span_length_app.
        apply Forall_forall. intros c Hc. apply negb_true_iff.
        destruct (Str.ascii_eqb c Str.slash) eqn:Ec; [|reflexivity].
        apply StrFacts.ascii_eqb_eq in Ec. subst c.
        exfalso. apply Hsl. apply list_elem_of_In. exact Hc.
    + rewrite Hl. apply drop_app_length.
    + apply PatternFacts.dot_plus_end_complete; assumption.
    + unfold Re.HREF_RE. rewrite E. eauto.
Qed.

(** X3: [ID_RECOMMENDED] accepts exactly [id-] followed by 32 hexadecimal
    digits, with or without one final newline. *)
Theorem id_recommended_exact (s : string) :
  Re.ID_RECOMMENDED s = true <->
  exists h tail,
    Str.chars s = Str.chars "id-" ++ h ++ tail
    /\ length h = 32 /\ Forall (fun c => Str.is_hex c = true) h
    /\ (tail = [] \/ tail = [Str.newline]).
Proof.
  unfold Re.ID_RECOMMENDED. split.
  - intros H. apply andb_true_iff in H. destruct H as [H H3].
    apply andb_true_iff in H. destruct H as [H1 H2].
    apply StrFacts.starts_with_app in H1. change (length (Str.chars "id-")) with 3 in H1.
    apply Nat.eqb_eq in H2.
    exists (drop 3 (Re.strip_final_newline (Str.chars s))).
    destruct (StrFacts.strip_final_newline_cases (Str.chars s)) as [Hc|Hc].
    + exists []. rewrite app_nil_r. split; [congruence|]. split; [exact H2|].
      split; [|left; reflexivity]. apply Forall_forall. intros c Hc'.
      rewrite forallb_forall in H3. apply H3. apply list_elem_of_In. exact Hc'.
    + exists [Str.newline]. split.
      * rewrite Hc at 1. rewrite H1 at 1. rewrite <- app_assoc. reflexivity.
      * split; [exact H2|]. split; [|right; reflexivity].
        apply Forall_forall. intros c Hc'.
        rewrite forallb_forall in H3. apply H3. apply list_elem_of_In. exact Hc'.
  - intros (h & tail & Hl & Hlen & Hhex & Ht).
    assert (Hs : Re.strip_final_newline (Str.chars s) = Str.chars "id-" ++ h).
    { rewrite Hl. destruct Ht as [->| ->].
      - rewrite app_nil_r.
        destruct h as [|c h'] using rev_ind; [simpl in Hlen; lia|].
        rewrite app_assoc. apply PatternFacts.strip_final_newline_keep.
        apply Forall_app in Hhex. destruct Hhex as [_ Hc].
        inversion Hc as [|? ? Hx _]; subst. intros ->. vm_compute in Hx. discriminate.
      - rewrite app_assoc, PatternFacts.strip_final_newline_snoc.
        rewrite StrFacts.ascii_eqb_refl. reflexivity. }
    rewrite Hs. change (drop 3 (Str.chars "id-" ++ h)) with h.
    change (Str.starts_with (Str.chars "id-") (Str.chars "id-" ++ h)) with true.
    rewrite Hlen. simpl. apply forallb_forall. intros c Hc.
    rewrite Forall_forall in Hhex. apply Hhex. apply list_elem_of_In. exact Hc.
Qed.

(** ** The index, completely *)

Module IndexMore.
Import IndexFacts.

Lemma truthy_or_empty (o : option string) :
  Str.truthy (Str.or_empty o) = negb (Str.falsy_opt o).
Proof. destruct o as [s|]; simpl; [destruct (Str.truthy s)|]; reflexivity. Qed.

Lemma index_file_get_other (p q : Path) (w : Validator) :
  q <> p -> Dict.get p (file_meta (index_file q w)) = Dict.get p (file_meta w).
Proof.
  intros Hne. unfold index_file.
  destruct (String.eqb (name q) "folder.xml"); [reflexivity|].
  destruct (parse_xml (repo w) q); [reflexivity|].
  destruct (Str.truthy _); simpl; apply DictFacts.get_set_ne; exact Hne.
Qed.

Lemma index_file_get_ok (p : Path) (w : Validator) (root : Element) :
  name p <> "folder.xml" -> parse_xml (repo w) p = ParseOk root ->
  Dict.get p (file_meta (index_file p w)) = Some (meta_of root).
Proof.
  intros Hn Hp. unfold index_file. apply String.eqb_neq in Hn. rewrite Hn, Hp.
  destruct (Str.truthy _); simpl; apply DictFacts.get_set_eq.
Qed.

Lemma index_file_get_inv (p q : Path) (w : Validator) (meta : string * string) :
  Dict.get p (file_meta (index_file q w)) = Some meta ->
  Dict.get p (file_meta w) = Some meta
  \/ (q = p /\ name p <> "folder.xml"
      /\ exists root, parse_xml (repo w) p = ParseOk root /\ meta = meta_of root).
Proof.
  destruct (decide (q = p)) as [->|Hne].
  - destruct (String.eqb (name p) "folder.xml") eqn:En.
    + unfold index_file. rewrite En. auto.
    + destruct (parse_xml (repo w) p) as [msg|root] eqn:Ep.
      * unfold index_file. rewrite En, Ep. auto.
      * apply String.eqb_neq in En. rewrite (index_file_get_ok _ _ _ En Ep).
        intros [= <-]. right. split; [reflexivity|]. split; [exact En|]. eauto.
  - rewrite (index_file_get_other _ _ _ Hne). auto.
Qed.

Lemma index_fold_get_keep (p : Path) (root : Element) (l : list Path) (w : Validator) :
  parse_xml (repo w) p = ParseOk root ->
  Dict.get p (file_meta w) = Some (meta_of root) ->
  Dict.get p (file_meta (foldl (fun w' q => index_file q w') w l)) = Some (meta_of root).
Proof.
  revert w. induction l as [|q l IH]; intros w Hp Hg; simpl; [exact Hg|].
  apply IH; [rewrite index_file_repo; exact Hp|].
  destruct (decide (q = p)) as [->|Hne].
  - destruct (String.eqb (name p) "folder.xml") eqn:En.
    + unfold index_file. rewrite En. exact Hg.
    + apply String.eqb_neq in En. exact (index_file_get_ok _ _ _ En Hp).
  - rewrite (index_file_get_other _ _ _ Hne). exact Hg.
Qed.

Lemma index_fold_get_listed (p : Path) (root : Element) (l : list Path) (w : Validator) :
  In p l -> name p <> "folder.xml" -> parse_xml (repo w) p = ParseOk root ->
  Dict.get p (file_meta (foldl (fun w' q => index_file q w') w l)) = Some (meta_of root).
Proof.
  revert w. induction l as [|q l IH]; intros w Hin Hn Hp; [destruct Hin|].
  simpl. destruct (decide (q = p)) as [->|Hne].
  - apply index_fold_get_keep; [rewrite index_file_repo; exact Hp|].
    exact (index_file_get_ok _ _ _ Hn Hp).
  - destruct Hin as [Hq|Hin]; [contradiction|].
    apply IH; [exact Hin | exact Hn | rewrite index_file_repo; exact Hp].
Qed.

Lemma index_fold_get_inv (p : Path) (meta : string * string) (l : list Path)
    (w : Validator) :
  Dict.get p (file_meta (foldl (fun w' q => index_file q w') w l)) = Some meta ->
  Dict.get p (file_meta w) = Some meta
  \/ (In p l /\ name p <> "folder.xml"
      /\ exists root, parse_xml (repo w) p = ParseOk root /\ meta = meta_of root).
Proof.
  revert w. induction l as [|q l IH]; intros w Hg; simpl in Hg; [auto|].
  apply IH in Hg. rewrite index_file_repo in Hg.
  destruct Hg as [Hg|(Hin & Hrest)].
  - apply index_file_get_inv in Hg. destruct Hg as [Hg|(-> & Hrest)]; [auto|].
    right. split; [left; reflexivity | exact Hrest].
  - right. split; [right; exact Hin | exact Hrest].
Qed.

Lemma index_file_errors_iff (q : Path) (w : Validator) (m : Msg) :
  In m (errors (index_file q w)) <-> In m (errors w) \/ IndexingFault (repo w) q m.
Proof.
  unfold index_file, IndexingFault.
  destruct (String.eqb (name q) "folder.xml") eqn:En.
  - apply String.eqb_eq in En. split; [auto|]. intros [H|[H _]]; [exact H | contradiction].
  - apply String.eqb_neq in En.
    destruct (parse_xml (repo w) q) as [msg|root] eqn:Ep; simpl.
    + rewrite in_app_iff. simpl. split.
      * intros [H|[<-|[]]]; [auto|]. right. split; [exact En|]. left. eauto.
      * intros [H|[_ [(msg' & [= <-] & ->)|(root & Hr & _)]]]; [auto| |discriminate].
        right. left. reflexivity.
    + rewrite truthy_or_empty.
      destruct (Str.falsy_opt (Xml.get root "id")) eqn:Ef; simpl.
      * rewrite in_app_iff. simpl. split.
        -- intros [H|[<-|[]]]; [auto|]. right. split; [exact En|]. right.
           exists root. auto.
        -- intros [H|[_ [(msg' & Hr & _)|(root' & [= <-] & _ & ->)]]];
             [auto | discriminate |]. right. left. reflexivity.
      * split; [auto|].
        intros [H|[_ [(msg' & Hr & _)|(root' & [= <-] & Hf & _)]]];
          [exact H | discriminate | congruence].
Qed.

Lemma index_fold_errors_iff (l : list Path) (w : Validator) (m : Msg) :
  In m (errors (foldl (fun w' q => index_file q w') w l)) <->
  In m (errors w) \/ exists p, In p l /\ IndexingFault (repo w) p m.
Proof.
  revert w. induction l as [|q l IH]; intros w; simpl.
  - split; [auto|]. intros [H|(p & [] & _)]. exact H.
  - rewrite IH, index_file_errors_iff, index_file_repo. split.
    + intros [[H|H]|(p & Hp & Hf)]; [auto | right; exists q; auto | right; exists p; auto].
    + intros [H|(p & [->|Hp] & Hf)]; [auto | auto | right; exists p; auto].
Qed.

Lemma index_file_basename_inv (q : Path) (w : Validator) (nm : string) (p : Path) :
  basename_to_path (index_file q w) !! nm = Some p ->
  basename_to_path w !! nm = Some p \/ (q = p /\ name p = nm /\ nm <> "folder.xml").
Proof.
  destruct (String.eqb (name q) "folder.xml") eqn:En.
  - unfold index_file. rewrite En. auto.
  - apply String.eqb_neq in En. rewrite (index_file_basename _ _ En).
    destruct (decide (name q = nm)) as [<-|Hne].
    + rewrite lookup_insert_eq. intros [= <-]. right. auto.
    + rewrite lookup_insert_ne by exact Hne. auto.
Qed.

Lemma index_fold_basename_inv (l : list Path) (w : Validator) (nm : string) (p : Path) :
  basename_to_path (foldl (fun w' q => index_file q w') w l) !! nm = Some p ->
  basename_to_path w !! nm = Some p
  \/ (In p l /\ name p = nm /\ nm <> "folder.xml").
Proof.
  revert w. induction l as [|q l IH]; intros w H; simpl in H; [auto|].
  apply IH in H. destruct H as [H|(Hin & Hrest)].
  - apply index_file_basename_inv in H. destruct H as [H|(-> & Hrest)]; [auto|].
    right. split; [left; reflexivity | exact Hrest].
  - right. split; [right; exact Hin | exact Hrest].
Qed.

Lemma index_fold_basename_last (l1 l2 : list Path) (p : Path) (w : Validator) :
  name p <> "folder.xml" ->
  (forall q, In q l2 -> name q <> name p) ->
  basename_to_path (foldl (fun w' q => index_file q w') w (l1 ++ p :: l2)) !! name p = Some p.
Proof.
  intros Hn Hl2. rewrite foldl_app. simpl.
  rewrite index_fold_basename_other by exact Hl2.
  rewrite (index_file_basename _ _ Hn). apply lookup_insert_eq.
Qed.

End IndexMore.

(** X4: starting from an empty table, [index_files] gives metadata to
    exactly the listed files that are not named [folder.xml] and parse:
    the local name of the root and its identifier, the empty string when
    the root has none. *)
Theorem index_files_complete (v : Validator) (p : Path) (meta : string * string) :
  file_meta v = [] ->
  (Dict.get p (file_meta (snd (index_files v))) = Some meta <->
   In p (rglob (repo v)) /\ name p <> "folder.xml"
   /\ exists root, parse_xml (repo v) p = ParseOk root /\ meta = meta_of root).
Proof.
  intros Hf. rewrite IndexFacts.index_files_eq. simpl. split.
  - intros H. apply IndexMore.index_fold_get_inv in H.
    destruct H as [H|H]; [rewrite Hf in H; discriminate | exact H].
  - intros (Hin & Hn & root & Hp & ->).
    apply IndexMore.index_fold_get_listed; assumption.
Qed.

(** X5: the errors [index_files] adds are exactly one parse failure for
    each listed file that does not parse and one missing-identifier error
    for each that parses without a usable identifier; a file named
    [folder.xml] adds none, and a failure never stops the loop. *)
Theorem index_files_errors (v : Validator) (m : Msg) :
  fst (index_files v) = Returns tt
  /\ (In m (errors (snd (index_files v))) <->
      In m (errors v) \/ exists p, In p (rglob (repo v)) /\ IndexingFault (repo v) p m).
Proof.
  rewrite IndexFacts.index_files_eq. simpl. split; [reflexivity|].
  apply IndexMore.index_fold_errors_iff.
Qed.

(** X6: the map from base names to paths holds only listed files, each
    under its own name and never [folder.xml]; when several listed files
    share a name, the one listed last has the entry. *)
Theorem index_files_basenames (v : Validator) :
  (forall nm p,
     basename_to_path (snd (index_files v)) !! nm = Some p ->
     basename_to_path v !! nm = Some p
     \/ (In p (rglob (repo v)) /\ name p = nm /\ nm <> "folder.xml"))
  /\ (forall l1 p l2,
        rglob (repo v) = l1 ++ p :: l2 ->
        name p <> "folder.xml" ->
        (forall q, In q l2 -> name q <> name p) ->
        basename_to_path (snd (index_files v)) !! name p = Some p).
Proof.
  rewrite IndexFacts.index_files_eq. simpl. split.
  - intros nm p. apply IndexMore.index_fold_basename_inv.
  - intros l1 p l2 -> Hn Hl2. apply IndexMore.index_fold_basename_last; assumption.
Qed.

(** ** References after indexing *)

Module HrefMore.

Lemma check_href_one_error (p : Path) (href : string) (v : Validator) :
  exists es,
    errors (check_href p href v) = errors v ++ es /\ length es <= 1
    /\ warnings (check_href p href v) = warnings v
    /\ repo (check_href p href v) = repo v.
Proof.
  assert (Hfail : forall m w, repo w = repo v -> warnings w = warnings v ->
                    errors w = errors v ->
                    exists es, errors (fail m w) = errors v ++ es /\ length es <= 1
                      /\ warnings (fail m w) = warnings v /\ repo (fail m w) = repo v).
  { intros m w Hr Hw He. exists [m]. simpl. rewrite He. auto. }
  assert (Hsame : forall w, repo w = repo v -> warnings w = warnings v ->
                    errors w = errors v ->
                    exists es, errors w = errors v ++ es /\ length es <= 1
                      /\ warnings w = warnings v /\ repo w = repo v).
  { intros w Hr Hw He. exists []. rewrite app_nil_r. simpl. auto. }
  unfold check_href, _resolve_href.
  destruct (Re.HREF_RE href) as [[fname frag]|]; [|apply Hfail; reflexivity].
  destruct (basename_to_path v !! fname) as [tgt|]; [|apply Hfail; reflexivity].
  destruct (Dict.get tgt (file_meta v)) as [[tl trid]|].
  - destruct (negb (String.eqb frag trid)); [apply Hfail | apply Hsame]; reflexivity.
  - destruct (parse_xml (repo v) tgt) as [msg|troot]; [apply Hfail; reflexivity|].
    destruct (negb (String.eqb frag _)); [apply Hfail | apply Hsame]; reflexivity.
Qed.

Lemma check_href_fold_errors (p : Path) (hs : list string) (v : Validator) :
  exists es,
    errors (foldl (fun w h => check_href p h w) v hs) = errors v ++ es
    /\ length es <= length hs
    /\ warnings (foldl (fun w h => check_href p h w) v hs) = warnings v.
Proof.
  revert v. induction hs as [|h hs IH]; intros v; simpl.
  - exists []. rewrite app_nil_r. auto.
  - destruct (check_href_one_error p h v) as (e1 & He1 & Hl1 & Hw1 & _).
    destruct (IH (check_href p h v)) as (e2 & He2 & Hl2 & Hw2).
    exists (e1 ++ e2). rewrite He2, He1, Hw2, Hw1, app_assoc, length_app.
    split; [reflexivity|]. split; [lia | reflexivity].
Qed.

End HrefMore.

(** X7: after [index_files] on a fresh validator, [check_hrefs] always
    returns and leaves both tables as they were: the parse on demand never
    succeeds, so the dictionary is never changed while it is iterated. *)
Theorem check_hrefs_after_index (v : Validator) :
  file_meta v = [] -> basename_to_path v = ∅ ->
  exists v1 v2,
    index_files v = (Returns tt, v1)
    /\ check_hrefs v1 = (Returns tt, v2)
    /\ file_meta v2 = file_meta v1
    /\ basename_to_path v2 = basename_to_path v1.
Proof.
  intros Hf Hb.
  pose proof (Phases.index_files_ends v (Phases.initial_indexed v Hf Hb)) as H1.
  unfold Ends in H1. destruct (index_files v) as [[[]|e] v1]; [|destruct H1].
  destruct H1 as [_ Hi1].
  pose proof (Phases.check_hrefs_ends v1 Hi1) as H2.
  unfold Ends in H2. destruct (check_hrefs v1) as [[[]|e] v2] eqn:E2; [|destruct H2].
  exists v1, v2. destruct H2 as [_ Hsb Hsf].
  split; [reflexivity|]. split; [exact E2|]. split; assumption.
Qed.

(** X8: each [href] value adds at most one error, so checking the
    references of a file that parses adds at most as many errors as the
    file has [href] attributes, and no warning; a file that no longer
    parses is passed over without a diagnostic. *)
Theorem check_hrefs_file_bound (p : Path) (v : Validator) :
  (forall root,
     parse_xml (repo v) p = ParseOk root ->
     exists es,
       errors (snd (check_hrefs_file p v)) = errors v ++ es
       /\ length es <= length (hrefs root)
       /\ warnings (snd (check_hrefs_file p v)) = warnings v)
  /\ (forall msg, parse_xml (repo v) p = ParseFail msg ->
                  check_hrefs_file p v = (Returns tt, v)).
Proof.
  split.
  - intros root Hp. rewrite (HrefFacts.check_hrefs_file_eq p v root Hp). simpl.
    apply HrefMore.check_href_fold_errors.
  - intros msg Hp. unfold check_hrefs_file, modify. rewrite Hp. reflexivity.
Qed.

(** ** The rule engine, further *)

Module RuleMore.

Lemma rules_loop_existsb (gs : gmap string (list string)) (rtype src tgt : string)
    (rules : list Rule) :
  rules_loop gs rtype src tgt rules = existsb (rule_allows gs rtype src tgt) rules.
Proof.
  induction rules as [|r rs IH]; simpl; [reflexivity|].
  destruct (rule_allows gs rtype src tgt r); [reflexivity | exact IH].
Qed.

Lemma existsb_permutation {A} (f : A -> bool) (l l' : list A) :
  Permutation l l' -> existsb f l = existsb f l'.
Proof.
  induction 1 as [|x l l' _ IH|x y l|l l' l'' _ IH1 _ IH2]; simpl.
  - reflexivity.
  - rewrite IH. reflexivity.
  - destruct (f x), (f y); reflexivity.
  - congruence.
Qed.

End RuleMore.

(** X9: the order of the rules never changes the verdict: two rule lists
    that are permutations of each other allow the same triples. *)
Theorem rule_order_irrelevant (rules rules' : list Rule)
    (gs : option (gmap string (list string))) (other : bool) (rtype src tgt : string) :
  Permutation rules rules' ->
  _is_relationship_allowed (mkRuleDoc (Some rules) gs other) rtype src tgt
  = _is_relationship_allowed (mkRuleDoc (Some rules') gs other) rtype src tgt.
Proof.
  intros Hp. unfold _is_relationship_allowed. simpl.
  rewrite !RuleMore.rules_loop_existsb.
  rewrite (RuleMore.existsb_permutation _ _ _ Hp).
  rewrite (RuleMore.existsb_permutation (rule_for_type rtype) _ _ Hp). reflexivity.
Qed.

(** X10: under a loaded rule set in which every rule that covers a
    relationship type (by name or by the wildcard) sets [sameClass], a
    triple of that type whose source and target types differ is illegal as
    soon as one rule names the type. *)
Theorem same_class_rules_forbid (d : RuleDoc) (rtype src tgt : string) :
  rules_loaded d = true ->
  (forall r, In r (default [] (doc_rules d)) ->
             relationship_covers r rtype = true -> sameClass r = true) ->
  (exists r, In r (default [] (doc_rules d)) /\ relationship r = Some rtype) ->
  src <> tgt ->
  _is_relationship_allowed d rtype src tgt = false.
Proof.
  intros Hl Hall (r0 & Hin0 & Hr0) Hne. unfold _is_relationship_allowed. rewrite Hl. simpl.
  assert (Hloop : rules_loop (default ∅ (doc_groups d)) rtype src tgt
                    (default [] (doc_rules d)) = false).
  { rewrite RuleMore.rules_loop_existsb.
    destruct (existsb _ _) eqn:E; [|reflexivity].
    apply existsb_exists in E. destruct E as (r & Hin & Hr).
    unfold rule_allows in Hr.
    destruct (relationship_covers r rtype) eqn:Ec; [|discriminate].
    simpl in Hr. rewrite (Hall r Hin Ec) in Hr.
    apply String.eqb_neq in Hne. rewrite Hne in Hr. discriminate. }
  rewrite Hloop.
  assert (Hex : existsb (rule_for_type rtype) (default [] (doc_rules d)) = true).
  { apply existsb_exists. exists r0. split; [exact Hin0|].
    unfold rule_for_type. rewrite Hr0. apply String.eqb_refl. }
  rewrite Hex. reflexivity.
Qed.

(** ** Relationship files, further *)

Module RelMore.

Lemma after_first_absent (c : ascii) (l : list ascii) :
  ~ In c l -> Str.after_first c l = None.
Proof.
  induction l as [|x l IH]; simpl; [reflexivity|]. intros Hn.
  destruct (Str.ascii_eqb x c) eqn:E.
  - apply StrFacts.ascii_eqb_eq in E. subst. exfalso. apply Hn. left. reflexivity.
  - apply IH. intros H. apply Hn. right. exact H.
Qed.

Lemma after_first_split (c : ascii) (a b : list ascii) :
  ~ In c a -> Str.after_first c (a ++ c :: b) = Some b.
Proof.
  induction a as [|x a IH]; simpl; intros Hn.
  - rewrite StrFacts.ascii_eqb_refl. reflexivity.
  - destruct (Str.ascii_eqb x c) eqn:E.
    + apply StrFacts.ascii_eqb_eq in E. subst. exfalso. apply Hn. left. reflexivity.
    + apply IH. intros H. apply Hn. right. exact H.
Qed.

Lemma side_count_in (s s' : Side) (root : Element) (p : Path) :
  In (RelationshipMissingSingle s p) (side_count_errors s' root p) <->
  s = s' /\ length (side_elems s root) <> 1.
Proof.
  unfold side_count_errors.
  destruct (length (side_elems s' root) =? 1)%nat eqn:E; simpl.
  - apply Nat.eqb_eq in E. split; [intros []|]. intros [-> H]. contradiction.
  - apply Nat.eqb_neq in E. split.
    + intros [[= <-]|[]]. split; [reflexivity | exact E].
    + intros [-> _]. left. reflexivity.
Qed.

Lemma side_attr_kinds (s' : Side) (root : Element) (p : Path) (m : Msg) :
  In m (side_attr_errors s' root p) ->
  exists e rest, side_elems s' root = e :: rest
    /\ ((m = RelationshipMissingHref s' p /\ Str.falsy_opt (Xml.get e "href") = true)
        \/ (m = RelationshipMissingType s' p /\ Str.falsy_opt (Xml.get e XSI_TYPE) = true)).
Proof.
  unfold side_attr_errors. destruct (side_elems s' root) as [|e rest]; [intros []|].
  rewrite in_app_iff. intros [H|H].
  - destruct (Str.falsy_opt (Xml.get e "href")) eqn:E; [|destruct H].
    destruct H as [<-|[]]. exists e, rest. auto.
  - destruct (Str.falsy_opt (Xml.get e XSI_TYPE)) eqn:E; [|destruct H].
    destruct H as [<-|[]]. exists e, rest. auto.
Qed.

Lemma side_count_kinds (s' : Side) (root : Element) (p : Path) (m : Msg) :
  In m (side_count_errors s' root p) -> m = RelationshipMissingSingle s' p.
Proof.
  unfold side_count_errors. destruct (negb _); [|intros []]. intros [<-|[]]. reflexivity.
Qed.

Lemma side_attr_href_in (s : Side) (root : Element) (p : Path) (e : Element)
    (rest : list Element) :
  side_elems s root = e :: rest -> Str.falsy_opt (Xml.get e "href") = true ->
  In (RelationshipMissingHref s p) (side_attr_errors s root p).
Proof.
  intros Hs Hf. unfold side_attr_errors. rewrite Hs, Hf. left. reflexivity.
Qed.

Lemma side_attr_type_in (s : Side) (root : Element) (p : Path) (e : Element)
    (rest : list Element) :
  side_elems s root = e :: rest -> Str.falsy_opt (Xml.get e XSI_TYPE) = true ->
  In (RelationshipMissingType s p) (side_attr_errors s root p).
Proof.
  intros Hs Hf. unfold side_attr_errors. rewrite Hs, Hf. apply in_or_app. right.
  left. reflexivity.
Qed.

(** Where a side's errors sit among the errors of the shape. *)
Lemma shape_errors_in (root : Element) (p : Path) (m : Msg) :
  In m (relationship_shape_errors root p) <->
  exists s, In m (side_count_errors s root p) \/ In m (side_attr_errors s root p).
Proof.
  unfold relationship_shape_errors. rewrite !in_app_iff. split.
  - intros [H|[H|[H|H]]]; [exists Source | exists Target | exists Source | exists Target];
      auto.
  - intros ([] & [H|H]); auto.
Qed.

End RelMore.

(** X11: what one file does to the relationship phase.  A file whose root
    does not end in [Relationship] changes nothing; for one that does and
    parses, the errors of its shape are recorded, and then, without a rule
    set, the check returns, while with a rule set loaded and the [source]
    or the [target] child absent it raises [IndexError]. *)
Theorem check_relationship_outcome (v : Validator) (p : Path) (root_local rid : string)
    (root : Element) :
  parse_xml (repo v) p = ParseOk root ->
  (Str.endswith root_local "Relationship" = false ->
   check_relationship (p, (root_local, rid)) v = (Returns tt, v))
  /\ (Str.endswith root_local "Relationship" = true ->
      rules_loaded (relation_rules v) = false ->
      check_relationship (p, (root_local, rid)) v
      = (Returns tt, fail_all (relationship_shape_errors root p) v))
  /\ (Str.endswith root_local "Relationship" = true ->
      rules_loaded (relation_rules v) = true ->
      side_elems Source root = [] \/ side_elems Target root = [] ->
      check_relationship (p, (root_local, rid)) v
      = (Raises IndexError, fail_all (relationship_shape_errors root p) v)).
Proof.
  intros Hp. split; [|split].
  - intros He. unfold check_relationship. rewrite He. reflexivity.
  - intros He El. exact (RelFacts.missing_side_without_rules v p root_local rid root He Hp El).
  - intros He El Hs. exact (RelFacts.missing_side_raises v p root_local rid root He Hp El Hs).
Qed.

(** X12: the errors of a relationship file's shape, side by side: the
    count error exactly when the side does not have one child, the
    attribute errors exactly when the first child of the side lacks the
    attribute (further children of a side are not looked at). *)
Theorem relationship_shape_exact (root : Element) (p : Path) (s : Side) :
  (In (RelationshipMissingSingle s p) (relationship_shape_errors root p) <->
   length (side_elems s root) <> 1)
  /\ (In (RelationshipMissingHref s p) (relationship_shape_errors root p) <->
      exists e rest, side_elems s root = e :: rest
                     /\ Str.falsy_opt (Xml.get e "href") = true)
  /\ (In (RelationshipMissingType s p) (relationship_shape_errors root p) <->
      exists e rest, side_elems s root = e :: rest
                     /\ Str.falsy_opt (Xml.get e XSI_TYPE) = true).
Proof.
  split; [|split]; rewrite RelMore.shape_errors_in; split.
  - intros (s' & [H|H]).
    + apply RelMore.side_count_in in H. tauto.
    + apply RelMore.side_attr_kinds in H.
      destruct H as (e & rest & _ & [[H _]|[H _]]); discriminate.
  - intros H. exists s. left. apply RelMore.side_count_in. auto.
  - intros (s' & [H|H]).
    + apply RelMore.side_count_kinds in H. discriminate.
    + apply RelMore.side_attr_kinds in H.
      destruct H as (e & rest & Hs & [[[= ->] Hf]|[H _]]); [|discriminate]. eauto.
  - intros (e & rest & Hs & Hf). exists s. right.
    exact (RelMore.side_attr_href_in _ _ _ _ _ Hs Hf).
  - intros (s' & [H|H]).
    + apply RelMore.side_count_kinds in H. discriminate.
    + apply RelMore.side_attr_kinds in H.
      destruct H as (e & rest & Hs & [[H _]|[[= ->] Hf]]); [discriminate|]. eauto.
  - intros (e & rest & Hs & Hf). exists s. right.
    exact (RelMore.side_attr_type_in _ _ _ _ _ Hs Hf).
Qed.

(** X13: the type tag loses what stands before its first colon, the colon
    included, and nothing else; a tag without a colon is kept whole. *)
Theorem strip_prefix_colon_exact (t : string) :
  (~ In Str.colon (Str.chars t) -> Str.strip_prefix_colon t = t)
  /\ (forall a b,
        Str.chars t = a ++ Str.colon :: b -> ~ In Str.colon a ->
        Str.strip_prefix_colon t = Str.of_chars b).
Proof.
  unfold Str.strip_prefix_colon. split.
  - intros Hn. rewrite (RelMore.after_first_absent _ _ Hn). reflexivity.
  - intros a b Hl Hn. rewrite Hl, (RelMore.after_first_split _ _ _ Hn). reflexivity.
Qed.

(** ** Diagram files, further *)

Module DiagramMore.

Lemma endpoint_errors_kinds (ids : gset string) (conn : Element) (p : Path) (m : Msg) :
  In m (endpoint_errors ids conn p) -> exists s id, m = ConnectionEndNotFound s id p.
Proof.
  unfold endpoint_errors. rewrite in_app_iff.
  intros [H|H]; destruct (end_missing _ _); simpl in H; try contradiction;
    destruct H as [<-|[]]; eauto.
Qed.

(** The errors of a diagram file, sorted by the loop that records them. *)
Lemma diagram_errors_in (rules : RuleDoc) (root : Element) (p : Path) (m : Msg) :
  In m (diagram_errors rules root p) <->
  (exists conn, In conn (Xml.descendants root)
                /\ has_xsi_type CONNECTION_TYPE conn = true
                /\ (In m (endpoint_errors (diagram_ids root) conn p)
                    \/ In m (backing_errors rules root conn p)))
  \/ (exists dmo, In dmo (Xml.descendants root)
                  /\ has_xsi_type OBJECT_TYPE dmo = true
                  /\ In m (object_errors p dmo)).
Proof.
  unfold diagram_errors. rewrite in_app_iff, !in_concat. split.
  - intros [(l & Hl & Hm)|(l & Hl & Hm)]; apply in_map_iff in Hl;
      destruct Hl as (x & <- & Hx); apply filter_In in Hx; destruct Hx as [Hd Ht].
    + left. exists x. split; [exact Hd|]. split; [exact Ht|].
      unfold connection_errors in Hm. apply in_app_iff in Hm. exact Hm.
    + right. exists x. auto.
  - intros [(conn & Hd & Ht & Hm)|(dmo & Hd & Ht & Hm)].
    + left. exists (connection_errors rules root p conn). split.
      * apply in_map. apply filter_In. auto.
      * unfold connection_errors. apply in_app_iff. exact Hm.
    + right. exists (object_errors p dmo). split; [|exact Hm].
      apply in_map. apply filter_In. auto.
Qed.

Lemma object_bounds_in (p : Path) (dmo : Element) :
  In (ObjectMissingBounds p) (object_errors p dmo) <-> Xml.find dmo "bounds" = None.
Proof.
  unfold object_errors. rewrite in_app_iff. split.
  - intros [H|H].
    + destruct (Xml.find dmo "bounds"); [destruct H | reflexivity].
    + destruct (Xml.find dmo "archimateElement") as [ael|].
      * destruct (Str.falsy_opt _); simpl in H; intuition discriminate.
      * simpl in H. intuition discriminate.
  - intros ->. left. left. reflexivity.
Qed.

Lemma object_element_in (p : Path) (dmo : Element) :
  In (ObjectMissingElementHref p) (object_errors p dmo) <->
  Xml.find dmo "archimateElement" = None
  \/ exists ael, Xml.find dmo "archimateElement" = Some ael
                 /\ Str.falsy_opt (Xml.get ael "href") = true.
Proof.
  unfold object_errors. rewrite in_app_iff. split.
  - intros [H|H].
    + destruct (Xml.find dmo "bounds"); simpl in H; intuition discriminate.
    + destruct (Xml.find dmo "archimateElement") as [ael|]; [|auto].
      destruct (Str.falsy_opt (Xml.get ael "href")) eqn:E; [|destruct H].
      right. exists ael. auto.
  - intros [->|(ael & -> & ->)]; right; left; reflexivity.
Qed.

Lemma rel_child_not_allowed_in (rules : RuleDoc) (root conn : Element) (p : Path)
    (ch : Element) (rtype s t : string) :
  In (ConnectionNotAllowed rtype s t p) (rel_child_errors rules root conn p ch) <->
  rules_loaded rules = true
  /\ declared_type ch = rtype
  /\ _diagram_object_element_type root (Xml.get conn "source") = Some s
  /\ _diagram_object_element_type root (Xml.get conn "target") = Some t
  /\ rtype <> "" /\ s <> "" /\ t <> ""
  /\ _is_relationship_allowed rules rtype s t = false.
Proof.
  unfold rel_child_errors. rewrite in_app_iff. split.
  - intros [H|H].
    + destruct (Str.falsy_opt _); simpl in H; intuition discriminate.
    + destruct (rules_loaded rules); [|destruct H].
      destruct (_diagram_object_element_type root (Xml.get conn "source")) as [s'|];
        [|destruct H].
      destruct (_diagram_object_element_type root (Xml.get conn "target")) as [t'|];
        [|destruct H].
      destruct (_ && _) eqn:E; [|destruct H].
      destruct H as [[= <- <- <-]|[]].
      rewrite !andb_true_iff, negb_true_iff, !RuleFacts.truthy_ne in E.
      destruct E as [[[E1 E2] E3] E4]. repeat split; auto.
  - intros (-> & <- & -> & -> & H1 & H2 & H3 & H4). right.
    apply RuleFacts.truthy_ne in H1, H2, H3. rewrite H1, H2, H3, H4. left. reflexivity.
Qed.

Lemma diagram_ids_empty (root : Element) :
  (forall d, In d (Xml.descendants root) ->
             existsb (String.eqb (Xml.localname (Xml.tag d))) DIAGRAM_OBJECT_KINDS = false) ->
  diagram_ids root = ∅.
Proof.
  intros Hall. unfold diagram_ids.
  assert (Hnil : omap diagram_object_id (Xml.descendants root) = []).
  { induction (Xml.descendants root) as [|d l IH]; [reflexivity|]. simpl.
    assert (Hd : diagram_object_id d = None).
    { unfold diagram_object_id. destruct (Xml.get d "id"); [|reflexivity].
      rewrite (Hall d (or_introl eq_refl)), andb_false_r. reflexivity. }
    rewrite Hd. apply IH. intros d' Hd'. apply Hall. right. exact Hd'. }
  rewrite Hnil. reflexivity.
Qed.

Lemma end_missing_empty (id : option string) : end_missing ∅ id = true.
Proof.
  destruct id as [s|]; [|reflexivity]. simpl. apply orb_true_iff. right.
  apply negb_true_iff, bool_decide_eq_false. apply not_elem_of_empty.
Qed.

End DiagramMore.

(** X14: a diagram file gets the missing-bounds error exactly when one of
    its descendants typed as an archimate object has no [bounds] child, and
    the missing-element error exactly when such a descendant has no
    [archimateElement] child or one without a usable [href]. *)
Theorem diagram_object_errors_exact (rules : RuleDoc) (root : Element) (p : Path) :
  (In (ObjectMissingBounds p) (diagram_errors rules root p) <->
   exists dmo, In dmo (Xml.descendants root)
               /\ has_xsi_type OBJECT_TYPE dmo = true
               /\ Xml.find dmo "bounds" = None)
  /\ (In (ObjectMissingElementHref p) (diagram_errors rules root p) <->
      exists dmo, In dmo (Xml.descendants root)
                  /\ has_xsi_type OBJECT_TYPE dmo = true
                  /\ (Xml.find dmo "archimateElement" = None
                      \/ exists ael, Xml.find dmo "archimateElement" = Some ael
                                     /\ Str.falsy_opt (Xml.get ael "href") = true)).
Proof.
  split; rewrite DiagramMore.diagram_errors_in; split.
  - intros [(conn & _ & _ & [H|H])|(dmo & Hd & Ht & H)].
    + apply DiagramMore.endpoint_errors_kinds in H. destruct H as (s & id & H). discriminate.
    + apply DiagramFacts.backing_errors_kinds in H.
      destruct H as [[H _]|[[H _]|(_ & r & a & b & H)]]; discriminate.
    + exists dmo. split; [exact Hd|]. split; [exact Ht|].
      exact (proj1 (DiagramMore.object_bounds_in p dmo) H).
  - intros (dmo & Hd & Ht & H). right. exists dmo.
    split; [exact Hd|]. split; [exact Ht|].
    exact (proj2 (DiagramMore.object_bounds_in p dmo) H).
  - intros [(conn & _ & _ & [H|H])|(dmo & Hd & Ht & H)].
    + apply DiagramMore.endpoint_errors_kinds in H. destruct H as (s & id & H). discriminate.
    + apply DiagramFacts.backing_errors_kinds in H.
      destruct H as [[H _]|[[H _]|(_ & r & a & b & H)]]; discriminate.
    + exists dmo. split; [exact Hd|]. split; [exact Ht|].
      exact (proj1 (DiagramMore.object_element_in p dmo) H).
  - intros (dmo & Hd & Ht & H). right. exists dmo.
    split; [exact Hd|]. split; [exact Ht|].
    exact (proj2 (DiagramMore.object_element_in p dmo) H).
Qed.

(** X15: a diagram connection is reported as not allowed exactly when a
    rule set is loaded, the connection has a backing-relationship child
    whose type, with the element types behind both ends, is known and not
    empty, and the rule engine refuses that triple; with an end whose
    element type cannot be found, the legality check is passed over. *)
Theorem diagram_legality_exact (rules : RuleDoc) (root : Element) (p : Path)
    (rtype s t : string) :
  In (ConnectionNotAllowed rtype s t p) (diagram_errors rules root p) <->
  exists conn ch,
    In conn (Xml.descendants root)
    /\ has_xsi_type CONNECTION_TYPE conn = true
    /\ In ch (Xml.children conn) /\ is_rel_child ch = true
    /\ rules_loaded rules = true
    /\ declared_type ch = rtype
    /\ _diagram_object_element_type root (Xml.get conn "source") = Some s
    /\ _diagram_object_element_type root (Xml.get conn "target") = Some t
    /\ rtype <> "" /\ s <> "" /\ t <> ""
    /\ _is_relationship_allowed rules rtype s t = false.
Proof.
  rewrite DiagramMore.diagram_errors_in. split.
  - intros [(conn & Hd & Ht & [H|H])|(dmo & _ & _ & H)].
    + apply DiagramMore.endpoint_errors_kinds in H. destruct H as (s' & id & H). discriminate.
    + unfold backing_errors in H. apply in_app_iff in H. destruct H as [H|H].
      * apply in_concat in H. destruct H as (l & Hl & Hm).
        apply in_map_iff in Hl. destruct Hl as (ch & <- & Hch).
        apply filter_In in Hch. destruct Hch as [Hc1 Hc2].
        apply DiagramMore.rel_child_not_allowed_in in Hm.
        exists conn, ch. tauto.
      * destruct (List.filter is_rel_child (Xml.children conn)); simpl in H;
          intuition discriminate.
    + apply DiagramFacts.object_errors_kinds in H. destruct H; discriminate.
  - intros (conn & ch & Hd & Ht & Hc1 & Hc2 & Hrest). left. exists conn.
    split; [exact Hd|]. split; [exact Ht|]. right.
    unfold backing_errors. apply in_app_iff. left.
    apply in_concat. exists (rel_child_errors rules root conn p ch). split.
    + apply in_map. apply filter_In. auto.
    + apply DiagramMore.rel_child_not_allowed_in. exact Hrest.
Qed.

(** X16: the ids of a diagram are collected by tag name, not by
    [xsi:type].  In a diagram none of whose descendants has one of the five
    object tag names, as when the objects are [children] elements with an
    [xsi:type], no id is collected, and both ends of every connection are
    reported as not found. *)
Theorem untagged_objects_leave_ends_dangling (rules : RuleDoc) (root : Element) (p : Path)
    (conn : Element) (s : Side) :
  (forall d, In d (Xml.descendants root) ->
             existsb (String.eqb (Xml.localname (Xml.tag d))) DIAGRAM_OBJECT_KINDS = false) ->
  In conn (Xml.descendants root) ->
  has_xsi_type CONNECTION_TYPE conn = true ->
  diagram_ids root = ∅
  /\ In (ConnectionEndNotFound s (Xml.get conn (side_label s)) p)
       (diagram_errors rules root p).
Proof.
  intros Hall Hd Ht. pose proof (DiagramMore.diagram_ids_empty root Hall) as He.
  split; [exact He|].
  apply DiagramMore.diagram_errors_in. left. exists conn.
  split; [exact Hd|]. split; [exact Ht|]. left.
  apply DiagramFacts.endpoint_errors_spec. split; [reflexivity|].
  rewrite He. apply DiagramMore.end_missing_empty.
Qed.

(** X16, a witness: a diagram as the modelling tool writes it. *)
Lemma untagged_objects_leave_ends_dangling_witness :
  diagram_ids Sample.tool_diagram = ∅
  /\ In (ConnectionEndNotFound Source (Some "o-1") Fixture.diagram_a_path)
       (diagram_errors empty_rules Sample.tool_diagram Fixture.diagram_a_path).
Proof.
  apply (untagged_objects_leave_ends_dangling empty_rules Sample.tool_diagram
           Fixture.diagram_a_path
           (Fixture.conn "o-1" "o-2" [Fixture.backing "AssociationRelationship_id-2.xml#id-2"])
           Source).
  - intros d Hd. simpl in Hd.
    repeat (destruct Hd as [<-|Hd]; [reflexivity|]). destruct Hd.
  - simpl. tauto.
  - reflexivity.
Defined.

(** ** The skeleton, completely *)

Module StructureMore.

Lemma concat_map_nil {A B} (f : A -> list B) (l : list A) :
  concat (map f l) = [] <-> forall x, In x l -> f x = [].
Proof.
  induction l as [|a l IH]; simpl.
  - split; [intros _ x [] | reflexivity].
  - split.
    + intros H. apply app_eq_nil in H. destruct H as [Ha Hl].
      intros x [<-|Hx]; [exact Ha | exact (proj1 IH Hl x Hx)].
    + intros H. rewrite (H a (or_introl eq_refl)). simpl.
      apply IH. intros x Hx. apply H. right. exact Hx.
Qed.

Lemma top_folder_exists_nil (r : Repo) (f : string) :
  check_top_folder_exists r f = [] <-> exists d, top_dirs r !! f = Some (Some d).
Proof.
  unfold check_top_folder_exists.
  destruct (top_dirs r !! f) as [[d|]|]; split; try discriminate; eauto.
  - intros (d & H). discriminate.
  - intros (d & H). discriminate.
Qed.

Lemma model_root_nil (r : Repo) :
  check_model_root r = [] <->
  model_folder_xml r = None
  \/ exists root, model_folder_xml r = Some (ParseOk root)
                  /\ Xml.localname (Xml.tag root) = "model"
                  /\ Xml.tag_head (Xml.tag root) = ARCHIMATE_NS.
Proof.
  unfold check_model_root. destruct (model_folder_xml r) as [[msg|root]|].
  - split; [discriminate|]. intros [H|(root & H & _)]; discriminate.
  - destruct (String.eqb (Xml.localname (Xml.tag root)) "model") eqn:E1;
      destruct (String.eqb (Xml.tag_head (Xml.tag root)) ARCHIMATE_NS) eqn:E2; simpl;
      try (split; [discriminate|]; intros [H|(root' & [= <-] & H1 & H2)];
           [discriminate|];
           apply String.eqb_eq in H1, H2; congruence).
    apply String.eqb_eq in E1, E2. split; [|reflexivity]. intros _. right. eauto.
  - split; [auto | reflexivity].
Qed.

Lemma top_folder_root_nil (r : Repo) (f : string) (d : ParseResult) :
  top_dirs r !! f = Some (Some d) ->
  (check_top_folder_root r f = [] <->
   exists root, d = ParseOk root /\ Xml.localname (Xml.tag root) = "Folder").
Proof.
  intros Hd. unfold check_top_folder_root. rewrite Hd. destruct d as [msg|root].
  - split; [discriminate|]. intros (root & H & _). discriminate.
  - destruct (String.eqb (Xml.localname (Xml.tag root)) "Folder") eqn:E; simpl.
    + apply String.eqb_eq in E. split; [|reflexivity]. intros _. eauto.
    + apply String.eqb_neq in E. split; [discriminate|].
      intros (root' & [= <-] & H). contradiction.
Qed.

Lemma chars_app (a b : string) : Str.chars (a ++ b) = Str.chars a ++ Str.chars b.
Proof.
  induction a as [|c a IH]; simpl; [reflexivity|].
  unfold Str.chars in *. simpl. rewrite IH. reflexivity.
Qed.

Lemma before_first_absent (c : ascii) (l : list ascii) :
  ~ In c l -> Xml.before_first c l = l.
Proof.
  induction l as [|x l IH]; simpl; [reflexivity|]. intros Hn.
  destruct (Str.ascii_eqb x c) eqn:E.
  - apply StrFacts.ascii_eqb_eq in E. subst. exfalso. apply Hn. left. reflexivity.
  - rewrite IH; [reflexivity|]. intros H. apply Hn. right. exact H.
Qed.

Lemma before_first_split (c : ascii) (a b : list ascii) :
  ~ In c a -> Xml.before_first c (a ++ c :: b) = a.
Proof.
  induction a as [|x a IH]; simpl; intros Hn.
  - rewrite StrFacts.ascii_eqb_refl. reflexivity.
  - destruct (Str.ascii_eqb x c) eqn:E.
    + apply StrFacts.ascii_eqb_eq in E. subst. exfalso. apply Hn. left. reflexivity.
    + rewrite IH; [reflexivity|]. intros H. apply Hn. right. exact H.
Qed.

Lemma lstrip_absent (c : ascii) (l : list ascii) : ~ In c l -> Xml.lstrip c l = l.
Proof.
  destruct l as [|x l]; simpl; [reflexivity|]. intros Hn.
  destruct (Str.ascii_eqb x c) eqn:E; [|reflexivity].
  apply StrFacts.ascii_eqb_eq in E. subst. exfalso. apply Hn. left. reflexivity.
Qed.

Lemma strip_brace_absent (l : list ascii) :
  ~ In "{"%char l -> Xml.strip_brace l = l.
Proof.
  intros Hn. unfold Xml.strip_brace. rewrite (lstrip_absent _ _ Hn), lstrip_absent.
  - apply reverse_involutive.
  - intros H. apply Hn. apply list_elem_of_In. apply list_elem_of_In in H.
    rewrite elem_of_reverse in H. exact H.
Qed.

Lemma before_first_cons (c x : ascii) (l : list ascii) :
  x <> c -> Xml.before_first c (x :: l) = x :: Xml.before_first c l.
Proof.
  intros Hne. simpl. destruct (Str.ascii_eqb x c) eqn:E; [|reflexivity].
  apply StrFacts.ascii_eqb_eq in E. contradiction.
Qed.

Lemma lstrip_cons (c : ascii) (l : list ascii) : Xml.lstrip c (c :: l) = Xml.lstrip c l.
Proof. simpl. rewrite StrFacts.ascii_eqb_refl. reflexivity. Qed.

Lemma chars_clark (u l : string) :
  Str.chars (Xml.clark (mkTag (Some u) l))
  = "{"%char :: Str.chars u ++ "}"%char :: Str.chars l.
Proof.
  unfold Xml.clark. cbn [tag_ns tag_local]. rewrite !chars_app. reflexivity.
Qed.

Lemma head_of_clark (cu cl : list ascii) :
  ~ In "{"%char cu -> ~ In "}"%char cu ->
  Xml.strip_brace (Xml.before_first "}" ("{"%char :: cu ++ "}"%char :: cl)) = cu.
Proof.
  intros Ho Hc. rewrite before_first_cons by discriminate.
  rewrite (before_first_split _ _ _ Hc). unfold Xml.strip_brace.
  rewrite lstrip_cons. fold (Xml.strip_brace cu). apply strip_brace_absent. exact Ho.
Qed.

End StructureMore.

(** X17: [check_structure] records no error exactly when the skeleton is
    sound: the model directory exists, its [folder.xml] parses to a root
    with local name [model] whose tag, cut at its first closing brace and
    stripped of opening braces as the code does it, is the archimate
    namespace string, and each of the nine top-level folders exists with a
    [folder.xml] that parses to a root with local name [Folder]. *)
Theorem structure_errors_none (r : Repo) :
  structure_errors r = [] <-> SoundSkeleton r.
Proof.
  unfold structure_errors, SoundSkeleton.
  destruct (model_is_dir r); cbn [negb];
    [|split; [discriminate | intros [H _]; discriminate]].
  split.
  - intros H. apply app_eq_nil in H. destruct H as [H1 H].
    apply app_eq_nil in H. destruct H as [H2 H].
    apply app_eq_nil in H. destruct H as [H3 H4].
    split; [reflexivity|]. split.
    + apply StructureMore.model_root_nil in H3. destruct H3 as [H3|H3]; [|exact H3].
      rewrite H3 in H1. discriminate.
    + intros f Hf.
      pose proof (proj1 (StructureMore.concat_map_nil _ _) H2 f Hf) as He.
      apply StructureMore.top_folder_exists_nil in He. destruct He as [d Hd].
      pose proof (proj1 (StructureMore.concat_map_nil _ _) H4 f Hf) as Hr.
      apply (StructureMore.top_folder_root_nil r f d Hd) in Hr.
      destruct Hr as (root & -> & Hroot). eauto.
  - intros (_ & (root & Hm & Hl & Hh) & Htop).
    rewrite Hm.
    assert (H2 : concat (map (check_top_folder_exists r) TOP_FOLDERS) = []).
    { apply StructureMore.concat_map_nil. intros f Hf.
      destruct (Htop f Hf) as (froot & Hd & _).
      apply StructureMore.top_folder_exists_nil. eauto. }
    assert (H3 : check_model_root r = []).
    { apply StructureMore.model_root_nil. right. eauto. }
    assert (H4 : concat (map (check_top_folder_root r) TOP_FOLDERS) = []).
    { apply StructureMore.concat_map_nil. intros f Hf.
      destruct (Htop f Hf) as (froot & Hd & Hl').
      apply (StructureMore.top_folder_root_nil r f _ Hd). eauto. }
    rewrite H2, H3, H4. reflexivity.
Qed.

(** X18: the namespace test of the model descriptor,
    [root.tag.split("}")[0].strip("{")], gives the namespace of a
    qualified tag and the tag itself for an unqualified one (braces in
    neither), so an unqualified [model] root is refused. *)
Theorem tag_head_namespace :
  (forall u l,
     ~ In "{"%char (Str.chars u) -> ~ In "}"%char (Str.chars u) ->
     Xml.tag_head (mkTag (Some u) l) = u)
  /\ (forall l,
        ~ In "{"%char (Str.chars l) -> ~ In "}"%char (Str.chars l) ->
        Xml.tag_head (mkTag None l) = l)
  /\ (forall r a c,
        model_folder_xml r = Some (ParseOk (Elem (mkTag None "model") a c)) ->
        check_model_root r = [ModelRootMustBeModel (mkTag None "model")]).
Proof.
  split; [|split].
  - intros u l Ho Hc. unfold Xml.tag_head.
    rewrite (StructureMore.chars_clark u l), (StructureMore.head_of_clark _ _ Ho Hc).
    apply ReFacts.of_chars_chars.
  - intros l Ho Hc. unfold Xml.tag_head, Xml.clark. simpl.
    rewrite (StructureMore.before_first_absent _ _ Hc).
    rewrite (StructureMore.strip_brace_absent _ Ho). apply ReFacts.of_chars_chars.
  - intros r a c H. unfold check_model_root. rewrite H. reflexivity.
Qed.

(** ** The catalog *)

Module CatalogMore.

Lemma catalog_loop_spec (es : list CatalogEntry) (c : gmap string string) (s : gset string) :
  exists A : gset string,
    dom (fst (catalog_loop es (c, s))) = dom c ∪ A
    /\ snd (catalog_loop es (c, s)) = A ∪ s
    /\ forall k x, fst (catalog_loop es (c, s)) !! k = Some x ->
                   c !! k = Some x \/ (k <> "" /\ x <> "").
Proof.
  revert c s. induction es as [|e es IH]; intros c s; simpl.
  - exists ∅. split; [set_solver|]. split; [set_solver | auto].
  - destruct (ce_class e) as [cls|]; [|apply IH].
    destruct (ce_defaultFolder e) as [folder|]; [|apply IH].
    destruct (Str.truthy cls && Str.truthy folder) eqn:Et; [|apply IH].
    apply andb_true_iff in Et. destruct Et as [Hc Hf].
    apply RuleFacts.truthy_ne in Hc, Hf.
    destruct (IH (<[cls := folder]> c) ({[cls]} ∪ s)) as (A & Hd & Hs & Hv).
    exists ({[cls]} ∪ A). split; [|split].
    + rewrite Hd, dom_insert_L. set_solver.
    + rewrite Hs. set_solver.
    + intros k x Hk. destruct (Hv k x Hk) as [H|H]; [|auto].
      destruct (decide (cls = k)) as [<-|Hne].
      * rewrite lookup_insert_eq in H. injection H as <-. auto.
      * rewrite lookup_insert_ne in H by exact Hne. auto.
Qed.

End CatalogMore.

(** X19: what [read_catalog] returns when it returns: the classes with a
    default folder are exactly those of the three sets together, neither a
    class nor a folder in the mapping is empty, and without a catalog
    file the mapping is empty. *)
Theorem read_catalog_classes (r : Repo) (c2f : gmap string string)
    (els rels dias : gset string) :
  read_catalog r = inr (c2f, els, rels, dias) ->
  dom c2f = els ∪ rels ∪ dias
  /\ (forall cls folder, c2f !! cls = Some folder -> cls <> "" /\ folder <> "")
  /\ (catalog_json r = DocAbsent -> c2f = ∅).
Proof.
  unfold read_catalog. destruct (catalog_json r) as [|msg|data].
  - intros [= <- <- <- <-]. split; [set_solver|]. split; [|reflexivity].
    intros cls folder H. rewrite lookup_empty in H. discriminate.
  - discriminate.
  - destruct (CatalogMore.catalog_loop_spec (default [] (cat_elements data)) ∅ ∅)
      as (A1 & Hd1 & Hs1 & Hv1).
    destruct (catalog_loop (default [] (cat_elements data)) (∅, ∅)) as [c1 e1].
    simpl in Hd1, Hs1, Hv1.
    destruct (CatalogMore.catalog_loop_spec (default [] (cat_relationships data)) c1 ∅)
      as (A2 & Hd2 & Hs2 & Hv2).
    destruct (catalog_loop (default [] (cat_relationships data)) (c1, ∅)) as [c2 e2].
    simpl in Hd2, Hs2, Hv2.
    destruct (CatalogMore.catalog_loop_spec (default [] (cat_diagrams data)) c2 ∅)
      as (A3 & Hd3 & Hs3 & Hv3).
    destruct (catalog_loop (default [] (cat_diagrams data)) (c2, ∅)) as [c3 e3].
    simpl in Hd3, Hs3, Hv3.
    intros [= <- <- <- <-]. split; [|split; [|discriminate]].
    + rewrite Hd3, Hd2, Hd1, Hs1, Hs2, Hs3, dom_empty_L. set_solver.
    + intros cls folder H.
      destruct (Hv3 _ _ H) as [H3|H3]; [|exact H3].
      destruct (Hv2 _ _ H3) as [H2|H2]; [|exact H2].
      destruct (Hv1 _ _ H2) as [H1|H1]; [|exact H1].
      rewrite lookup_empty in H1. discriminate.
Qed.

(** X19, a witness: the small catalog of the samples. *)
Lemma read_catalog_classes_witness :
  exists c2f els rels dias,
    read_catalog Sample.repo_with_catalog = inr (c2f, els, rels, dias)
    /\ dom c2f = els ∪ rels ∪ dias.
Proof.
  destruct (read_catalog Sample.repo_with_catalog) as [e|[[[c2f els] rels] dias]] eqn:E.
  - discriminate E.
  - exists c2f, els, rels, dias. split; [reflexivity|].
    exact (proj1 (read_catalog_classes _ _ _ _ _ E)).
Defined.

(** ** The whole run, further *)

Module RunMore.
Import Frame Logic Phases RunFacts.

Lemma set_In_inv {V} (k k' : Path) (x y : V) (d : list (Path * V)) :
  In (k', y) (Dict.set k x d) -> (k' = k /\ y = x) \/ In (k', y) d.
Proof.
  induction d as [|[k0 z] d IH]; simpl.
  - intros [[= <- <-]|[]]. auto.
  - destruct (bool_decide (k0 = k)) eqn:E; simpl.
    + apply bool_decide_eq_true in E. subst k0.
      intros [[= <- <-]|H]; auto.
    + intros [H|H]; [auto|]. destruct (IH H) as [H'|H']; auto.
Qed.

Lemma index_file_in_inv (q : Path) (w : Validator) (p : Path) (meta : string * string) :
  In (p, meta) (file_meta (index_file q w)) ->
  In (p, meta) (file_meta w)
  \/ (q = p /\ name p <> "folder.xml"
      /\ exists root, parse_xml (repo w) p = ParseOk root /\ meta = meta_of root).
Proof.
  unfold index_file. destruct (String.eqb (name q) "folder.xml") eqn:En; [auto|].
  apply String.eqb_neq in En.
  destruct (parse_xml (repo w) q) as [msg|root] eqn:Ep; [auto|].
  intros H.
  assert (H' : In (p, meta)
                 (Dict.set q (Xml.localname (Xml.tag root), Str.or_empty (Xml.get root "id"))
                    (file_meta w))).
  { destruct (Str.truthy _); exact H. }
  apply set_In_inv in H'. destruct H' as [[-> ->]|H']; [|auto].
  right. split; [reflexivity|]. split; [exact En|]. exists root. auto.
Qed.

Lemma index_fold_in_inv (l : list Path) (w : Validator) (p : Path) (meta : string * string) :
  In (p, meta) (file_meta (foldl (fun w' q => index_file q w') w l)) ->
  In (p, meta) (file_meta w)
  \/ (In p l /\ name p <> "folder.xml"
      /\ exists root, parse_xml (repo w) p = ParseOk root /\ meta = meta_of root).
Proof.
  revert w. induction l as [|q l IH]; intros w H; simpl in H; [auto|].
  apply IH in H. rewrite IndexFacts.index_file_repo in H.
  destruct H as [H|(Hin & Hrest)].
  - apply index_file_in_inv in H. destruct H as [H|(-> & Hrest)]; [auto|].
    right. split; [left; reflexivity | exact Hrest].
  - right. split; [right; exact Hin | exact Hrest].
Qed.

(** A loop raises only where one of its turns does. *)
Lemma for_each_raises_inv {A} (body : A -> M unit) (l : list A) (I : Validator -> Prop)
    (v : Validator) (e : Exn) :
  (forall x w w', In x l -> I w -> body x w = (Returns tt, w') -> I w') ->
  I v ->
  fst (for_each body l v) = Raises e ->
  exists x w, In x l /\ I w /\ fst (body x w) = Raises e.
Proof.
  revert v. induction l as [|x l IH]; intros v Hkeep Hv H; simpl in H; [discriminate|].
  unfold bind in H. destruct (body x v) as [[[]|e'] v'] eqn:Eb.
  - destruct (IH v') as (y & w & Hy & Hw & Hr).
    + intros y w w' Hy. apply Hkeep. right. exact Hy.
    + exact (Hkeep x v v' (or_introl eq_refl) Hv Eb).
    + exact H.
    + exists y, w. split; [right; exact Hy|]. auto.
  - simpl in H. exists x, v. split; [left; reflexivity|]. split; [exact Hv|].
    rewrite Eb. exact H.
Qed.

(** A loop with a turn that raises in every state raises. *)
Lemma for_each_must_raise {A} (body : A -> M unit) (l : list A) (I : Validator -> Prop)
    (v : Validator) (x : A) :
  (forall y w w', In y l -> I w -> body y w = (Returns tt, w') -> I w') ->
  I v -> In x l ->
  (forall w, I w -> exists e, fst (body x w) = Raises e) ->
  exists e, fst (for_each body l v) = Raises e.
Proof.
  revert v. induction l as [|y l IH]; intros v Hkeep Hv Hx Hr; [destruct Hx|].
  simpl. unfold bind. destruct (body y v) as [[[]|e'] v'] eqn:Eb.
  - destruct Hx as [->|Hx].
    + destruct (Hr v Hv) as [e He]. rewrite Eb in He. discriminate.
    + apply IH; [|exact (Hkeep y v v' (or_introl eq_refl) Hv Eb) | exact Hx | exact Hr].
      intros z w w' Hz. apply Hkeep. right. exact Hz.
  - exists e'. reflexivity.
Qed.

Lemma check_relationship_keeps (item : Path * (string * string)) (v0 w w' : Validator) :
  Indexed v0 -> In item (file_meta v0) -> SameIndex v0 w ->
  check_relationship item w = (Returns tt, w') -> SameIndex v0 w'.
Proof.
  intros Hi Hin Hs E. pose proof (check_relationship_ends item v0 w Hi Hs Hin) as H.
  unfold Ends in H. rewrite E in H. exact H.
Qed.

Lemma check_relationship_raise_inv (p : Path) (rl rid : string) (root : Element)
    (w : Validator) (e : Exn) :
  parse_xml (repo w) p = ParseOk root ->
  fst (check_relationship (p, (rl, rid)) w) = Raises e ->
  Str.endswith rl "Relationship" = true
  /\ rules_loaded (relation_rules w) = true
  /\ (side_elems Source root = [] \/ side_elems Target root = []).
Proof.
  intros Hp H. destruct (Str.endswith rl "Relationship") eqn:He.
  - split; [reflexivity|]. destruct (rules_loaded (relation_rules w)) eqn:El.
    + split; [reflexivity|].
      destruct (side_elems Source root) as [|s ss] eqn:Es; [auto|].
      destruct (side_elems Target root) as [|t ts] eqn:Et; [auto|].
      exfalso. revert H. unfold check_relationship. rewrite He. cbn [negb].
      unfold bind, gets. rewrite Hp.
      unfold modify, relationship_rule_check, bind, gets.
      change (relation_rules (fail_all (relationship_shape_errors root p) w))
        with (relation_rules w).
      rewrite El, Es, Et.
      destruct (negb (_is_relationship_allowed _ _ _ _)); discriminate.
    + rewrite (RelFacts.missing_side_without_rules w p rl rid root He Hp El) in H.
      discriminate.
  - unfold check_relationship in H. rewrite He in H. discriminate.
Qed.

(** When the relationship phase raises, on an index that lists parsed
    files. *)
Lemma check_relationships_raises_iff (v : Validator) :
  Indexed v -> Listed v ->
  ((exists e, fst (check_relationships v) = Raises e) <->
   rules_loaded (relation_rules v) = true
   /\ exists p root rid,
        In (p, (Xml.localname (Xml.tag root), rid)) (file_meta v)
        /\ parse_xml (repo v) p = ParseOk root
        /\ Str.endswith (Xml.localname (Xml.tag root)) "Relationship" = true
        /\ (side_elems Source root = [] \/ side_elems Target root = [])).
Proof.
  intros Hi Hl. unfold check_relationships, bind, gets. split.
  - intros [e He].
    destruct (for_each_raises_inv check_relationship (file_meta v)
                (fun w => SameIndex v w) v e) as ([p [rl rid]] & w & Hin & Hw & Hr).
    + intros x w w' Hx Hw. exact (check_relationship_keeps x v w w' Hi Hx Hw).
    + apply same_refl.
    + exact He.
    + destruct (Hl _ _ Hin) as (_ & _ & root & Hp & Hm). injection Hm as -> ->.
      assert (Hpw : parse_xml (repo w) p = ParseOk root).
      { rewrite (ext_repo _ _ (same_extends _ _ Hw)). exact Hp. }
      destruct (check_relationship_raise_inv _ _ _ _ _ _ Hpw Hr) as (H1 & H2 & H3).
      split; [rewrite <- (ext_rules _ _ (same_extends _ _ Hw)); exact H2|].
      exists p, root, (Str.or_empty (Xml.get root "id")). auto.
  - intros (Hr & p & root & rid & Hin & Hp & He & Hside).
    apply (for_each_must_raise check_relationship (file_meta v)
             (fun w => SameIndex v w) v (p, (Xml.localname (Xml.tag root), rid))).
    + intros x w w' Hx Hw. exact (check_relationship_keeps x v w w' Hi Hx Hw).
    + apply same_refl.
    + exact Hin.
    + intros w Hw. exists IndexError.
      rewrite (RelFacts.missing_side_raises w p _ rid root He); [reflexivity| | |exact Hside].
      * rewrite (ext_repo _ _ (same_extends _ _ Hw)). exact Hp.
      * rewrite (ext_rules _ _ (same_extends _ _ Hw)). exact Hr.
Qed.

Lemma ends_returns {A} (m : M A) (v : Validator) (Q : A -> Validator -> Prop) :
  Ends m v Q never -> exists a v', m v = (Returns a, v') /\ Q a v'.
Proof.
  unfold Ends. destruct (m v) as [[a|e] v']; [eauto | intros []].
Qed.

(** The later phases raise exactly when the relationship phase does, on
    the index that [index_files] builds. *)
Lemma later_phases_raise (v : Validator) :
  file_meta v = [] -> basename_to_path v = ∅ ->
  exists v4,
    Indexed v4 /\ Extends v v4
    /\ file_meta v4 = file_meta (snd (index_files v))
    /\ forall e, fst (later_phases v) = Raises e <-> fst (check_relationships v4) = Raises e.
Proof.
  intros Hf Hb.
  destruct (ends_returns _ _ _ (index_files_ends v (initial_indexed v Hf Hb)))
    as ([] & v2 & E2 & H02 & Hi2).
  destruct (ends_returns _ _ _ (check_files_and_ids_ends v2)) as ([] & v3 & E3 & H23).
  pose proof (same_indexed _ _ H23 Hi2) as Hi3.
  destruct (ends_returns _ _ _ (check_hrefs_ends v3 Hi3)) as ([] & v4 & E4 & H34).
  pose proof (same_indexed _ _ H34 Hi3) as Hi4.
  exists v4. split; [exact Hi4|]. split.
  { exact (extends_trans _ _ _ H02
             (extends_trans _ _ _ (same_extends _ _ H23) (same_extends _ _ H34))). }
  split.
  { rewrite E2. simpl. rewrite (same_file_meta _ _ H34), (same_file_meta _ _ H23).
    reflexivity. }
  intros e. unfold later_phases, bind. rewrite E2, E3, E4.
  pose proof (check_relationships_ends v4 Hi4) as H5. unfold Ends in H5.
  destruct (check_relationships v4) as [[[]|e5] v5];
    [|simpl; split; intros [= ->]; reflexivity].
  pose proof (same_indexed _ _ H5 Hi4) as Hi5.
  destruct (ends_returns _ _ _ (check_diagrams_ends v5 Hi5)) as ([] & v6 & E6 & _).
  rewrite E6. simpl. split; discriminate.
Qed.

End RunMore.

(** X20: a run of a validator with empty tables only adds diagnostics: the
    errors and warnings it started with stay in front, in their order, and
    the repository, the rule set, the catalog mapping and the options are
    what they were, whether the run returns or raises. *)
Theorem run_only_appends (v : Validator) :
  file_meta v = [] -> basename_to_path v = ∅ -> Extends v (snd (run v)).
Proof.
  intros Hf Hb. pose proof (RunFacts.run_ends v Hf Hb) as H. unfold Ends in H.
  destruct (run v) as [[code|e] v']; simpl.
  - exact (proj1 H).
  - exact (proj1 (proj2 H)).
Qed.

(** X21: without a loaded rule set a run of a validator with empty tables
    always returns a status, 0 or 1: no input makes it raise. *)
Theorem run_returns_without_rules (v : Validator) :
  file_meta v = [] -> basename_to_path v = ∅ ->
  rules_loaded (relation_rules v) = false ->
  exists code, fst (run v) = Returns code /\ (code = 0 \/ code = 1)%Z.
Proof.
  intros Hf Hb Hl. pose proof (RunFacts.run_ends v Hf Hb) as H. unfold Ends in H.
  destruct (run v) as [[code|e] v']; simpl.
  - exists code. split; [reflexivity|]. exact (proj2 (proj2 H)).
  - destruct H as (_ & _ & _ & H). congruence.
Qed.

(** X22: a run of a fresh validator raises instead of returning a status
    whenever the skeleton is sound, a rule set is loaded, and some listed
    file other than [folder.xml] parses to a root whose name ends in
    [Relationship] and that lacks its [source] or its [target] child. *)
Theorem run_raises_on_missing_side (v : Validator) (p : Path) (root : Element) :
  file_meta v = [] -> basename_to_path v = ∅ -> errors v = [] ->
  structure_errors (repo v) = [] ->
  rules_loaded (relation_rules v) = true ->
  In p (rglob (repo v)) -> name p <> "folder.xml" ->
  parse_xml (repo v) p = ParseOk root ->
  Str.endswith (Xml.localname (Xml.tag root)) "Relationship" = true ->
  side_elems Source root = [] \/ side_elems Target root = [] ->
  exists e, fst (run v) = Raises e.
Proof.
  intros Hf Hb He Hs Hl Hg Hn Hp Hend Hside. rewrite GateFacts.run_unfold. cbv zeta.
  assert (Herr : errors (fail_all (structure_errors (repo v)) v) = structure_errors (repo v)).
  { simpl. rewrite He. reflexivity. }
  rewrite Herr, Hs, Frame.fail_all_nil.
  destruct (RunMore.later_phases_raise v Hf Hb) as (v4 & Hi4 & H04 & Hfm & Hiff).
  assert (Hlisted : Listed v4).
  { intros q meta Hin. rewrite Hfm, IndexFacts.index_files_eq in Hin. simpl in Hin.
    apply RunMore.index_fold_in_inv in Hin. rewrite (ext_repo _ _ H04).
    destruct Hin as [Hin|Hin]; [rewrite Hf in Hin; destruct Hin | exact Hin]. }
  pose proof (RunMore.check_relationships_raises_iff v4 Hi4 Hlisted) as Hrel.
  rewrite (ext_rules _ _ H04), (ext_repo _ _ H04) in Hrel.
  destruct (proj2 Hrel) as [e Hr].
  - split; [exact Hl|]. exists p, root, (Str.or_empty (Xml.get root "id")).
    split; [|auto]. rewrite Hfm, IndexFacts.index_files_eq. simpl.
    apply DictFacts.get_In.
    exact (IndexMore.index_fold_get_listed p root _ v Hg Hn Hp).
  - exists e. apply Hiff. exact Hr.
Qed.

(** ** The optional checks of file names *)

(** X23: the placement error is recorded exactly when the file name
    matches, the catalog gives the token a default folder, and that folder
    differs from the first component of the file's path below the model
    directory; without a catalog entry for the token nothing is checked. *)
Theorem placement_error_exact (v : Validator) (p : Path) (root_local rid : string)
    (cls expected top : string) :
  In (ClassExpectedInFolder cls expected top p) (file_id_errors v p root_local rid) <->
  (exists fid, Re.FILENAME_RE (name p) = Some (cls, fid))
  /\ class_to_folder v !! cls = Some expected
  /\ head p = Some top
  /\ expected <> "" /\ top <> "" /\ expected <> top.
Proof.
  unfold file_id_errors. destruct (Re.FILENAME_RE (name p)) as [[c f]|].
  - rewrite !in_app_iff. split.
    + intros [H|[H|[H|H]]].
      * destruct (_ && _); simpl in H; intuition discriminate.
      * destruct (negb _); simpl in H; intuition discriminate.
      * destruct (_ && _); simpl in H; intuition discriminate.
      * unfold folder_errors in H.
        destruct (bool_decide (class_to_folder v = ∅)); [destruct H|].
        destruct (class_to_folder v !! c) as [e|] eqn:Ec; [|destruct H].
        destruct (head p) as [t|]; [|destruct H].
        destruct (Str.truthy e && Str.truthy t && negb (String.eqb e t)) eqn:E;
          [|destruct H].
        destruct H as [[= <- <- <-]|[]].
        rewrite !andb_true_iff, negb_true_iff, !RuleFacts.truthy_ne, String.eqb_neq in E.
        destruct E as [[E1 E2] E3]. split; [eauto|]. auto.
    + intros ((fid & [= <- <-]) & Hc & Hh & He & Ht & Hne). right. right. right.
      unfold folder_errors.
      assert (Hne0 : bool_decide (class_to_folder v = ∅) = false).
      { apply bool_decide_eq_false. intros H0. rewrite H0, lookup_empty in Hc. discriminate. }
      rewrite Hne0, Hc, Hh.
      apply RuleFacts.truthy_ne in He, Ht. apply String.eqb_neq in Hne.
      rewrite He, Ht, Hne. left. reflexivity.
  - split.
    + intros [H|[]]. discriminate.
    + intros ((fid & H) & _). discriminate.
Qed.

(** X24: the identifier-format error is recorded exactly when the file
    name matches, strict mode is on, and the identifier in the name is not
    of the recommended form; without strict mode the form is never
    checked. *)
Theorem strict_id_error_exact (v : Validator) (p : Path) (root_local rid fid : string) :
  In (IdNotRecommended fid p) (file_id_errors v p root_local rid) <->
  (exists cls, Re.FILENAME_RE (name p) = Some (cls, fid))
  /\ strict_ids v = true
  /\ Re.ID_RECOMMENDED fid = false.
Proof.
  unfold file_id_errors. destruct (Re.FILENAME_RE (name p)) as [[c f]|].
  - rewrite !in_app_iff. split.
    + intros [H|[H|[H|H]]].
      * destruct (_ && _); simpl in H; intuition discriminate.
      * destruct (negb _); simpl in H; intuition discriminate.
      * destruct (strict_ids v) eqn:Es; [|destruct H]. simpl in H.
        destruct (Re.ID_RECOMMENDED f) eqn:Ei; [destruct H|]. simpl in H.
        destruct H as [[= <-]|[]]. split; [eauto|]. auto.
      * apply IdFacts.folder_errors_only in H. destruct H as (e & t & H). discriminate.
    + intros ((cls & [= <- <-]) & Hs & Hi). right. right. left.
      rewrite Hs, Hi. left. reflexivity.
  - split.
    + intros [H|[]]. discriminate.
    + intros ((cls & H) & _). discriminate.
Qed.

(** ** Witnesses *)

(** X4, a witness: the element file of the sample repository. *)
Lemma index_files_complete_witness :
  file_meta (Fixture.fresh Fixture.repo_ok) = []
  /\ (Dict.get Fixture.actor_path
        (file_meta (snd (index_files (Fixture.fresh Fixture.repo_ok))))
      = Some ("BusinessActor", "id-1") <->
      In Fixture.actor_path (rglob (repo (Fixture.fresh Fixture.repo_ok)))
      /\ name Fixture.actor_path <> "folder.xml"
      /\ exists root,
           parse_xml (repo (Fixture.fresh Fixture.repo_ok)) Fixture.actor_path = ParseOk root
           /\ ("BusinessActor", "id-1") = meta_of root).
Proof.
  split; [reflexivity|].
  apply (index_files_complete (Fixture.fresh Fixture.repo_ok)). reflexivity.
Defined.

(** X7, a witness: the repository with a file that does not parse and a
    reference to it. *)
Lemma check_hrefs_after_index_witness :
  exists v1 v2,
    index_files (Fixture.fresh Fixture.repo_broken_target) = (Returns tt, v1)
    /\ check_hrefs v1 = (Returns tt, v2)
    /\ file_meta v2 = file_meta v1
    /\ basename_to_path v2 = basename_to_path v1.
Proof.
  apply (check_hrefs_after_index (Fixture.fresh Fixture.repo_broken_target));
    reflexivity.
Defined.

(** X9, a witness: two rules, listed either way. *)
Lemma rule_order_irrelevant_witness :
  _is_relationship_allowed
    (mkRuleDoc (Some [Sample.rule_actor_to_role; Sample.rule_any_business]) None false)
    "AssociationRelationship" "BusinessActor" "BusinessRole"
  = _is_relationship_allowed
      (mkRuleDoc (Some [Sample.rule_any_business; Sample.rule_actor_to_role]) None false)
      "AssociationRelationship" "BusinessActor" "BusinessRole".
Proof.
  apply (rule_order_irrelevant [Sample.rule_actor_to_role; Sample.rule_any_business]
           [Sample.rule_any_business; Sample.rule_actor_to_role]).
  apply perm_swap.
Defined.

(** X10, a witness: a specialization between different types. *)
Lemma same_class_rules_forbid_witness :
  _is_relationship_allowed Sample.rules_same_class
    "SpecializationRelationship" "BusinessActor" "BusinessRole" = false.
Proof.
  apply (same_class_rules_forbid Sample.rules_same_class).
  - reflexivity.
  - intros r [<-|[]] _. reflexivity.
  - eexists. split; [left; reflexivity | reflexivity].
  - discriminate.
Defined.

(** X11, a witness: the relationship without its source, with a rule set
    loaded. *)
Lemma check_relationship_outcome_witness :
  check_relationship (Fixture.rel_path, ("AssociationRelationship", "id-2"))
    Sample.fresh_no_source_rules
  = (Raises IndexError,
     fail_all (relationship_shape_errors Fixture.rel_no_source Fixture.rel_path)
       Sample.fresh_no_source_rules).
Proof.
  apply (proj2 (proj2 (check_relationship_outcome Sample.fresh_no_source_rules
                         Fixture.rel_path "AssociationRelationship" "id-2"
                         Fixture.rel_no_source eq_refl))).
  - reflexivity.
  - reflexivity.
  - left. reflexivity.
Defined.

(** X20, a witness: the sample repository. *)
Lemma run_only_appends_witness :
  Extends (Fixture.fresh Fixture.repo_ok) (snd (run (Fixture.fresh Fixture.repo_ok))).
Proof. apply (run_only_appends (Fixture.fresh Fixture.repo_ok)); reflexivity. Defined.

(** X21, a witness: the repository with a file that does not parse. *)
Lemma run_returns_without_rules_witness :
  exists code,
    fst (run (Fixture.fresh Fixture.repo_broken_target)) = Returns code
    /\ (code = 0 \/ code = 1)%Z.
Proof.
  apply (run_returns_without_rules (Fixture.fresh Fixture.repo_broken_target));
    reflexivity.
Defined.

(** X22, a witness: the relationship without its source, with a rule set
    loaded. *)
Lemma run_raises_on_missing_side_witness :
  exists e, fst (run Sample.fresh_no_source_rules) = Raises e.
Proof.
  apply (run_raises_on_missing_side Sample.fresh_no_source_rules
           Fixture.rel_path Fixture.rel_no_source).
  - reflexivity.
  - reflexivity.
  - reflexivity.
  - vm_compute. reflexivity.
  - reflexivity.
  - right. left. reflexivity.
  - discriminate.
  - reflexivity.
  - reflexivity.
  - left. reflexivity.
Defined.

(** ** The traversal *)

Module XmlMore.

Lemma in_iter_self (e : Element) : In e (Xml.iter e).
Proof. destruct e. left. reflexivity. Qed.

Lemma iter_eq (e : Element) : Xml.iter e = e :: Xml.descendants e.
Proof. destruct e. reflexivity. Qed.

Lemma in_descendants (e x d : Element) :
  In x (Xml.children e) -> In d (Xml.iter x) -> In d (Xml.descendants e).
Proof.
  intros Hx Hd. unfold Xml.descendants. apply in_concat. exists (Xml.iter x).
  split; [apply in_map; exact Hx | exact Hd].
Qed.

(** The traversal is closed under children. *)
Lemma iter_children (e d c : Element) :
  In d (Xml.iter e) -> In c (Xml.children d) -> In c (Xml.descendants e).
Proof.
  induction e as [t a cs IH] using Element_ind'. intros Hd Hc.
  rewrite iter_eq in Hd. destruct Hd as [<-|Hd].
  - exact (in_descendants _ c c Hc (in_iter_self c)).
  - unfold Xml.descendants in Hd. apply in_concat in Hd.
    destruct Hd as (l & Hl & Hd). apply in_map_iff in Hl. destruct Hl as (x & <- & Hx).
    rewrite Forall_forall in IH.
    assert (Hcx : In c (Xml.descendants x)).
    { apply IH; [apply list_elem_of_In; exact Hx | exact Hd | exact Hc]. }
    apply (in_descendants _ x c Hx). rewrite iter_eq. right. exact Hcx.
Qed.

End XmlMore.

(** X25: the traversals reach every depth: a child of an element that
    [root.iter()] visits is among the descendants of the root, so its
    [href] is among the references checked, and, in a diagram, its id is
    collected when it has one of the object tags. *)
Theorem traversal_reaches_every_depth (root d c : Element) :
  In d (Xml.iter root) -> In c (Xml.children d) ->
  In c (Xml.descendants root)
  /\ (forall h, Xml.get c "href" = Some h -> In h (hrefs root))
  /\ (forall i, diagram_object_id c = Some i -> i ∈ diagram_ids root).
Proof.
  intros Hd Hc. pose proof (XmlMore.iter_children root d c Hd Hc) as H.
  split; [exact H|]. split.
  - intros h Hh. apply HrefFacts.hrefs_spec. exists c. split; [|exact Hh].
    rewrite XmlMore.iter_eq. right. exact H.
  - intros i Hi. apply DiagramFacts.diagram_ids_spec. exists c. auto.
Qed.

(** X25, a witness: the connection nested in an object of the tool's
    diagram. *)
Lemma traversal_reaches_every_depth_witness :
  In (Fixture.backing "AssociationRelationship_id-2.xml#id-2")
     (Xml.descendants Sample.tool_diagram)
  /\ In "AssociationRelationship_id-2.xml#id-2" (hrefs Sample.tool_diagram).
Proof.
  destruct (traversal_reaches_every_depth Sample.tool_diagram
              (Fixture.conn "o-1" "o-2"
                 [Fixture.backing "AssociationRelationship_id-2.xml#id-2"])
              (Fixture.backing "AssociationRelationship_id-2.xml#id-2"))
    as (H1 & H2 & _).
  - simpl. tauto.
  - left. reflexivity.
  - split; [exact H1|]. apply H2. reflexivity.
Defined.

(** * The phases over the whole index *)

Module PhaseEq.
Import Frame Logic Phases RunFacts.

Lemma fail_all_app (a b : list Msg) (v : Validator) :
  fail_all b (fail_all a v) = fail_all (a ++ b) v.
Proof. unfold fail_all, set_errors. simpl. rewrite app_assoc. reflexivity. Qed.

(** On a complete index a reference check only adds the errors of the
    reference. *)
Lemma check_href_eq (v w : Validator) (p : Path) (href : string) :
  Indexed v -> SameIndex v w ->
  check_href p href w = fail_all (href_errors v p href) w.
Proof.
  intros [H1 H2] [Hext Hb Hf]. unfold href_errors, check_href, _resolve_href.
  change (basename_to_path (set_errors v [])) with (basename_to_path v).
  change (file_meta (set_errors v [])) with (file_meta v).
  change (repo (set_errors v [])) with (repo v).
  rewrite Hb, Hf, (ext_repo _ _ Hext).
  destruct (Re.HREF_RE href) as [[fname frag]|]; [|reflexivity].
  destruct (basename_to_path v !! fname) as [tgt|] eqn:Eb; [|reflexivity].
  destruct (Dict.get tgt (file_meta v)) as [[tl trid]|] eqn:Eg.
  - destruct (negb (String.eqb frag trid)); [reflexivity|].
    simpl. symmetry. apply fail_all_nil.
  - destruct (parse_xml (repo v) tgt) as [msg|troot] eqn:Ep; [reflexivity|].
    destruct (H2 _ _ _ Eb Ep) as [meta Hm]. congruence.
Qed.

Lemma check_href_fold_eq (v : Validator) (p : Path) (hs : list string) (w : Validator) :
  Indexed v -> SameIndex v w ->
  foldl (fun w' h => check_href p h w') w hs
  = fail_all (concat (map (href_errors v p) hs)) w.
Proof.
  intros Hi. revert w. induction hs as [|h hs IH]; intros w Hw; simpl.
  - symmetry. apply fail_all_nil.
  - rewrite (check_href_eq v w p h Hi Hw), IH.
    + apply fail_all_app.
    + exact (same_trans _ _ _ Hw (same_fail_all _ _)).
Qed.

Lemma check_hrefs_file_errors (v : Validator) (p : Path) (w : Validator) :
  Indexed v -> SameIndex v w ->
  check_hrefs_file p w = (Returns tt, fail_all (file_href_errors v p) w).
Proof.
  intros Hi Hw. unfold check_hrefs_file, modify, file_href_errors.
  rewrite (ext_repo _ _ (same_extends _ _ Hw)).
  destruct (parse_xml (repo v) p) as [msg|root].
  - rewrite fail_all_nil. reflexivity.
  - rewrite (check_href_fold_eq v p _ w Hi Hw). reflexivity.
Qed.

Lemma for_file_meta_keys_eq (v : Validator) (ks : list Path) (w : Validator) :
  Indexed v -> SameIndex v w ->
  for_file_meta_keys (length (file_meta v)) check_hrefs_file ks w
  = (Returns tt, fail_all (concat (map (file_href_errors v) ks)) w).
Proof.
  intros Hi. revert w. induction ks as [|k ks IH]; intros w Hw; simpl;
    rewrite (same_file_meta _ _ Hw), Nat.eqb_refl; simpl.
  - rewrite fail_all_nil. reflexivity.
  - unfold bind. rewrite (check_hrefs_file_errors v k w Hi Hw), IH.
    + rewrite fail_all_app. reflexivity.
    + exact (same_trans _ _ _ Hw (same_fail_all _ _)).
Qed.

(** The reference phase on a complete index: it returns, and adds the
    errors of every reference of every file with metadata, in order. *)
Lemma check_hrefs_eq (v w : Validator) :
  Indexed v -> SameIndex v w ->
  check_hrefs w
  = (Returns tt,
     fail_all (concat (map (file_href_errors v) (Dict.keys (file_meta v)))) w).
Proof.
  intros Hi Hw. unfold check_hrefs, bind, gets.
  rewrite (same_file_meta _ _ Hw). apply for_file_meta_keys_eq; assumption.
Qed.

(** A loop whose turns return and add errors adds them all. *)
Lemma for_each_errors {A} (body : A -> M unit) (errs : A -> list Msg)
    (I : Validator -> Prop) (l : list A) :
  (forall x w, In x l -> I w ->
     exists w', body x w = (Returns tt, w') /\ I w' /\ errors w' = errors w ++ errs x) ->
  forall v, I v ->
    exists v', for_each body l v = (Returns tt, v') /\ I v'
               /\ errors v' = errors v ++ concat (map errs l).
Proof.
  induction l as [|x l IH]; intros Hbody v Hv; simpl.
  - exists v. rewrite app_nil_r. auto.
  - destruct (Hbody x v (or_introl eq_refl) Hv) as (w & Ew & Hw & Herr).
    destruct (IH (fun y u Hy => Hbody y u (or_intror Hy)) w Hw) as (v' & Ev & Hv' & Herr').
    exists v'. unfold bind. rewrite Ew. split; [exact Ev|]. split; [exact Hv'|].
    rewrite Herr', Herr, app_assoc. reflexivity.
Qed.

Lemma file_id_errors_same (v w : Validator) (p : Path) (root_local rid : string) :
  SameIndex v w -> file_id_errors w p root_local rid = file_id_errors v p root_local rid.
Proof.
  intros [Hext _ _]. unfold file_id_errors, folder_errors.
  rewrite (ext_strict _ _ Hext), (ext_catalog _ _ Hext). reflexivity.
Qed.

(** The identity phase: it returns, leaves the index alone, and adds the
    errors of every file with metadata, in order. *)
Lemma check_files_and_ids_errors (v : Validator) :
  exists v',
    check_files_and_ids v = (Returns tt, v') /\ SameIndex v v'
    /\ errors v'
       = errors v
         ++ concat (map (fun item : Path * (string * string) =>
                           file_id_errors v (fst item) (fst (snd item)) (snd (snd item)))
                      (file_meta v)).
Proof.
  unfold check_files_and_ids, bind, gets.
  apply (for_each_errors check_file_and_id _ (fun w => SameIndex v w)); [|apply same_refl].
  intros [p [root_local rid]] w _ Hw. eexists. split; [reflexivity|]. split.
  - apply (same_trans _ _ _ Hw).
    pose proof (check_file_and_id_same (p, (root_local, rid)) w) as H. exact H.
  - simpl. rewrite (file_id_errors_same v w _ _ _ Hw). reflexivity.
Qed.

Lemma check_files_and_ids_in (v : Validator) :
  exists v',
    check_files_and_ids v = (Returns tt, v') /\ SameIndex v v'
    /\ forall m,
         In m (errors v') <->
         In m (errors v)
         \/ exists p root_local rid,
              In (p, (root_local, rid)) (file_meta v)
              /\ In m (file_id_errors v p root_local rid).
Proof.
  destruct (check_files_and_ids_errors v) as (v' & E & Hs & Herr).
  exists v'. split; [exact E|]. split; [exact Hs|].
  intros m. rewrite Herr, in_app_iff, in_concat. split.
  - intros [H|(l & Hl & Hm)]; [auto|]. right.
    apply in_map_iff in Hl. destruct Hl as ([p [rl rid]] & <- & Hin).
    exists p, rl, rid. auto.
  - intros [H|(p & rl & rid & Hin & Hm)]; [auto|]. right.
    exists (file_id_errors v p rl rid). split; [|exact Hm].
    apply in_map_iff. exists (p, (rl, rid)). auto.
Qed.

(** The diagram phase on a complete index: it returns, leaves the index
    alone, and the errors it adds are those of the diagram files. *)
Lemma check_diagrams_in (v0 v : Validator) :
  Indexed v0 -> SameIndex v0 v ->
  exists v',
    check_diagrams v = (Returns tt, v') /\ SameIndex v0 v'
    /\ forall m,
         In m (errors v') <->
         In m (errors v)
         \/ exists p root,
              DiagramFile v0 p root /\ In m (diagram_errors (relation_rules v0) root p).
Proof.
  intros Hi Hs.
  pose (errs := fun item : Path * (string * string) =>
          if is_diagram_kind (fst (snd item)) then
            match parse_xml (repo v0) (fst item) with
            | ParseOk root => diagram_errors (relation_rules v0) root (fst item)
            | ParseFail _ => []
            end
          else []).
  destruct (for_each_errors check_diagram errs (fun w => SameIndex v0 w) (file_meta v0))
    with (v := v) as (v' & E & Hs' & Herr); [|exact Hs|].
  { intros [p [kind rid]] w Hin Hw. unfold errs. cbn [fst snd].
    destruct (is_diagram_kind kind) eqn:Ek.
    - destruct (item_parses _ _ _ Hi Hin) as [root Hp]. rewrite Hp.
      assert (Hpw : parse_xml (repo w) p = ParseOk root).
      { rewrite (ext_repo _ _ (same_extends _ _ Hw)). exact Hp. }
      rewrite (DiagramFacts.check_diagram_eq w p kind rid root Ek Hpw).
      rewrite (ext_rules _ _ (same_extends _ _ Hw)).
      eexists. split; [reflexivity|]. split; [|reflexivity].
      exact (same_trans _ _ _ Hw (same_fail_all _ _)).
    - exists w. unfold check_diagram. rewrite Ek. simpl. rewrite app_nil_r. auto. }
  exists v'. split.
  { unfold check_diagrams, bind, gets. rewrite (same_file_meta _ _ Hs). exact E. }
  split; [exact Hs'|].
  intros m. rewrite Herr, in_app_iff, in_concat. split.
  - intros [H|(l & Hl & Hm)]; [auto|]. right.
    apply in_map_iff in Hl. destruct Hl as ([p [kind rid]] & <- & Hin).
    unfold errs in Hm. simpl in Hm.
    destruct (is_diagram_kind kind) eqn:Ek; [|destruct Hm].
    destruct (parse_xml (repo v0) p) as [msg|root] eqn:Ep; [destruct Hm|].
    exists p, root. split; [|exact Hm]. exists kind, rid. auto.
  - intros [H|(p & root & (kind & rid & Hin & Ek & Ep) & Hm)]; [auto|]. right.
    exists (errs (p, (kind, rid))). split.
    + apply in_map_iff. exists (p, (kind, rid)). auto.
    + unfold errs. simpl. rewrite Ek, Ep. exact Hm.
Qed.


(** The index [index_files] builds from empty tables is complete. *)
Lemma index_files_indexed (v : Validator) :
  file_meta v = [] -> basename_to_path v = ∅ ->
  exists v', index_files v = (Returns tt, v') /\ Extends v v' /\ Indexed v'.
Proof.
  intros Hf Hb.
  pose proof (index_files_ends v (initial_indexed v Hf Hb)) as H. unfold Ends in H.
  destruct (index_files v) as [[[]|e] v']; [|destruct H]. exists v'. tauto.
Qed.

Lemma indexed_after_index (v : Validator) :
  file_meta v = [] -> basename_to_path v = ∅ -> Indexed (snd (index_files v)).
Proof.
  intros Hf Hb. destruct (index_files_indexed v Hf Hb) as (v' & E & _ & Hi).
  rewrite E. exact Hi.
Qed.






Lemma href_errors_unparsed (v : Validator) (p : Path) (href fname frag : string)
    (tgt : Path) (msg : string) :
  Re.HREF_RE href = Some (fname, frag) ->
  basename_to_path v !! fname = Some tgt ->
  Dict.get tgt (file_meta v) = None ->
  parse_xml (repo v) tgt = ParseFail msg ->
  href_errors v p href = [FailedToParseTarget href msg].
Proof.
  intros H Hb Hg Hp. unfold href_errors, check_href, _resolve_href. rewrite H.
  change (basename_to_path (set_errors v [])) with (basename_to_path v).
  change (file_meta (set_errors v [])) with (file_meta v).
  change (repo (set_errors v [])) with (repo v).
  rewrite Hb, Hg, Hp. reflexivity.
Qed.

(** Where the errors of a reference sit after the phase. *)
Lemma href_error_recorded (v : Validator) (p : Path) (root : Element) (href : string)
    (m : Msg) (es : list Msg) :
  In p (Dict.keys (file_meta v)) ->
  parse_xml (repo v) p = ParseOk root ->
  In href (hrefs root) ->
  In m (href_errors v p href) ->
  In m (es ++ concat (map (file_href_errors v) (Dict.keys (file_meta v)))).
Proof.
  intros Hk Hp Hh Hm. apply in_or_app. right.
  apply in_concat. exists (file_href_errors v p). split; [apply in_map; exact Hk|].
  unfold file_href_errors. rewrite Hp. apply in_concat.
  exists (href_errors v p href). split; [apply in_map; exact Hh | exact Hm].
Qed.

(** A run on a sound skeleton, phase by phase: the index, the identity
    check and the reference check return; the relationship check returns
    or raises [IndexError]; after it returns, the diagram check and the
    tool load return and the report gives the status. *)
Lemma run_phase_by_phase (v : Validator) :
  file_meta v = [] -> basename_to_path v = ∅ -> errors v = [] ->
  structure_errors (repo v) = [] ->
  exists v2 v3 v4,
    index_files v = (Returns tt, v2) /\ Indexed v2 /\ Extends v v2
    /\ check_files_and_ids v2 = (Returns tt, v3) /\ SameIndex v2 v3
    /\ check_hrefs v3 = (Returns tt, v4) /\ SameIndex v3 v4
    /\ ((exists v5 v6,
           check_relationships v4 = (Returns tt, v5) /\ SameIndex v4 v5
           /\ check_diagrams v5 = (Returns tt, v6) /\ SameIndex v5 v6
           /\ run v = _report (fail_all (archi_errors (archi_bin v6)) v6))
        \/ (exists v5,
              check_relationships v4 = (Raises IndexError, v5) /\ SameIndex v4 v5
              /\ rules_loaded (relation_rules v) = true
              /\ run v = (Raises IndexError, v5))).
Proof.
  intros Hf Hb He Hs.
  assert (Hrun : run v = later_phases v).
  { rewrite GateFacts.run_unfold. cbv zeta. rewrite Hs, fail_all_nil, He. reflexivity. }
  destruct (index_files_indexed v Hf Hb) as (v2 & E2 & H02 & Hi2).
  destruct (RunMore.ends_returns _ _ _ (check_files_and_ids_ends v2)) as ([] & v3 & E3 & H23).
  pose proof (same_indexed _ _ H23 Hi2) as Hi3.
  destruct (RunMore.ends_returns _ _ _ (check_hrefs_ends v3 Hi3)) as ([] & v4 & E4 & H34).
  pose proof (same_indexed _ _ H34 Hi3) as Hi4.
  exists v2, v3, v4. repeat (split; [assumption|]).
  rewrite Hrun. unfold later_phases, bind. rewrite E2, E3, E4.
  pose proof (check_relationships_ends v4 Hi4) as H5. unfold Ends in H5.
  destruct (check_relationships v4) as [[[]|e5] v5].
  - left. pose proof (same_indexed _ _ H5 Hi4) as Hi5.
    destruct (RunMore.ends_returns _ _ _ (check_diagrams_ends v5 Hi5)) as ([] & v6 & E6 & H56).
    exists v5, v6. rewrite E6. repeat (split; [assumption || reflexivity|]). reflexivity.
  - right. destruct H5 as (-> & H45 & _ & Hl). exists v5.
    split; [reflexivity|]. split; [exact H45|]. split; [|reflexivity].
    rewrite <- (ext_rules _ _ H02), <- (ext_rules _ _ (same_extends _ _ H23)),
      <- (ext_rules _ _ (same_extends _ _ H34)). exact Hl.
Qed.

(** Whatever the reference check recorded is still recorded when the run
    ends, whether it returns or raises. *)
Lemma run_keeps_reference_errors (v v2 v3 v4 : Validator) (m : Msg) :
  check_hrefs v3 = (Returns tt, v4) ->
  Indexed v4 ->
  run v = later_phases v ->
  index_files v = (Returns tt, v2) ->
  check_files_and_ids v2 = (Returns tt, v3) ->
  In m (errors v4) -> In m (errors (snd (run v))).
Proof.
  intros E4 Hi4 Hrun E2 E3 Hm. rewrite Hrun. unfold later_phases, bind.
  rewrite E2, E3, E4.
  pose proof (check_relationships_ends v4 Hi4) as H5. unfold Ends in H5.
  destruct (check_relationships v4) as [[[]|e5] v5].
  - pose proof (same_indexed _ _ H5 Hi4) as Hi5.
    destruct (RunMore.ends_returns _ _ _ (check_diagrams_ends v5 Hi5)) as ([] & v6 & E6 & H56).
    rewrite E6. simpl.
    destruct (ext_errors _ _ (same_extends _ _ H5)) as [es5 Hes5].
    destruct (ext_errors _ _ (same_extends _ _ H56)) as [es6 Hes6].
    rewrite Hes6, Hes5. apply in_or_app. left. apply in_or_app. left.
    apply in_or_app. left. exact Hm.
  - simpl. destruct H5 as (_ & H45 & _).
    destruct (ext_errors _ _ (same_extends _ _ H45)) as [es5 Hes5].
    rewrite Hes5. apply in_or_app. left. exact Hm.
Qed.

End PhaseEq.

(** ** The claims on the phases as the run applies them *)

Module IdMore.

Lemma id_mismatch_in (v : Validator) (p : Path) (root_local rid cls fid : string) :
  Re.FILENAME_RE (name p) = Some (cls, fid) ->
  (In (RootIdDoesNotMatch rid fid p) (file_id_errors v p root_local rid) <-> rid <> fid).
Proof.
  intros H. unfold file_id_errors. rewrite H. rewrite !in_app_iff. split.
  - intros [Hi|[Hi|[Hi|Hi]]].
    + destruct (_ && _); simpl in Hi; intuition discriminate.
    + destruct (negb (String.eqb rid fid)) eqn:E; simpl in Hi; [|contradiction].
      apply negb_true_iff in E. apply String.eqb_neq. exact E.
    + destruct (_ && _); simpl in Hi; intuition discriminate.
    + apply IdFacts.folder_errors_only in Hi. destruct Hi as (e & t & Hi). discriminate.
  - intros Hne. right. left. apply String.eqb_neq in Hne. rewrite Hne. left. reflexivity.
Qed.

Lemma class_mismatch_in (v : Validator) (p : Path) (root_local rid cls fid : string) :
  Re.FILENAME_RE (name p) = Some (cls, fid) ->
  (In (RootDoesNotMatchClass root_local cls p) (file_id_errors v p root_local rid)
   <-> root_local <> cls /\ cls <> "ArchimateDiagramModel" /\ cls <> "SketchModel").
Proof.
  intros H. unfold file_id_errors. rewrite H. rewrite !in_app_iff. split.
  - intros [Hi|[Hi|[Hi|Hi]]].
    + destruct (negb (is_diagram_kind cls)) eqn:Ek;
        destruct (negb (String.eqb root_local cls)) eqn:Er;
        simpl in Hi; try contradiction.
      apply negb_true_iff in Ek, Er. apply String.eqb_neq in Er.
      apply IdFacts.is_diagram_kind_false in Ek. tauto.
    + destruct (negb _); simpl in Hi; intuition discriminate.
    + destruct (_ && _); simpl in Hi; intuition discriminate.
    + apply IdFacts.folder_errors_only in Hi. destruct Hi as (e & t & Hi). discriminate.
  - intros (Hr & Hk). left.
    apply IdFacts.is_diagram_kind_false in Hk. apply String.eqb_neq in Hr.
    rewrite Hk, Hr. left. reflexivity.
Qed.

End IdMore.

Module ConnectionMore.

Lemma end_not_found_in (rules : RuleDoc) (root : Element) (p : Path)
    (s : Side) (id : option string) :
  In (ConnectionEndNotFound s id p) (diagram_errors rules root p) <->
  exists conn,
    Connection root conn
    /\ Xml.get conn (side_label s) = id
    /\ end_missing (diagram_ids root) id = true.
Proof.
  rewrite DiagramMore.diagram_errors_in. split.
  - intros [(conn & Hd & Ht & [H|H])|(dmo & _ & _ & H)].
    + apply DiagramFacts.endpoint_errors_spec in H. exists conn. split; [split; assumption|].
      exact H.
    + apply DiagramFacts.backing_errors_kinds in H.
      destruct H as [[H _]|[[H _]|(_ & r & a & b & H)]]; discriminate.
    + apply DiagramFacts.object_errors_kinds in H. destruct H; discriminate.
  - intros (conn & [Hd Ht] & Hg & He). left. exists conn.
    split; [exact Hd|]. split; [exact Ht|]. left.
    apply DiagramFacts.endpoint_errors_spec. split; assumption.
Qed.

Lemma missing_rel_in_backing (rules : RuleDoc) (root conn : Element) (p : Path) :
  In (ConnectionMissingRel p) (backing_errors rules root conn p) <->
  List.filter is_rel_child (Xml.children conn) = [].
Proof.
  split.
  - intros H. apply DiagramFacts.backing_errors_kinds in H.
    destruct H as [[_ H]|[[H _]|(_ & r & a & b & H)]]; [exact H | discriminate..].
  - intros H. unfold backing_errors. rewrite H. left. reflexivity.
Qed.

Lemma missing_href_in_backing (rules : RuleDoc) (root conn : Element) (p : Path) :
  In (ConnectionMissingRelHref p) (backing_errors rules root conn p) <->
  exists ch, In ch (List.filter is_rel_child (Xml.children conn))
             /\ Str.falsy_opt (Xml.get ch "href") = true.
Proof.
  split.
  - intros H. apply DiagramFacts.backing_errors_kinds in H.
    destruct H as [[H _]|[[_ H]|(_ & r & a & b & H)]]; [discriminate | exact H | discriminate].
  - intros (ch & Hch & Hf). unfold backing_errors. apply in_app_iff. left.
    apply in_concat. exists (rel_child_errors rules root conn p ch). split.
    + apply in_map. exact Hch.
    + unfold rel_child_errors. rewrite Hf. left. reflexivity.
Qed.

Lemma missing_rel_in (rules : RuleDoc) (root : Element) (p : Path) :
  In (ConnectionMissingRel p) (diagram_errors rules root p) <->
  exists conn,
    Connection root conn /\ List.filter is_rel_child (Xml.children conn) = [].
Proof.
  rewrite DiagramMore.diagram_errors_in. split.
  - intros [(conn & Hd & Ht & [H|H])|(dmo & _ & _ & H)].
    + apply DiagramMore.endpoint_errors_kinds in H. destruct H as (s & id & H). discriminate.
    + exists conn. split; [split; assumption|].
      exact (proj1 (missing_rel_in_backing rules root conn p) H).
    + apply DiagramFacts.object_errors_kinds in H. destruct H; discriminate.
  - intros (conn & [Hd Ht] & H). left. exists conn.
    split; [exact Hd|]. split; [exact Ht|]. right.
    exact (proj2 (missing_rel_in_backing rules root conn p) H).
Qed.

Lemma missing_href_in (rules : RuleDoc) (root : Element) (p : Path) :
  In (ConnectionMissingRelHref p) (diagram_errors rules root p) <->
  exists conn ch,
    Connection root conn
    /\ In ch (List.filter is_rel_child (Xml.children conn))
    /\ Str.falsy_opt (Xml.get ch "href") = true.
Proof.
  rewrite DiagramMore.diagram_errors_in. split.
  - intros [(conn & Hd & Ht & [H|H])|(dmo & _ & _ & H)].
    + apply DiagramMore.endpoint_errors_kinds in H. destruct H as (s & id & H). discriminate.
    + apply missing_href_in_backing in H. destruct H as (ch & Hch & Hf).
      exists conn, ch. split; [split; assumption|]. auto.
    + apply DiagramFacts.object_errors_kinds in H. destruct H; discriminate.
  - intros (conn & ch & [Hd Ht] & Hch & Hf). left. exists conn.
    split; [exact Hd|]. split; [exact Ht|]. right.
    apply missing_href_in_backing. exists ch. auto.
Qed.

(** No message of a diagram file is about the number of backing
    relationships. *)
Lemma diagram_errors_kinds (rules : RuleDoc) (root : Element) (p : Path) (m : Msg) :
  In m (diagram_errors rules root p) -> DiagramMessage rules p m.
Proof.
  rewrite DiagramMore.diagram_errors_in. unfold DiagramMessage.
  intros [(conn & _ & _ & [H|H])|(dmo & _ & _ & H)].
  - left. exact (DiagramMore.endpoint_errors_kinds _ _ _ _ H).
  - apply DiagramFacts.backing_errors_kinds in H.
    destruct H as [[H _]|[[H _]|H]]; tauto.
  - apply DiagramFacts.object_errors_kinds in H. tauto.
Qed.

(** With at least one backing relationship and an [href] on each, the
    children loop of a connection adds only legality errors, and none
    without a rule set. *)
Lemma backing_errors_complete (rules : RuleDoc) (root conn : Element) (p : Path) (m : Msg) :
  List.filter is_rel_child (Xml.children conn) <> [] ->
  (forall ch, In ch (List.filter is_rel_child (Xml.children conn)) ->
              Str.falsy_opt (Xml.get ch "href") = false) ->
  In m (backing_errors rules root conn p) ->
  rules_loaded rules = true /\ exists rtype s t, m = ConnectionNotAllowed rtype s t p.
Proof.
  intros Hne Hall Hin. apply DiagramFacts.backing_errors_kinds in Hin.
  destruct Hin as [[_ H]|[[_ (ch & Hch & Hf)]|H]].
  - contradiction.
  - rewrite (Hall ch Hch) in Hf. discriminate.
  - exact H.
Qed.

End ConnectionMore.



(** A value of the shape in words that the pattern refuses: its fragment
    holds a newline before its end. *)
Example href_re_5 :
  HrefShape ("a.xml#b" ++ String Str.newline "c")
  /\ Re.HREF_RE ("a.xml#b" ++ String Str.newline "c") = None.
Proof.
  split; [|reflexivity].
  exists (Str.chars "a"), (Str.chars ("b" ++ String Str.newline "c")).
  split; [reflexivity|]. split; [discriminate|]. split; [|discriminate].
  intros [H|[]]. discriminate.
Qed.


(** C5: for a validator the constructor built, every structural fault the
    specification lists is recorded by the structural check; when that
    check records an error the run returns status 1 in the state the check
    left, with nothing indexed; when it records none, the index, the
    identity check and the reference check run and return, and then either
    the relationship check returns and the diagram check, the tool load and
    the report run, or the relationship check raises [IndexError] (a rule
    set is loaded) and the run ends there, before the diagram check, the
    tool load and the report. *)
Theorem C5_structure_gate (r : Repo) (archi : option ArchiRun) (strict : bool)
    (v : Validator) :
  init r archi strict = inr v ->
  (StructuralFault r -> structure_errors r <> [])
  /\ (structure_errors r <> [] ->
      run v = (Returns 1%Z, fail_all (structure_errors r) v)
      /\ file_meta (snd (run v)) = []
      /\ basename_to_path (snd (run v)) = ∅
      /\ errors (snd (run v)) = structure_errors r)
  /\ (structure_errors r = [] ->
      exists v2 v3 v4,
        index_files v = (Returns tt, v2)
        /\ check_files_and_ids v2 = (Returns tt, v3)
        /\ check_hrefs v3 = (Returns tt, v4)
        /\ ((exists v5 v6,
               check_relationships v4 = (Returns tt, v5)
               /\ check_diagrams v5 = (Returns tt, v6)
               /\ optional_archi_load v6 = (Returns tt, fail_all (archi_errors archi) v6)
               /\ run v = _report (fail_all (archi_errors archi) v6))
            \/ (exists v5,
                  check_relationships v4 = (Raises IndexError, v5)
                  /\ rules_loaded (relation_rules v) = true
                  /\ run v = (Raises IndexError, v5)))).
Proof.
  intros Hv.
  destruct (InitFacts.init_fresh _ _ _ _ Hv) as (Hf & Hb & He & Hr & Ha & _).
  subst r. split; [apply GateFacts.fault_recorded|]. split.
  - intros Hne. rewrite GateFacts.run_unfold. cbv zeta.
    assert (Herr : errors (fail_all (structure_errors (repo v)) v) = structure_errors (repo v)).
    { simpl. rewrite He. reflexivity. }
    rewrite Herr. destruct (structure_errors (repo v)) as [|m ms] eqn:Es; [contradiction|].
    simpl. rewrite He. auto.
  - intros Hs.
    destruct (PhaseEq.run_phase_by_phase v Hf Hb He Hs)
      as (v2 & v3 & v4 & E2 & Hi2 & H02 & E3 & H23 & E4 & H34 & Hrest).
    exists v2, v3, v4. repeat (split; [assumption|]).
    assert (Harchi : forall v5 v6, SameIndex v4 v5 -> SameIndex v5 v6 -> archi_bin v6 = archi).
    { intros v5 v6 H45 H56.
      rewrite (ext_archi _ _ (same_extends _ _ H56)), (ext_archi _ _ (same_extends _ _ H45)),
        (ext_archi _ _ (same_extends _ _ H34)), (ext_archi _ _ (same_extends _ _ H23)),
        (ext_archi _ _ H02). exact Ha. }
    destruct Hrest as [(v5 & v6 & E5 & H45 & E6 & H56 & Hrun)|(v5 & E5 & H45 & Hl & Hrun)].
    + left. exists v5, v6. rewrite <- (Harchi v5 v6 H45 H56).
      repeat (split; [assumption || reflexivity|]). exact Hrun.
    + right. exists v5. auto.
Qed.

(** C5, a witness: the repository with a rule set, a relationship that
    lacks its source and a diagram with a dangling end. *)
Lemma C5_structure_gate_witness :
  init Cases.repo_cut_short (Some NotExecutable) false = inr Cases.validator_cut_short
  /\ structure_errors Cases.repo_cut_short = []
  /\ exists v2 v3 v4,
       index_files Cases.validator_cut_short = (Returns tt, v2)
       /\ check_files_and_ids v2 = (Returns tt, v3)
       /\ check_hrefs v3 = (Returns tt, v4)
       /\ ((exists v5 v6,
              check_relationships v4 = (Returns tt, v5)
              /\ check_diagrams v5 = (Returns tt, v6)
              /\ optional_archi_load v6
                 = (Returns tt, fail_all (archi_errors (Some NotExecutable)) v6)
              /\ run Cases.validator_cut_short
                 = _report (fail_all (archi_errors (Some NotExecutable)) v6))
           \/ (exists v5,
                 check_relationships v4 = (Raises IndexError, v5)
                 /\ rules_loaded (relation_rules Cases.validator_cut_short) = true
                 /\ run Cases.validator_cut_short = (Raises IndexError, v5))).
Proof.
  split; [reflexivity|]. split; [vm_compute; reflexivity|].
  apply (proj2 (proj2 (C5_structure_gate Cases.repo_cut_short (Some NotExecutable) false
                         Cases.validator_cut_short eq_refl))).
  vm_compute. reflexivity.
Defined.

(** C5, where the code departs from it: the skeleton is sound, so the
    structural check records nothing, yet the run ends in the relationship
    phase with [IndexError]; the dangling end of the diagram and the tool
    that cannot be executed, which the same repository without its rule
    document gets reported, are never looked at, and nothing is
    reported. *)
Lemma C5_later_phases_cut_short :
  structure_errors Cases.repo_cut_short = []
  /\ main Cases.repo_cut_short (Some NotExecutable) false = Traceback IndexError
  /\ (exists v',
        run Cases.validator_cut_short = (Raises IndexError, v')
        /\ errors v' = [RelationshipMissingSingle Source Fixture.rel_path])
  /\ exists v,
       main Cases.repo_not_cut_short (Some NotExecutable) false = Exit 1%Z v
       /\ errors v = [ RelationshipMissingSingle Source Fixture.rel_path;
                       ConnectionEndNotFound Target (Some "o-2") Fixture.diagram_a_path;
                       ArchiNotExecutable ].
Proof.
  split; [vm_compute; reflexivity|]. split; [vm_compute; reflexivity|]. split.
  - eexists. split; [vm_compute; reflexivity | reflexivity].
  - eexists. split; [vm_compute; reflexivity | reflexivity].
Qed.

(** C6, what the identity check does over the whole index: the phase
    returns, and an error is among those recorded after it exactly when it
    was recorded before or is an error of a file with metadata.  For such a
    file, a name that does not match the pattern is the error; for a name
    [<token>_<rest>.xml] the identifier error is recorded exactly when the
    root identifier differs from [<rest>], and the root error exactly when
    the token differs from the root's local name and is neither
    [ArchimateDiagramModel] nor [SketchModel]: the exemption looks at the
    token alone, so under these two tokens any root passes, not only the
    diagram roots. *)
Theorem C6_identity_check (v : Validator) :
  exists v',
    check_files_and_ids v = (Returns tt, v')
    /\ (forall m,
          In m (errors v') <->
          In m (errors v)
          \/ exists p root_local rid,
               In (p, (root_local, rid)) (file_meta v)
               /\ In m (file_id_errors v p root_local rid))
    /\ forall p root_local rid,
         In (p, (root_local, rid)) (file_meta v) ->
         (Re.FILENAME_RE (name p) = None ->
          file_id_errors v p root_local rid = [InvalidFilenamePattern p]
          /\ In (InvalidFilenamePattern p) (errors v'))
         /\ forall cls fid,
              Re.FILENAME_RE (name p) = Some (cls, fid) ->
              (In (RootIdDoesNotMatch rid fid p) (file_id_errors v p root_local rid)
               <-> rid <> fid)
              /\ (rid <> fid -> In (RootIdDoesNotMatch rid fid p) (errors v'))
              /\ (In (RootDoesNotMatchClass root_local cls p)
                    (file_id_errors v p root_local rid)
                  <-> root_local <> cls
                      /\ cls <> "ArchimateDiagramModel" /\ cls <> "SketchModel")
              /\ (root_local <> cls ->
                  cls <> "ArchimateDiagramModel" -> cls <> "SketchModel" ->
                  In (RootDoesNotMatchClass root_local cls p) (errors v')).
Proof.
  destruct (PhaseEq.check_files_and_ids_in v) as (v' & E & _ & Hin).
  exists v'. split; [exact E|]. split; [exact Hin|].
  intros p root_local rid Hp.
  assert (Hrec : forall m, In m (file_id_errors v p root_local rid) -> In m (errors v')).
  { intros m Hm. apply Hin. right. exists p, root_local, rid. auto. }
  split.
  - intros Hn.
    assert (Hf : file_id_errors v p root_local rid = [InvalidFilenamePattern p]).
    { unfold file_id_errors. rewrite Hn. reflexivity. }
    split; [exact Hf|]. apply Hrec. rewrite Hf. left. reflexivity.
  - intros cls fid Hm.
    pose proof (IdMore.id_mismatch_in v p root_local rid cls fid Hm) as H1.
    pose proof (IdMore.class_mismatch_in v p root_local rid cls fid Hm) as H2.
    split; [exact H1|]. split; [intros Hne; apply Hrec, H1; exact Hne|].
    split; [exact H2|]. intros Ha Hb Hc. apply Hrec, H2. auto.
Qed.

(** C7: the endpoint check of a connection looks only at its own diagram
    file.  On the index that [index_files] leaves, the diagram phase
    returns, and a dangling-endpoint error for a side, an id and a file is
    among the errors after it exactly when it was recorded before or the
    file is a diagram file of the index with a connection that has, on
    that side, this id, and the id is missing, empty or not in the set of
    ids collected from the diagram objects among the descendants of that
    same file's root; the root of a file is the one [parse_xml] gives for
    its path. *)
Theorem C7_connection_endpoints_local (v : Validator) :
  Indexed v ->
  exists v',
    check_diagrams v = (Returns tt, v')
    /\ (forall s id p,
          In (ConnectionEndNotFound s id p) (errors v') <->
          In (ConnectionEndNotFound s id p) (errors v)
          \/ exists root conn,
               DiagramFile v p root
               /\ Connection root conn
               /\ Xml.get conn (side_label s) = id
               /\ end_missing (diagram_ids root) id = true)
    /\ (forall p root root', DiagramFile v p root -> DiagramFile v p root' -> root = root')
    /\ (forall root id,
          end_missing (diagram_ids root) id = true <->
          id = None \/ id = Some "" \/ exists s, id = Some s /\ s ∉ diagram_ids root)
    /\ (forall root s,
          s ∈ diagram_ids root <->
          exists child, In child (Xml.descendants root) /\ diagram_object_id child = Some s).
Proof.
  intros Hi.
  destruct (PhaseEq.check_diagrams_in v v Hi (Frame.same_refl v)) as (v' & E & _ & Hin).
  exists v'. split; [exact E|]. split; [|split; [|split]].
  - intros s id p. rewrite Hin. split.
    + intros [H|(q & root & Hd & Hm)]; [auto|]. right.
      pose proof (ConnectionMore.diagram_errors_kinds _ _ _ _ Hm) as Hk.
      assert (Hq : q = p).
      { destruct Hk as [(s' & id' & Hk)|[Hk|[Hk|[(_ & r & a & b & Hk)|[Hk|Hk]]]]];
          try discriminate. injection Hk as _ _ Hk. symmetry. exact Hk. }
      subst q. apply ConnectionMore.end_not_found_in in Hm.
      destruct Hm as (conn & Hc & Hg & He). exists root, conn. auto.
    + intros [H|(root & conn & Hd & Hc & Hg & He)]; [auto|]. right.
      exists p, root. split; [exact Hd|].
      apply ConnectionMore.end_not_found_in. exists conn. auto.
  - intros p root root' (k & r & _ & _ & H) (k' & r' & _ & _ & H'). congruence.
  - intros root. apply DiagramFacts.end_missing_spec.
  - intros root. apply DiagramFacts.diagram_ids_spec.
Qed.

(** C7, a witness: the id [o-2] is a diagram object of the second sample
    diagram only, and the connection of the first that ends there is
    reported as dangling by the diagram phase. *)
Lemma C7_connection_endpoints_local_witness :
  Indexed (snd (index_files (Fixture.fresh Fixture.repo_two_diagrams)))
  /\ "o-2" ∈ diagram_ids Fixture.diagram_b
  /\ exists v',
       check_diagrams (snd (index_files (Fixture.fresh Fixture.repo_two_diagrams)))
       = (Returns tt, v')
       /\ In (ConnectionEndNotFound Target (Some "o-2") Fixture.diagram_a_path) (errors v').
Proof.
  assert (Hi : Indexed (snd (index_files (Fixture.fresh Fixture.repo_two_diagrams)))).
  { apply PhaseEq.indexed_after_index; reflexivity. }
  split; [exact Hi|].
  destruct (C7_connection_endpoints_local _ Hi) as (v' & E & Hend & _ & _ & Hids).
  split.
  - apply Hids. exists (Fixture.dobj "o-2"). split; [left; reflexivity | reflexivity].
  - exists v'. split; [exact E|]. apply Hend. right.
    exists Fixture.diagram_a,
      (Fixture.conn "o-1" "o-2" [Fixture.backing "AssociationRelationship_id-2.xml#id-2"]).
    split.
    + exists "ArchimateDiagramModel", "id-a".
      split; [vm_compute; tauto|]. split; reflexivity.
    + split; [split; [right; left; reflexivity | reflexivity]|].
      split; [reflexivity | vm_compute; reflexivity].
Defined.

(** C8, as the code has it.  On the index that [index_files] leaves, the
    diagram phase returns; the missing-child error of a file is among the
    errors after it exactly when it was recorded before or a connection of
    that diagram file has no [archimateRelationship] child, and the
    missing-[href] error exactly when it was recorded before or some such
    child of a connection has no [href] or an empty one.  No message of the
    phase is about the number of such children: a connection with more
    than one is not an error for that, each child is checked on its own,
    and with an [href] on each the only errors the children can add are
    legality errors, under a loaded rule set. *)
Theorem C8_backing_relationship (v : Validator) :
  Indexed v ->
  exists v',
    check_diagrams v = (Returns tt, v')
    /\ (forall p,
          In (ConnectionMissingRel p) (errors v') <->
          In (ConnectionMissingRel p) (errors v)
          \/ exists root conn,
               DiagramFile v p root
               /\ Connection root conn
               /\ List.filter is_rel_child (Xml.children conn) = [])
    /\ (forall p,
          In (ConnectionMissingRelHref p) (errors v') <->
          In (ConnectionMissingRelHref p) (errors v)
          \/ exists root conn ch,
               DiagramFile v p root
               /\ Connection root conn
               /\ In ch (List.filter is_rel_child (Xml.children conn))
               /\ Str.falsy_opt (Xml.get ch "href") = true)
    /\ (forall m,
          In m (errors v') ->
          In m (errors v) \/ exists p, DiagramMessage (relation_rules v) p m)
    /\ (forall p root conn m,
          DiagramFile v p root ->
          Connection root conn ->
          List.filter is_rel_child (Xml.children conn) <> [] ->
          (forall ch, In ch (List.filter is_rel_child (Xml.children conn)) ->
                      Str.falsy_opt (Xml.get ch "href") = false) ->
          In m (connection_errors (relation_rules v) root p conn) ->
          (exists s id, m = ConnectionEndNotFound s id p)
          \/ (rules_loaded (relation_rules v) = true
              /\ exists rtype s t, m = ConnectionNotAllowed rtype s t p)).
Proof.
  intros Hi.
  destruct (PhaseEq.check_diagrams_in v v Hi (Frame.same_refl v)) as (v' & E & _ & Hin).
  assert (Hpath : forall q p root m,
            In m (diagram_errors (relation_rules v) root q) ->
            m = ConnectionMissingRel p \/ m = ConnectionMissingRelHref p -> q = p).
  { intros q p root m Hm Heq.
    pose proof (ConnectionMore.diagram_errors_kinds _ _ _ _ Hm) as Hk.
    destruct Heq as [-> | ->];
      destruct Hk as [(s' & id' & Hk)|[Hk|[Hk|[(_ & r & a & b & Hk)|[Hk|Hk]]]]];
      try discriminate; injection Hk as Hk; symmetry; exact Hk. }
  exists v'. split; [exact E|]. split; [|split; [|split]].
  - intros p. rewrite Hin. split.
    + intros [H|(q & root & Hd & Hm)]; [auto|]. right.
      assert (Hq : q = p) by (apply (Hpath q p root _ Hm); auto). subst q.
      apply ConnectionMore.missing_rel_in in Hm. destruct Hm as (conn & Hc & Hn).
      exists root, conn. auto.
    + intros [H|(root & conn & Hd & Hc & Hn)]; [auto|]. right.
      exists p, root. split; [exact Hd|].
      apply ConnectionMore.missing_rel_in. exists conn. auto.
  - intros p. rewrite Hin. split.
    + intros [H|(q & root & Hd & Hm)]; [auto|]. right.
      assert (Hq : q = p) by (apply (Hpath q p root _ Hm); auto). subst q.
      apply ConnectionMore.missing_href_in in Hm. destruct Hm as (conn & ch & Hc & Hch & Hf).
      exists root, conn, ch. auto.
    + intros [H|(root & conn & ch & Hd & Hc & Hch & Hf)]; [auto|]. right.
      exists p, root. split; [exact Hd|].
      apply ConnectionMore.missing_href_in. exists conn, ch. auto.
  - intros m Hm. apply Hin in Hm. destruct Hm as [Hm|(p & root & _ & Hm)]; [auto|].
    right. exists p. exact (ConnectionMore.diagram_errors_kinds _ _ _ _ Hm).
  - intros p root conn m _ _ Hne Hall Hm. unfold connection_errors in Hm.
    apply in_app_iff in Hm. destruct Hm as [Hm|Hm].
    + left. exact (DiagramMore.endpoint_errors_kinds _ _ _ _ Hm).
    + right. exact (ConnectionMore.backing_errors_complete _ _ _ _ _ Hne Hall Hm).
Qed.

(** C8, a witness: the diagram whose connection has two backing
    children, after indexing; the diagram phase adds no error. *)
Lemma C8_backing_relationship_witness :
  Indexed (snd (index_files (Fixture.fresh Fixture.repo_two_backing)))
  /\ exists v',
       check_diagrams (snd (index_files (Fixture.fresh Fixture.repo_two_backing)))
       = (Returns tt, v')
       /\ ~ In (ConnectionMissingRel Fixture.diagram_a_path) (errors v')
       /\ ~ In (ConnectionMissingRelHref Fixture.diagram_a_path) (errors v').
Proof.
  assert (Hi : Indexed (snd (index_files (Fixture.fresh Fixture.repo_two_backing)))).
  { apply PhaseEq.indexed_after_index; reflexivity. }
  split; [exact Hi|].
  destruct (C8_backing_relationship _ Hi) as (v' & E & _).
  exists v'. split; [exact E|].
  assert (Hv : errors v' = []).
  { change v' with (snd (Returns tt, v')). rewrite <- E. vm_compute. reflexivity. }
  rewrite Hv. simpl. tauto.
Defined.

(** C10, as the code has it.  A listed file that fails to parse is entered
    in the map from base names to paths and gets no metadata.  When no
    file listed after it has the same base name, the name leads to it
    after indexing; the reference phase then returns, and for every
    reference, in a file with metadata, whose file name is that name, the
    on-demand parse is taken and fails again: what the reference adds is
    the failed-to-parse-target error, not the error for a name outside the
    index, and that error is recorded after the phase and still recorded
    when a run on a sound skeleton ends. *)
Theorem C10_fallback_reachable (v : Validator) (p : Path) (msg : string)
    (l1 l2 : list Path) :
  file_meta v = [] ->
  basename_to_path v = ∅ ->
  rglob (repo v) = l1 ++ p :: l2 ->
  (forall q, In q l2 -> name q <> name p) ->
  name p <> "folder.xml" ->
  parse_xml (repo v) p = ParseFail msg ->
  exists v1,
    index_files v = (Returns tt, v1)
    /\ basename_to_path v1 !! name p = Some p
    /\ Dict.get p (file_meta v1) = None
    /\ (forall w src href frag,
          SameIndex v1 w ->
          Re.HREF_RE href = Some (name p, frag) ->
          href_errors v1 src href = [FailedToParseTarget href msg]
          /\ check_href src href w = fail (FailedToParseTarget href msg) w)
    /\ forall src root href frag,
         In src (Dict.keys (file_meta v1)) ->
         parse_xml (repo v) src = ParseOk root ->
         In href (hrefs root) ->
         Re.HREF_RE href = Some (name p, frag) ->
         (forall w, SameIndex v1 w ->
            exists w',
              check_hrefs w = (Returns tt, w')
              /\ errors w'
                 = errors w
                   ++ concat (map (file_href_errors v1) (Dict.keys (file_meta v1)))
              /\ In (FailedToParseTarget href msg) (errors w'))
         /\ (errors v = [] -> structure_errors (repo v) = [] ->
             In (FailedToParseTarget href msg) (errors (snd (run v)))).
Proof.
  intros Hf Hb Hl Hl2 Hn Hp.
  destruct (PhaseEq.index_files_indexed v Hf Hb) as (v1 & E1 & H01 & Hi1).
  exists v1. split; [exact E1|].
  rewrite IndexFacts.index_files_eq in E1. injection E1 as E1.
  assert (Hb1 : basename_to_path v1 !! name p = Some p).
  { rewrite <- E1, Hl. apply IndexMore.index_fold_basename_last; assumption. }
  assert (Hg1 : Dict.get p (file_meta v1) = None).
  { rewrite <- E1. apply (IndexFacts.index_fold_keeps_none p msg); [exact Hp|].
    rewrite Hf. reflexivity. }
  assert (Hp1 : parse_xml (repo v1) p = ParseFail msg).
  { rewrite (ext_repo _ _ H01). exact Hp. }
  split; [exact Hb1|]. split; [exact Hg1|].
  assert (Hone : forall src href frag,
            Re.HREF_RE href = Some (name p, frag) ->
            href_errors v1 src href = [FailedToParseTarget href msg]).
  { intros src href frag Hm.
    exact (PhaseEq.href_errors_unparsed v1 src href (name p) frag p msg Hm Hb1 Hg1 Hp1). }
  split.
  { intros w src href frag Hw Hm. split; [exact (Hone src href frag Hm)|].
    rewrite (PhaseEq.check_href_eq v1 w src href Hi1 Hw), (Hone src href frag Hm).
    reflexivity. }
  intros src root href frag Hk Hsrc Hh Hm.
  pose proof (Hone src href frag Hm) as Herr.
  assert (Hsrc1 : parse_xml (repo v1) src = ParseOk root).
  { rewrite (ext_repo _ _ H01). exact Hsrc. }
  assert (Hrec : forall es,
            In (FailedToParseTarget href msg)
               (es ++ concat (map (file_href_errors v1) (Dict.keys (file_meta v1))))).
  { intros es. apply (PhaseEq.href_error_recorded v1 src root href); try assumption.
    rewrite Herr. left. reflexivity. }
  split.
  - intros w Hw. eexists. split; [apply (PhaseEq.check_hrefs_eq v1 w Hi1 Hw)|].
    split; [reflexivity|]. apply Hrec.
  - intros He Hs.
    destruct (PhaseEq.run_phase_by_phase v Hf Hb He Hs)
      as (v2 & v3 & v4 & E2 & Hi2 & H02 & E3 & H23 & E4 & H34 & _).
    assert (Hv2 : v2 = v1).
    { rewrite IndexFacts.index_files_eq in E2. injection E2 as E2. congruence. }
    subst v2.
    assert (Hrun : run v = later_phases v).
    { rewrite GateFacts.run_unfold. cbv zeta. rewrite Hs, Frame.fail_all_nil, He.
      reflexivity. }
    apply (PhaseEq.run_keeps_reference_errors v v1 v3 v4); try assumption.
    + exact (Frame.same_indexed _ _ H34 (Frame.same_indexed _ _ H23 Hi1)).
    + rewrite (PhaseEq.check_hrefs_eq v1 v3 Hi1 H23) in E4. injection E4 as <-.
      apply Hrec.
Qed.

(** C10, a witness: the sample repository with a file that does not
    parse and a relationship that refers to it. *)
Lemma C10_fallback_reachable_witness :
  In (FailedToParseTarget "BusinessRole_id-9.xml#id-9" Fixture.broken_msg)
     (errors (snd (run (Fixture.fresh Fixture.repo_broken_target)))).
Proof.
  destruct (C10_fallback_reachable (Fixture.fresh Fixture.repo_broken_target)
              Fixture.broken_path Fixture.broken_msg
              [Fixture.actor_path] [Fixture.rel_path]) as (v1 & E1 & _ & _ & _ & H).
  - reflexivity.
  - reflexivity.
  - reflexivity.
  - intros q [<-|[]]. discriminate.
  - discriminate.
  - reflexivity.
  - apply (H Fixture.rel_path Fixture.rel_to_broken "BusinessRole_id-9.xml#id-9" "id-9").
    + change v1 with (snd (Returns tt, v1)). rewrite <- E1. vm_compute. tauto.
    + reflexivity.
    + right. left. reflexivity.
    + reflexivity.
    + reflexivity.
    + vm_compute. reflexivity.
Defined.

(** C10, as the specification states it, fails: when a file listed later
    has the base name of the file that does not parse, the name leads to
    the later file; a reference with that name is checked against it, the
    on-demand parse is not taken and no failed-to-parse-target error is
    recorded. *)
Lemma C10_later_duplicate_takes_the_name :
  parse_xml Cases.repo_duplicate_name Fixture.broken_path = ParseFail Fixture.broken_msg
  /\ In Fixture.broken_path (rglob Cases.repo_duplicate_name)
  /\ In "BusinessRole_id-9.xml#id-9" (hrefs Fixture.rel_to_broken)
  /\ Re.HREF_RE "BusinessRole_id-9.xml#id-9" = Some (name Fixture.broken_path, "id-9")
  /\ exists v,
       main Cases.repo_duplicate_name None false = Exit 1%Z v
       /\ basename_to_path v !! name Fixture.broken_path = Some Cases.role_path
       /\ Dict.get Fixture.broken_path (file_meta v) = None
       /\ Dict.get Fixture.rel_path (file_meta v) = Some ("AssociationRelationship", "id-2")
       /\ errors v = [ParseFailure Fixture.broken_msg].
Proof.
  split; [reflexivity|]. split; [right; left; reflexivity|].
  split; [right; left; reflexivity|]. split; [reflexivity|].
  eexists. split; [vm_compute; reflexivity|].
  split; [reflexivity|]. split; [reflexivity|]. split; reflexivity.
Qed.
